(** * EDI compliance rules engine: parser, rule loader, validators

    A shallow embedding of the Python sources
    [src/parser/segment_utils.py], [src/parser/edi_parser.py],
    [src/rules/rule_loader.py], [src/validator/error_collector.py],
    [src/validator/rule_evaluators.py] and
    [src/validator/validation_engine.py], followed by the properties
    established about them.

    Conventions.
    - A Python [str] is a [string]; every character is one code point
      below 256.
    - A Python [int] is a [Z].
    - A dictionary with a fixed set of optional keys is a record whose
      fields are [option]s ([None]: the key is absent); a dictionary whose
      insertion order is observable is an association list.
    - A method that appends to the shared [ErrorCollector] and may raise is
      a function in the monad [M] below: the collector is threaded through,
      and what was collected before a [raise] is kept. *)

From Stdlib Require Import String Ascii List ZArith NArith Lia Bool.
From Stdlib Require Import DecimalString.
Import ListNotations.

Local Open Scope string_scope.
Local Open Scope Z_scope.

(* ===================================================================== *)
(** ** Python built-ins used by the sources *)
(* ===================================================================== *)

Module Py.

Definition CR : ascii := ascii_of_nat 13.
Definition LF : ascii := ascii_of_nat 10.

(** [str.isspace] on one character (code points below 256). *)
Definition is_space (c : ascii) : bool :=
  let n := N_of_ascii c in
  (((9 <=? n) && (n <=? 13)) || ((28 <=? n) && (n <=? 32))
   || (n =? 133) || (n =? 160))%N.

Fixpoint lstrip (s : string) : string :=
  match s with
  | EmptyString => EmptyString
  | String c s' => if is_space c then lstrip s' else s
  end.

Fixpoint rstrip (s : string) : string :=
  match s with
  | EmptyString => EmptyString
  | String c s' =>
      match rstrip s' with
      | EmptyString => if is_space c then EmptyString else String c EmptyString
      | r => String c r
      end
  end.

(** [s.strip()] *)
Definition strip (s : string) : string := rstrip (lstrip s).

(** Truth value of a string: non-empty. *)
Definition truthy (s : string) : bool :=
  match s with EmptyString => false | _ => true end.

(** [s.split(sep)] for a one-character separator: never the empty list. *)
Fixpoint split (sep : ascii) (s : string) : list string :=
  match s with
  | EmptyString => [EmptyString]
  | String c s' =>
      if Ascii.eqb c sep then EmptyString :: split sep s'
      else match split sep s' with
           | [] => [String c EmptyString]
           | f :: fs => String c f :: fs
           end
  end.

(** [sep.join(l)] *)
Definition join (sep : string) (l : list string) : string :=
  String.concat sep l.

(** [s.replace('\r\n', '\n')] *)
Fixpoint replace_crlf (s : string) : string :=
  match s with
  | EmptyString => EmptyString
  | String c s' =>
      match s' with
      | String d s'' =>
          if Ascii.eqb c CR && Ascii.eqb d LF
          then String LF (replace_crlf s'')
          else String c (replace_crlf s')
      | EmptyString => String c EmptyString
      end
  end.

(** [s.replace('\r', '\n')] *)
Fixpoint replace_cr (s : string) : string :=
  match s with
  | EmptyString => EmptyString
  | String c s' =>
      String (if Ascii.eqb c CR then LF else c) (replace_cr s')
  end.

(** [s.upper()], exact on ASCII. A character above 127 is left as it is;
    Python's result for it holds none of the letters of ERROR, WARNING and
    INFO, the only strings an upper-cased severity is compared with. *)
Definition upper_char (c : ascii) : ascii :=
  let n := N_of_ascii c in
  if ((97 <=? n) && (n <=? 122))%N then ascii_of_N (n - 32) else c.

Fixpoint upper (s : string) : string :=
  match s with
  | EmptyString => EmptyString
  | String c s' => String (upper_char c) (upper s')
  end.

(** [str(n)] for an [int]. *)
Definition str_Z (z : Z) : string :=
  match z with
  | Z0 => "0"
  | Zpos p => NilZero.string_of_uint (Pos.to_uint p)
  | Zneg p => String "-" (NilZero.string_of_uint (Pos.to_uint p))
  end.

(** [f"{n:02d}"]: at least two characters, padded with a zero. *)
Definition fmt02 (z : Z) : string :=
  if (0 <=? z) && (z <? 10) then String "0" (str_Z z) else str_Z z.

(** [f"{x}"] of an optional string: an absent value prints as [None]. *)
Definition fmt_opt (o : option string) : string :=
  match o with Some s => s | None => "None" end.

Definition DQUOTE : ascii := ascii_of_nat 34.
Definition SQUOTE : ascii := ascii_of_nat 39.
Definition BACKSLASH : ascii := ascii_of_nat 92.
Definition TAB : ascii := ascii_of_nat 9.

Definition contains_char (c : ascii) (s : string) : bool :=
  existsb (Ascii.eqb c) (list_ascii_of_string s).

(** [str.isprintable] on one character (code points below 256). *)
Definition is_printable (c : ascii) : bool :=
  let n := N_of_ascii c in
  (((32 <=? n) && (n <? 127)) || ((161 <=? n) && negb (n =? 173)))%N.

Definition hex_digit (n : N) : ascii :=
  if (n <? 10)%N then ascii_of_N (48 + n) else ascii_of_N (87 + n).

Definition repr_char (quote c : ascii) : string :=
  if Ascii.eqb c quote || Ascii.eqb c BACKSLASH then
    String BACKSLASH (String c EmptyString)
  else if Ascii.eqb c LF then String BACKSLASH "n"
  else if Ascii.eqb c CR then String BACKSLASH "r"
  else if Ascii.eqb c TAB then String BACKSLASH "t"
  else if is_printable c then String c EmptyString
  else
    let n := N_of_ascii c in
    String BACKSLASH
      (String "x" (String (hex_digit (n / 16)) (String (hex_digit (n mod 16))
                                                       EmptyString))).

(** [repr(s)] of a string: single quotes, unless the string holds a single
    quote and no double quote. *)
Definition repr (s : string) : string :=
  let quote :=
    if contains_char SQUOTE s && negb (contains_char DQUOTE s)
    then DQUOTE else SQUOTE in
  String quote
    (String.concat EmptyString
                   (map (repr_char quote) (list_ascii_of_string s))
     ++ String quote EmptyString).

(** [repr(l)] of a list of strings. *)
Definition repr_list (l : list string) : string :=
  "[" ++ String.concat ", " (map repr l) ++ "]".

Definition is_digit (c : ascii) : bool :=
  let n := N_of_ascii c in ((48 <=? n) && (n <=? 57))%N.

(** The digits of a decimal literal: digit groups separated by single
    underscores. [prev_digit] tells that the previous character was a
    digit. *)
Fixpoint digits_value (acc : Z) (prev_digit : bool) (s : string) : option Z :=
  match s with
  | EmptyString => if prev_digit then Some acc else None
  | String c s' =>
      if is_digit c then
        digits_value (10 * acc + (Z.of_N (N_of_ascii c) - 48)) true s'
      else if Ascii.eqb c "_" && prev_digit then digits_value acc false s'
      else None
  end.

(** [int(s)] for a string, [None] where Python raises [ValueError]. The
    interpreter's optional cap on the length of a decimal conversion is
    not modelled. *)
Definition int_str (s : string) : option Z :=
  match strip s with
  | String "+" r => digits_value 0 false r
  | String "-" r => option_map Z.opp (digits_value 0 false r)
  | r => digits_value 0 false r
  end.

(** [l[i]] for a list and an [int]: a negative index counts from the end;
    [None] where Python raises [IndexError]. *)
Definition index {A} (l : list A) (i : Z) : option A :=
  if 0 <=? i then nth_error l (Z.to_nat i)
  else if 0 <=? Z.of_nat (List.length l) + i
       then nth_error l (Z.to_nat (Z.of_nat (List.length l) + i))
       else None.

(** [a == b] where [a] may be [None] and [b] is a string. *)
Definition opt_eqb (a : option string) (b : string) : bool :=
  match a with Some x => String.eqb x b | None => false end.

(** [a == b] where both may be [None]. *)
Definition opt_opt_eqb (a b : option string) : bool :=
  match a, b with
  | Some x, Some y => String.eqb x y
  | None, None => true
  | _, _ => false
  end.

(** Truth value of an optional string: present and non-empty. *)
Definition opt_truthy (a : option string) : bool :=
  match a with Some x => truthy x | None => false end.

(** [s.lower()], exact on the code points below 256: the ASCII capitals and
    the capitals of the Latin-1 range (192 to 222, the multiplication sign
    215 apart) move 32 places up. *)
Definition lower_char (c : ascii) : ascii :=
  let n := N_of_ascii c in
  if (((65 <=? n) && (n <=? 90))
      || ((192 <=? n) && (n <=? 222) && negb (n =? 215)))%N
  then ascii_of_N (n + 32) else c.

Fixpoint lower (s : string) : string :=
  match s with
  | EmptyString => EmptyString
  | String c s' => String (lower_char c) (lower s')
  end.

(** [len(l)] as an [int]. *)
Definition len {A} (l : list A) : Z := Z.of_nat (List.length l).

Definition str_len (s : string) : Z := Z.of_nat (String.length s).

End Py.

(* ===================================================================== *)
(** ** config/settings.py *)
(* ===================================================================== *)

Definition SEGMENT_TERMINATOR : ascii := "~"%char.
Definition ELEMENT_SEPARATOR : ascii := "*"%char.
Definition SUBELEMENT_SEPARATOR : ascii := ":"%char.

(* ===================================================================== *)
(** ** Exceptions *)
(* ===================================================================== *)

(** The exceptions the modelled code can raise; all are subclasses of
    Python's [Exception]. *)
Inductive exn : Type :=
| KeyError (key : string)
| ValueError (msg : string)
| IndexError (msg : string)
| ReError (msg : string).

(* ===================================================================== *)
(** ** parser/segment_utils.py *)
(* ===================================================================== *)

Definition normalize_edi_text (raw_text : string) : string :=
  let normalized := Py.strip raw_text in
  let normalized := Py.replace_cr (Py.replace_crlf normalized) in
  let lines :=
    map Py.strip
        (filter (fun line => Py.truthy (Py.strip line))
                (Py.split Py.LF normalized)) in
  Py.join (String Py.LF EmptyString) lines.

Definition split_segments_with (segment_terminator : ascii)
           (edi_text : string) : list string :=
  let normalized := normalize_edi_text edi_text in
  let segments := Py.split segment_terminator normalized in
  map Py.strip (filter (fun seg => Py.truthy (Py.strip seg)) segments).

Definition split_segments : string -> list string :=
  split_segments_with SEGMENT_TERMINATOR.

Definition split_elements_with (element_separator : ascii)
           (segment : string) : list string :=
  Py.split element_separator segment.

Definition split_elements : string -> list string :=
  split_elements_with ELEMENT_SEPARATOR.

Definition split_subelements (element : string) : list string :=
  if existsb (Ascii.eqb SUBELEMENT_SEPARATOR) (list_ascii_of_string element)
  then Py.split SUBELEMENT_SEPARATOR element
  else [element].

Definition get_segment_id (segment : string) : string :=
  match split_elements segment with
  | e :: _ => e
  | [] => EmptyString
  end.

Definition get_element_value (segment : string) (position : nat)
           (default : string) : string :=
  match nth_error (split_elements segment) position with
  | Some e =>
      let value := Py.strip e in
      if Py.truthy value then value else default
  | None => default
  end.

Record ControlNumbers : Type := {
  interchange_control : string;
  group_control : string;
  transaction_control : string
}.

Definition extract_control_numbers (segments : list string) : ControlNumbers :=
  fold_left
    (fun cn segment =>
       let seg_id := get_segment_id segment in
       if String.eqb seg_id "ISA" then
         {| interchange_control := get_element_value segment 13 "";
            group_control := group_control cn;
            transaction_control := transaction_control cn |}
       else if String.eqb seg_id "GS" then
         {| interchange_control := interchange_control cn;
            group_control := get_element_value segment 6 "";
            transaction_control := transaction_control cn |}
       else if String.eqb seg_id "ST" then
         {| interchange_control := interchange_control cn;
            group_control := group_control cn;
            transaction_control := get_element_value segment 2 "" |}
       else cn)
    segments
    {| interchange_control := ""; group_control := "";
       transaction_control := "" |}.

(* ===================================================================== *)
(** ** parser/edi_parser.py *)
(* ===================================================================== *)

(** One entry of the parsed document's [segments] list. *)
Module Segment.
Record t : Type := mk {
  line : Z;
  segment_id : string;
  elements : list string;
  element_count : Z;
  raw : string
}.
End Segment.

Module Metadata.
Record t : Type := mk {
  doc_type : string;
  version : string;
  sender_id : string;
  receiver_id : string;
  interchange_date : string;
  interchange_time : string;
  control_numbers : ControlNumbers;
  functional_group : string
}.
End Metadata.

Module Statistics.
Record t : Type := mk {
  total_segments : Z;
  segment_counts : list (string * Z);
  has_envelope : bool
}.
End Statistics.

(** The dictionary returned by [EDIParser.parse_text]. *)
Module Document.
Record t : Type := mk {
  metadata : Metadata.t;
  segments : list Segment.t;
  statistics : Statistics.t
}.
End Document.

Definition _extract_metadata (segments : list string) : Metadata.t :=
  let scanned :=
    fold_left
      (fun (m : Metadata.t) segment_str =>
         let seg_id := get_segment_id segment_str in
         if String.eqb seg_id "ISA" then
           Metadata.mk (Metadata.doc_type m)
             (get_element_value segment_str 12 "")
             (Py.strip (get_element_value segment_str 6 ""))
             (Py.strip (get_element_value segment_str 8 ""))
             (get_element_value segment_str 9 "")
             (get_element_value segment_str 10 "")
             (Metadata.control_numbers m)
             (Metadata.functional_group m)
         else if String.eqb seg_id "GS" then
           Metadata.mk (Metadata.doc_type m) (Metadata.version m)
             (Metadata.sender_id m) (Metadata.receiver_id m)
             (Metadata.interchange_date m) (Metadata.interchange_time m)
             (Metadata.control_numbers m)
             (get_element_value segment_str 1 "")
         else if String.eqb seg_id "ST" then
           Metadata.mk (get_element_value segment_str 1 "")
             (Metadata.version m)
             (Metadata.sender_id m) (Metadata.receiver_id m)
             (Metadata.interchange_date m) (Metadata.interchange_time m)
             (Metadata.control_numbers m)
             (Metadata.functional_group m)
         else m)
      segments
      (Metadata.mk "" "" "" "" "" ""
         {| interchange_control := ""; group_control := "";
            transaction_control := "" |} "") in
  Metadata.mk (Metadata.doc_type scanned) (Metadata.version scanned)
    (Metadata.sender_id scanned) (Metadata.receiver_id scanned)
    (Metadata.interchange_date scanned) (Metadata.interchange_time scanned)
    (extract_control_numbers segments)
    (Metadata.functional_group scanned).

(** The loop of [_parse_all_segments], from line number [line_number]. *)
Fixpoint parse_segments_from (line_number : Z) (segments : list string)
  : list Segment.t :=
  match segments with
  | [] => []
  | segment_str :: rest =>
      let elements := split_elements segment_str in
      match elements with
      | [] => parse_segments_from line_number rest
      | e0 :: _ =>
          Segment.mk line_number e0 elements (Py.len elements) segment_str
            :: parse_segments_from (line_number + 1) rest
      end
  end.

Definition _parse_all_segments (segments : list string) : list Segment.t :=
  parse_segments_from 1 segments.

(** [d[k] = d.get(k, 0) + 1] on an insertion-ordered dictionary. *)
Fixpoint count_incr (k : string) (d : list (string * Z)) : list (string * Z) :=
  match d with
  | [] => [(k, 1)]
  | (k', n) :: d' =>
      if String.eqb k' k then (k', n + 1) :: d' else (k', n) :: count_incr k d'
  end.

Definition _has_complete_envelope (segments : list Segment.t) : bool :=
  let segment_ids := map Segment.segment_id segments in
  forallb (fun required => existsb (String.eqb required) segment_ids)
          ["ISA"; "GS"; "ST"; "SE"; "GE"; "IEA"].

Definition _calculate_statistics (segments : list Segment.t) : Statistics.t :=
  Statistics.mk
    (Py.len segments)
    (fold_left (fun counts seg => count_incr (Segment.segment_id seg) counts)
               segments [])
    (_has_complete_envelope segments).

Definition _build_parsed_structure (segments : list string) : Document.t :=
  let metadata := _extract_metadata segments in
  let parsed_segments := _parse_all_segments segments in
  let statistics := _calculate_statistics parsed_segments in
  Document.mk metadata parsed_segments statistics.

(** [EDIParser.parse_text]: the parsed document, or the [ValueError] raised.
    The parser object keeps the text, the segment strings and the result in
    attributes that a later call overwrites; the returned value depends on
    the argument only. *)
Definition parse_text (edi_text : string) : exn + Document.t :=
  if negb (Py.truthy edi_text) || negb (Py.truthy (Py.strip edi_text)) then
    inl (ValueError "EDI text is empty")
  else
    let normalized_text := normalize_edi_text edi_text in
    let segments := split_segments normalized_text in
    match segments with
    | [] => inl (ValueError "No segments found in EDI text")
    | _ => inr (_build_parsed_structure segments)
    end.

(* ===================================================================== *)
(** ** Rule definitions (the JSON rule format) *)
(* ===================================================================== *)

(** A position written in a rule file either as a number or as a string;
    the evaluators pass it through [int(...)]. *)
Inductive jnum : Type :=
| JInt (z : Z)
| JStr (s : string).

Definition jnum_truthy (v : jnum) : bool :=
  match v with
  | JInt z => negb (z =? 0)
  | JStr s => Py.truthy s
  end.

(** [int(v)] *)
Definition py_int (v : jnum) : exn + Z :=
  match v with
  | JInt z => inr z
  | JStr s =>
      match Py.int_str s with
      | Some z => inr z
      | None =>
          inl (ValueError ("invalid literal for int() with base 10: "
                             ++ Py.repr s))
      end
  end.

(** [int(d.get(key, 0))] *)
Definition py_int_default0 (v : option jnum) : exn + Z :=
  match v with Some x => py_int x | None => inr 0 end.

(** The [validations] object of an element rule. *)
Module Validations.
Record t : Type := mk {
  required : option bool;
  min_length : option Z;
  max_length : option Z;
  allowed_values : option (list string);
  regex : option string
}.
Definition empty : t := mk None None None None None.
End Validations.

(** The [conditional] object of an element rule. *)
Module Conditional.
Record t : Type := mk {
  if_element : option jnum;
  equals : option string
}.
Definition empty : t := mk None None.
(** Truth value of the dictionary: some key is present. *)
Definition truthy (c : t) : bool :=
  match if_element c, equals c with
  | None, None => false
  | _, _ => true
  end.
End Conditional.

(** The [condition] object of a conditional rule. *)
Module Condition.
Record t : Type := mk {
  if_segment : option string;
  if_element : option jnum;
  if_value : option string;
  if_value_exists : option bool
}.
Definition empty : t := mk None None None None.
End Condition.

Module RequiredElement.
Record t : Type := mk {
  segment : option string;
  element : option jnum
}.
Definition truthy (c : t) : bool :=
  match segment c, element c with
  | None, None => false
  | _, _ => true
  end.
End RequiredElement.

(** The [then] object of a conditional rule. *)
Module ThenClause.
Record t : Type := mk {
  required_segments : list string;
  within_loop : option string;
  required_element : option RequiredElement.t;
  message : option string
}.
Definition empty : t := mk [] None None None.
End ThenClause.

Module MatchPair.
Record t : Type := mk {
  segment_1 : option string;
  element_1 : option jnum;
  segment_2 : option string;
  element_2 : option jnum
}.
End MatchPair.

(** The [validation_logic] object of a cross-segment rule. *)
Module ValidationLogic.
Record t : Type := mk {
  type : option string;
  source_segment : option string;
  target_segment : option string;
  target_element : option jnum;
  message : option string;
  match_pairs : list MatchPair.t;
  segment_id : option string;
  element_position : option jnum;
  required_value : option string
}.
Definition empty : t := mk None None None None None [] None None None.
End ValidationLogic.

(** One rule entry. A list-valued key that is absent reads as the empty
    list, an absent object as the empty object. *)
Module Rule.
Record t : Type := mk {
  rule_id : option string;
  severity : option string;
  description : option string;
  applies_to_doc_types : list string;
  segment_id : option string;
  min_occurrences : option Z;
  max_occurrences : option Z;
  element_filters : list (string * string);
  element_position : option jnum;
  validations : Validations.t;
  conditional : Conditional.t;
  condition : Condition.t;
  then_clause : ThenClause.t;
  validation_logic : ValidationLogic.t
}.

(** The empty rule entry [{}]. *)
Definition empty : t :=
  mk None None None [] None None None [] None Validations.empty
     Conditional.empty Condition.empty ThenClause.empty
     ValidationLogic.empty.

(** [rule["severity"] = s] *)
Definition set_severity (s : option string) (r : t) : t :=
  mk (rule_id r) s (description r) (applies_to_doc_types r) (segment_id r)
     (min_occurrences r) (max_occurrences r) (element_filters r)
     (element_position r) (validations r) (conditional r) (condition r)
     (then_clause r) (validation_logic r).

(** [rule["validations"]["allowed_values"].extend(extra)], when the key
    is there. *)
Definition extend_allowed_values (extra : list string) (r : t) : t :=
  match Validations.allowed_values (validations r) with
  | Some values =>
      let v := validations r in
      mk (rule_id r) (severity r) (description r) (applies_to_doc_types r)
         (segment_id r) (min_occurrences r) (max_occurrences r)
         (element_filters r) (element_position r)
         (Validations.mk (Validations.required v) (Validations.min_length v)
            (Validations.max_length v) (Some (values ++ extra)%list)
            (Validations.regex v))
         (conditional r) (condition r) (then_clause r) (validation_logic r)
  | None => r
  end.
End Rule.

(* ===================================================================== *)
(** ** rules/rule_loader.py *)
(* ===================================================================== *)

(** An insertion-ordered dictionary keyed by strings: [d[k] = v] keeps the
    place of a key that is already there and appends a new key. *)
Fixpoint od_set {V : Type} (k : string) (v : V) (d : list (string * V))
  : list (string * V) :=
  match d with
  | [] => [(k, v)]
  | (k', v') :: d' =>
      if String.eqb k' k then (k', v) :: d' else (k', v') :: od_set k v d'
  end.

Fixpoint od_get {V : Type} (k : string) (d : list (string * V)) : option V :=
  match d with
  | [] => None
  | (k', v') :: d' => if String.eqb k' k then Some v' else od_get k d'
  end.

(** [list(d.values())] *)
Definition od_values {V : Type} (d : list (string * V)) : list V :=
  map snd d.

Definition od_keys {V : Type} (d : list (string * V)) : list string :=
  map fst d.

(** One entry of a retailer tier's [overrides] list. *)
Module Override.
Record t : Type := mk {
  rule_id : option string;
  override_type : option string;
  new_severity : option string;
  new_allowed_values : list string
}.
End Override.

(** One rule file as loaded: every top-level key is optional. The loader
    does not read the content of [ruleset_info] (the field tells whether the
    key is there); the entries of [segment_sequences] and [business_rules]
    are carried along unread and are kept as strings. *)
Module Tier.
Record t : Type := mk {
  ruleset_info : bool;
  required_segments : option (list Rule.t);
  element_rules : option (list Rule.t);
  conditional_rules : option (list Rule.t);
  cross_segment_rules : option (list Rule.t);
  overrides : option (list Override.t);
  segment_sequences : option (list string);
  business_rules : option (list string)
}.

(** The empty dictionary [{}]. *)
Definition empty : t := mk false None None None None None None None.

Definition is_some {A} (o : option A) : bool :=
  match o with Some _ => true | None => false end.

(** Truth value of the dictionary: some key is present. *)
Definition truthy (x : t) : bool :=
  ruleset_info x || is_some (required_segments x)
  || is_some (element_rules x) || is_some (conditional_rules x)
  || is_some (cross_segment_rules x) || is_some (overrides x)
  || is_some (segment_sequences x) || is_some (business_rules x).
End Tier.

(** The four rule categories, in the order of [rule_categories]. *)
Inductive category : Type :=
| required_segments
| element_rules
| conditional_rules
| cross_segment_rules.

(** [tier.get(category, [])] *)
Definition tier_get (x : Tier.t) (c : category) : list Rule.t :=
  let o :=
    match c with
    | required_segments => Tier.required_segments x
    | element_rules => Tier.element_rules x
    | conditional_rules => Tier.conditional_rules x
    | cross_segment_rules => Tier.cross_segment_rules x
    end in
  match o with Some l => l | None => [] end.

Module RulesetInfo.
Record t : Type := mk {
  name : string;
  doc_type : string;
  retailer : string;
  rulesets_applied : list string
}.
End RulesetInfo.

(** The merged ruleset built by [_merge_rulesets]. *)
Module RuleSet.
Record t : Type := mk {
  ruleset_info : RulesetInfo.t;
  required_segments : list Rule.t;
  element_rules : list Rule.t;
  conditional_rules : list Rule.t;
  cross_segment_rules : list Rule.t;
  segment_sequences : option (list string);
  business_rules : option (list string)
}.
End RuleSet.

(** [ruleset[category]] *)
Definition ruleset_get (m : RuleSet.t) (c : category) : list Rule.t :=
  match c with
  | required_segments => RuleSet.required_segments m
  | element_rules => RuleSet.element_rules m
  | conditional_rules => RuleSet.conditional_rules m
  | cross_segment_rules => RuleSet.cross_segment_rules m
  end.

(** The body of the loops over the core tier and over the document tier:
    [if rule_id: category_rules[rule_id] = deepcopy(rule)]. *)
Definition add_rule (category_rules : list (string * Rule.t)) (rule : Rule.t)
  : list (string * Rule.t) :=
  match Rule.rule_id rule with
  | Some rule_id =>
      if Py.truthy rule_id then od_set rule_id rule category_rules
      else category_rules
  | None => category_rules
  end.

(** [not applies_to or doc_type in applies_to] *)
Definition applies_to (rule : Rule.t) (doc_type : string) : bool :=
  match Rule.applies_to_doc_types rule with
  | [] => true
  | l => existsb (String.eqb doc_type) l
  end.

(** The body of the loop over the retailer tier. *)
Definition add_retailer_rule (doc_type : string)
           (category_rules : list (string * Rule.t)) (rule : Rule.t)
  : list (string * Rule.t) :=
  match Rule.rule_id rule with
  | Some rule_id =>
      if Py.truthy rule_id then
        if applies_to rule doc_type then od_set rule_id rule category_rules
        else category_rules
      else category_rules
  | None => category_rules
  end.

(** The dictionary [category_rules] after the three loops of one category. *)
Definition category_rules (core doc ret : list Rule.t) (doc_type : string)
  : list (string * Rule.t) :=
  let d := fold_left add_rule core [] in
  let d := fold_left add_rule doc d in
  fold_left (add_retailer_rule doc_type) ret d.

(** One round of [for category in rule_categories]: the value stored in
    [merged[category]]. *)
Definition merge_category (core doc ret : list Rule.t) (doc_type : string)
  : list Rule.t :=
  od_values (category_rules core doc ret doc_type).

(** What one override does to one rule whose id matches. *)
Definition override_rule (override : Override.t) (override_type : string)
           (rule : Rule.t) : exn + Rule.t :=
  if String.eqb override_type "severity_escalation" then
    match Override.new_severity override with
    | Some s => inr (Rule.set_severity (Some s) rule)
    | None => inl (KeyError "new_severity")
    end
  else if String.eqb override_type "add_allowed_value" then
    inr (Rule.extend_allowed_values (Override.new_allowed_values override) rule)
  else inr rule.

(** [for rule in ruleset[category]] of [_apply_overrides]. *)
Fixpoint override_rules (override : Override.t) (rule_id override_type : string)
         (rules : list Rule.t) : exn + list Rule.t :=
  match rules with
  | [] => inr []
  | rule :: rest =>
      match
        (if Py.opt_eqb (Rule.rule_id rule) rule_id
         then override_rule override override_type rule
         else inr rule)
      with
      | inl e => inl e
      | inr rule' =>
          match override_rules override rule_id override_type rest with
          | inl e => inl e
          | inr rest' => inr (rule' :: rest')
          end
      end
  end.

(** One override applied to the whole ruleset: the list-valued keys are the
    four categories, visited in the order of the dictionary. *)
Definition apply_override (ruleset : RuleSet.t) (override : Override.t)
  : exn + RuleSet.t :=
  match Override.rule_id override, Override.override_type override with
  | Some rule_id, Some override_type =>
      if Py.truthy rule_id && Py.truthy override_type then
        let go := override_rules override rule_id override_type in
        match go (RuleSet.required_segments ruleset) with
        | inl e => inl e
        | inr c1 =>
        match go (RuleSet.element_rules ruleset) with
        | inl e => inl e
        | inr c2 =>
        match go (RuleSet.conditional_rules ruleset) with
        | inl e => inl e
        | inr c3 =>
        match go (RuleSet.cross_segment_rules ruleset) with
        | inl e => inl e
        | inr c4 =>
            inr (RuleSet.mk (RuleSet.ruleset_info ruleset) c1 c2 c3 c4
                            (RuleSet.segment_sequences ruleset)
                            (RuleSet.business_rules ruleset))
        end end end end
      else inr ruleset
  | _, _ => inr ruleset
  end.

Fixpoint _apply_overrides (ruleset : RuleSet.t) (overrides : list Override.t)
  : exn + RuleSet.t :=
  match overrides with
  | [] => inr ruleset
  | override :: rest =>
      match apply_override ruleset override with
      | inl e => inl e
      | inr ruleset' => _apply_overrides ruleset' rest
      end
  end.

(** The two optional categories: the document tier's list, then the
    retailer tier's appended. *)
Definition merge_optional (doc ret : option (list string))
  : option (list string) :=
  match ret with
  | Some r => Some ((match doc with Some d => d | None => [] end) ++ r)%list
  | None => doc
  end.

(** [RuleLoader._merge_rulesets]: the merged ruleset, or the exception
    raised while applying the overrides. *)
Definition _merge_rulesets (core doc ret : Tier.t) (doc_type : string)
           (retailer : option string) : exn + RuleSet.t :=
  let applied :=
    ((if Tier.truthy core then ["x12_core"] else [])
     ++ (if Tier.truthy doc then [("doc_" ++ doc_type)%string] else [])
     ++ (if Tier.truthy ret
         then [("retailer_" ++ Py.fmt_opt retailer)%string] else []))%list in
  let info :=
    RulesetInfo.mk ("Merged Ruleset: " ++ doc_type) doc_type
      (if Py.opt_truthy retailer then Py.fmt_opt retailer else "none")
      applied in
  let cat c :=
    merge_category (tier_get core c) (tier_get doc c) (tier_get ret c) doc_type in
  let merged :=
    RuleSet.mk info (cat required_segments) (cat element_rules)
               (cat conditional_rules) (cat cross_segment_rules) None None in
  let overridden :=
    match Tier.overrides ret with
    | Some overrides => _apply_overrides merged overrides
    | None => inr merged
    end in
  match overridden with
  | inl e => inl e
  | inr m =>
      inr (RuleSet.mk (RuleSet.ruleset_info m)
             (RuleSet.required_segments m) (RuleSet.element_rules m)
             (RuleSet.conditional_rules m) (RuleSet.cross_segment_rules m)
             (merge_optional (Tier.segment_sequences doc)
                             (Tier.segment_sequences ret))
             (merge_optional (Tier.business_rules doc)
                             (Tier.business_rules ret)))
  end.

(** A merged ruleset read back as a tier (its category keys are the
    tier's). *)
Definition tier_of_ruleset (m : RuleSet.t) : Tier.t :=
  Tier.mk
    true
    (Some (RuleSet.required_segments m))
    (Some (RuleSet.element_rules m))
    (Some (RuleSet.conditional_rules m))
    (Some (RuleSet.cross_segment_rules m))
    None
    (RuleSet.segment_sequences m)
    (RuleSet.business_rules m).

(** [get_rule_by_id] on one category list: the first rule with that id. *)
Definition find_rule (rule_id : option string) (rules : list Rule.t)
  : option Rule.t :=
  find (fun rule => Py.opt_opt_eqb (Rule.rule_id rule) rule_id) rules.

(* ===================================================================== *)
(** ** validator/error_collector.py *)
(* ===================================================================== *)

(** [class ValidationError]: one issue. The creation timestamp is left
    out. *)
Module Issue.
Record t : Type := mk {
  rule_id : string;
  severity : string;
  message : string;
  segment_id : option string;
  line_number : option Z;
  element_position : option Z;
  expected_value : option string;
  actual_value : option string;
  context : list (string * string)
}.
End Issue.

Module ErrorCollector.
Record t : Type := mk {
  errors : list Issue.t;
  warnings : list Issue.t;
  info : list Issue.t
}.

(** [ErrorCollector()] *)
Definition new : t := mk [] [] [].

Definition add_error (self : t) (rule_id severity message : string)
           (segment_id : option string) (line_number : option Z)
           (element_position : option Z)
           (expected_value actual_value : option string)
           (context : list (string * string)) : t :=
  let error :=
    Issue.mk rule_id (Py.upper severity) message segment_id line_number
             element_position expected_value actual_value context in
  if String.eqb (Py.upper severity) "ERROR" then
    mk (errors self ++ [error]) (warnings self) (info self)
  else if String.eqb (Py.upper severity) "WARNING" then
    mk (errors self) (warnings self ++ [error]) (info self)
  else
    mk (errors self) (warnings self) (info self ++ [error]).

Definition get_all_errors (self : t) : list Issue.t :=
  (errors self ++ warnings self ++ info self)%list.

Definition get_errors_by_severity (self : t) (severity : string)
  : list Issue.t :=
  let severity := Py.upper severity in
  if String.eqb severity "ERROR" then errors self
  else if String.eqb severity "WARNING" then warnings self
  else if String.eqb severity "INFO" then info self
  else [].

Definition has_errors (self : t) : bool := Py.len (errors self) >? 0.

Definition has_warnings (self : t) : bool := Py.len (warnings self) >? 0.

(** [len(collector)] *)
Definition len (self : t) : Z := Py.len (get_all_errors self).

(** [error.segment_id == segment_id] over all issues. *)
Definition get_errors_by_segment (self : t) (segment_id : string)
  : list Issue.t :=
  filter (fun error => Py.opt_eqb (Issue.segment_id error) segment_id)
         (get_all_errors self).

(** [error.line_number == line_number] over all issues. *)
Definition get_errors_by_line (self : t) (line_number : Z) : list Issue.t :=
  filter (fun error =>
            match Issue.line_number error with
            | Some n => n =? line_number
            | None => false
            end)
         (get_all_errors self).

(** The dictionary returned by [get_statistics]; its three count
    dictionaries keep the order of insertion. *)
Record statistics : Type := mk_statistics {
  total_errors : Z;
  by_severity : list (string * Z);
  by_segment : list (string * Z);
  by_rule : list (string * Z);
  is_compliant : bool
}.

Definition get_statistics (self : t) : statistics :=
  let all_errors := get_all_errors self in
  let severity_counts :=
    [("ERROR", Py.len (errors self)); ("WARNING", Py.len (warnings self));
     ("INFO", Py.len (info self))] in
  let segment_counts :=
    fold_left
      (fun counts error =>
         match Issue.segment_id error with
         | Some s => if Py.truthy s then count_incr s counts else counts
         | None => counts
         end)
      all_errors [] in
  let rule_counts :=
    fold_left (fun counts error => count_incr (Issue.rule_id error) counts)
              all_errors [] in
  mk_statistics (Py.len all_errors) severity_counts segment_counts rule_counts
                (Py.len (errors self) =? 0).

(** [clear]: the collector afterwards. *)
Definition clear (self : t) : t := mk [] [] [].
End ErrorCollector.

(* ===================================================================== *)
(** ** The monad of the evaluators *)
(* ===================================================================== *)

(** A computation that appends to the collector and either returns or
    raises; the collector is kept in both cases. *)
Definition M (A : Type) : Type :=
  ErrorCollector.t -> ErrorCollector.t * (exn + A).

Definition ret {A} (a : A) : M A := fun c => (c, inr a).

Definition raise {A} (e : exn) : M A := fun c => (c, inl e).

Definition bind {A B} (m : M A) (f : A -> M B) : M B :=
  fun c =>
    match m c with
    | (c', inr a) => f a c'
    | (c', inl e) => (c', inl e)
    end.

Declare Scope eval_scope.
Delimit Scope eval_scope with eval.
Notation "x <- m ;; k" := (bind m (fun x => k))
  (at level 61, m at next level, right associativity) : eval_scope.
Notation "m ;; k" := (bind m (fun _ => k))
  (at level 61, right associativity) : eval_scope.
Local Open Scope eval_scope.

(** A pure step that may raise. *)
Definition lift {A} (r : exn + A) : M A := fun c => (c, r).

(** [d[name]] on a key that may be absent. *)
Definition key {A} (name : string) (o : option A) : M A :=
  match o with
  | Some a => ret a
  | None => raise (KeyError name)
  end.

(** [l[i]] *)
Definition item {A} (l : list A) (i : Z) : exn + A :=
  match Py.index l i with
  | Some a => inr a
  | None => inl (IndexError "list index out of range")
  end.

(** [self.error_collector.add_error(...)] *)
Definition add_error (rule_id severity message : string)
           (segment_id : option string) (line_number : option Z)
           (element_position : option Z)
           (expected_value actual_value : option string)
           (context : list (string * string)) : M unit :=
  fun c =>
    (ErrorCollector.add_error c rule_id severity message segment_id
       line_number element_position expected_value actual_value context,
     inr tt).

(** [for x in l: body(x)] *)
Fixpoint for_each {A} (l : list A) (body : A -> M unit) : M unit :=
  match l with
  | [] => ret tt
  | x :: rest => body x ;; for_each rest body
  end.

(** [if b: body] *)
Definition when (b : bool) (body : M unit) : M unit :=
  if b then body else ret tt.

(** [str(e)] *)
Definition str_exn (e : exn) : string :=
  match e with
  | KeyError k => Py.repr k
  | ValueError msg => msg
  | IndexError msg => msg
  | ReError msg => msg
  end.

(** [[s for s in segments if s["segment_id"] == segment_id]] *)
Definition segments_with_id (segments : list Segment.t)
           (segment_id : option string) : list Segment.t :=
  filter (fun s => Py.opt_eqb segment_id (Segment.segment_id s)) segments.

(* ===================================================================== *)
(** ** validator/rule_evaluators.py *)
(* ===================================================================== *)

Module RequiredSegmentValidator.

(** The loop over [element_filters.items()]; the keys are strings. *)
Fixpoint matches_filters (elements : list string)
         (element_filters : list (string * string)) : exn + bool :=
  match element_filters with
  | [] => inr true
  | (position, required_value) :: rest =>
      match py_int (JStr position) with
      | inl e => inl e
      | inr position =>
          if position >=? Py.len elements then inr false
          else
            match item elements position with
            | inl e => inl e
            | inr e =>
                if negb (String.eqb e required_value) then inr false
                else matches_filters elements rest
            end
      end
  end.

Fixpoint _find_matching_segments (segments : list Segment.t)
         (segment_id : option string)
         (element_filters : list (string * string))
  : exn + list Segment.t :=
  match segments with
  | [] => inr []
  | segment :: rest =>
      if negb (Py.opt_eqb segment_id (Segment.segment_id segment)) then
        _find_matching_segments rest segment_id element_filters
      else
        match
          (match element_filters with
           | [] => inr true
           | _ => matches_filters (Segment.elements segment) element_filters
           end)
        with
        | inl e => inl e
        | inr keep =>
            match _find_matching_segments rest segment_id element_filters with
            | inl e => inl e
            | inr matching =>
                inr (if keep then segment :: matching else matching)
            end
        end
  end.

(** The body of [for rule in rules]. *)
Definition validate_rule (segments : list Segment.t) (rule : Rule.t)
  : M unit :=
  let segment_id := Rule.segment_id rule in
  let min_occurrences :=
    match Rule.min_occurrences rule with Some n => n | None => 0 end in
  let max_occurrences := Rule.max_occurrences rule in
  let element_filters := Rule.element_filters rule in
  matching_segments <-
    lift (_find_matching_segments segments segment_id element_filters) ;;
  let count := Py.len matching_segments in
  when (count <? min_occurrences)
    (rule_id <- key "rule_id" (Rule.rule_id rule) ;;
     severity <- key "severity" (Rule.severity rule) ;;
     description <- key "description" (Rule.description rule) ;;
     add_error rule_id severity
       (description ++ " (found " ++ Py.str_Z count
          ++ ", expected at least " ++ Py.str_Z min_occurrences ++ ")")
       segment_id None None
       (Some ("min " ++ Py.str_Z min_occurrences))
       (Some (Py.str_Z count)) []) ;;
  match max_occurrences with
  | Some max_occurrences =>
      when (count >? max_occurrences)
        (line_number <-
           (if count >? 0 then
              excess_segment <- lift (item matching_segments max_occurrences) ;;
              ret (Some (Segment.line excess_segment))
            else ret None) ;;
         rule_id <- key "rule_id" (Rule.rule_id rule) ;;
         severity <- key "severity" (Rule.severity rule) ;;
         add_error rule_id severity
           (Py.fmt_opt segment_id ++ " appears too many times (found "
              ++ Py.str_Z count ++ ", max " ++ Py.str_Z max_occurrences ++ ")")
           segment_id line_number None
           (Some ("max " ++ Py.str_Z max_occurrences))
           (Some (Py.str_Z count)) [])
  | None => ret tt
  end.

Definition validate (parsed_edi : Document.t) (rules : list Rule.t)
  : M unit :=
  let segments := Document.segments parsed_edi in
  for_each rules (validate_rule segments).

End RequiredSegmentValidator.

(** [re.match(pattern, value)]: whether there is a match, or the error the
    engine raises on a pattern it cannot compile. The regular-expression
    engine is the interpreter's; the element evaluator takes it as an
    argument. *)
Definition regex_engine : Type := string -> string -> exn + bool.

Module ElementValidator.

Definition _check_conditional (segment : Segment.t)
           (conditional : Conditional.t) : exn + bool :=
  let if_element := Conditional.if_element conditional in
  let equals := Conditional.equals conditional in
  match if_element with
  | Some v =>
      if jnum_truthy v then
        let elements := Segment.elements segment in
        match py_int v with
        | inl e => inl e
        | inr if_element_pos =>
            if if_element_pos <? Py.len elements then
              match item elements if_element_pos with
              | inl e => inl e
              | inr x => inr (Py.opt_eqb equals (Py.strip x))
              end
            else inr false
        end
      else inr false
  | None => inr false
  end.

Definition is_true (o : option bool) : bool :=
  match o with Some b => b | None => false end.

Definition _validate_element_value (re_match : regex_engine)
           (rule : Rule.t) (segment : Segment.t) (position : Z)
           (value : string) (validations : Validations.t) : M unit :=
  let segment_id := Segment.segment_id segment in
  let line_number := Some (Segment.line segment) in
  let required := is_true (Validations.required validations) in
  if required && negb (Py.truthy value) then
    rule_id <- key "rule_id" (Rule.rule_id rule) ;;
    severity <- key "severity" (Rule.severity rule) ;;
    add_error rule_id severity
      (segment_id ++ Py.fmt02 position ++ " is required but empty")
      (Some segment_id) line_number (Some position) None (Some value) []
  else if negb (Py.truthy value) && negb required then
    ret tt
  else
    let min_length := Validations.min_length validations in
    let max_length := Validations.max_length validations in
    match min_length with
    | Some min_length =>
        when (negb (min_length =? 0) && (Py.str_len value <? min_length))
          (rule_id <- key "rule_id" (Rule.rule_id rule) ;;
           severity <- key "severity" (Rule.severity rule) ;;
           add_error rule_id severity
             (segment_id ++ Py.fmt02 position ++ " is too short (min "
                ++ Py.str_Z min_length ++ ", got "
                ++ Py.str_Z (Py.str_len value) ++ ")")
             (Some segment_id) line_number (Some position)
             (Some ("min length " ++ Py.str_Z min_length)) (Some value) [])
    | None => ret tt
    end ;;
    match max_length with
    | Some max_length =>
        when (negb (max_length =? 0) && (Py.str_len value >? max_length))
          (rule_id <- key "rule_id" (Rule.rule_id rule) ;;
           severity <- key "severity" (Rule.severity rule) ;;
           add_error rule_id severity
             (segment_id ++ Py.fmt02 position ++ " is too long (max "
                ++ Py.str_Z max_length ++ ", got "
                ++ Py.str_Z (Py.str_len value) ++ ")")
             (Some segment_id) line_number (Some position)
             (Some ("max length " ++ Py.str_Z max_length)) (Some value) [])
    | None => ret tt
    end ;;
    match Validations.allowed_values validations with
    | Some (_ :: _ as allowed_values) =>
        when (negb (existsb (String.eqb value) allowed_values))
          (rule_id <- key "rule_id" (Rule.rule_id rule) ;;
           severity <- key "severity" (Rule.severity rule) ;;
           add_error rule_id severity
             (segment_id ++ Py.fmt02 position ++ " has invalid value '"
                ++ value ++ "' (allowed: "
                ++ Py.join ", " (firstn 5 allowed_values) ++ "...)")
             (Some segment_id) line_number (Some position)
             (Some ("one of " ++ Py.repr_list (firstn 5 allowed_values)))
             (Some value) [])
    | _ => ret tt
    end ;;
    match Validations.regex validations with
    | Some regex =>
        if Py.truthy regex then
          matched <- lift (re_match regex value) ;;
          when (negb matched)
            (rule_id <- key "rule_id" (Rule.rule_id rule) ;;
             severity <- key "severity" (Rule.severity rule) ;;
             add_error rule_id severity
               (segment_id ++ Py.fmt02 position
                  ++ " does not match required pattern (value: '"
                  ++ value ++ "')")
               (Some segment_id) line_number (Some position)
               (Some ("pattern: " ++ regex)) (Some value) [])
        else ret tt
    | None => ret tt
    end.

(** The body of [for segment in matching_segments]. *)
Definition validate_segment (re_match : regex_engine) (rule : Rule.t)
           (element_position : Z) (segment : Segment.t) : M unit :=
  let segment_id := Rule.segment_id rule in
  let validations := Rule.validations rule in
  let conditional := Rule.conditional rule in
  applies <-
    (if Conditional.truthy conditional
     then lift (_check_conditional segment conditional)
     else ret true) ;;
  if negb applies then ret tt
  else
    let elements := Segment.elements segment in
    if element_position >=? Py.len elements then
      when (is_true (Validations.required validations))
        (rule_id <- key "rule_id" (Rule.rule_id rule) ;;
         severity <- key "severity" (Rule.severity rule) ;;
         add_error rule_id severity
           (Py.fmt_opt segment_id ++ Py.fmt02 element_position
              ++ " is required but missing")
           segment_id (Some (Segment.line segment)) (Some element_position)
           None None [])
    else
      element <- lift (item elements element_position) ;;
      let element_value := Py.strip element in
      _validate_element_value re_match rule segment element_position
                              element_value validations.

(** The body of [for rule in rules]. *)
Definition validate_rule (re_match : regex_engine)
           (segments : list Segment.t) (rule : Rule.t) : M unit :=
  let segment_id := Rule.segment_id rule in
  element_position <- lift (py_int_default0 (Rule.element_position rule)) ;;
  let matching_segments := segments_with_id segments segment_id in
  for_each matching_segments (validate_segment re_match rule element_position).

Definition validate (re_match : regex_engine) (parsed_edi : Document.t)
           (rules : list Rule.t) : M unit :=
  let segments := Document.segments parsed_edi in
  for_each rules (validate_rule re_match segments).

End ElementValidator.

Module ConditionalRuleValidator.

(** The segments collected by the [within_loop] scan of
    [_check_then_clause]: [loop_segments] is what has been collected so
    far, [all_segments] what is left to visit. *)
Fixpoint loop_scan (within_loop : string) (trigger_line : Z)
         (all_segments loop_segments : list Segment.t) : list Segment.t :=
  match all_segments with
  | [] => loop_segments
  | seg :: rest =>
      if Segment.line seg >? trigger_line then
        if String.eqb (Segment.segment_id seg) within_loop then
          loop_segments
        else
          let loop_segments := (loop_segments ++ [seg])%list in
          if Py.len loop_segments >? 10 then loop_segments
          else loop_scan within_loop trigger_line rest loop_segments
      else loop_scan within_loop trigger_line rest loop_segments
  end.

(** The segments searched for the required segment ids. *)
Definition loop_segments_of (within_loop : option string)
           (trigger_segment : Segment.t) (all_segments : list Segment.t)
  : list Segment.t :=
  match within_loop with
  | Some w =>
      if Py.truthy w
      then loop_scan w (Segment.line trigger_segment) all_segments []
      else all_segments
  | None => all_segments
  end.

(** [message_override or default] *)
Definition message_or (message_override : option string) (default : string)
  : string :=
  match message_override with
  | Some m => if Py.truthy m then m else default
  | None => default
  end.

Definition _check_then_clause (rule : Rule.t) (trigger_segment : Segment.t)
           (all_segments : list Segment.t) (then_clause : ThenClause.t)
  : M unit :=
  let required_segments := ThenClause.required_segments then_clause in
  let within_loop := ThenClause.within_loop then_clause in
  let required_element := ThenClause.required_element then_clause in
  let message_override := ThenClause.message then_clause in
  match required_segments with
  | [] => ret tt
  | _ =>
      let trigger_line := Segment.line trigger_segment in
      let loop_segments :=
        loop_segments_of within_loop trigger_segment all_segments in
      for_each required_segments
        (fun req_seg_id =>
           let found :=
             existsb (fun s => String.eqb (Segment.segment_id s) req_seg_id)
                     loop_segments in
           when (negb found)
             (let message :=
                message_or message_override
                  (req_seg_id ++ " is required when "
                     ++ Segment.segment_id trigger_segment ++ " is present") in
              rule_id <- key "rule_id" (Rule.rule_id rule) ;;
              severity <- key "severity" (Rule.severity rule) ;;
              add_error rule_id severity message
                (Some (Segment.segment_id trigger_segment))
                (Some trigger_line) None None None
                [("expected_segment", req_seg_id)]))
  end ;;
  match required_element with
  | Some required_element =>
      if RequiredElement.truthy required_element then
        let req_seg_id := RequiredElement.segment required_element in
        req_elem_pos <-
          lift (py_int_default0 (RequiredElement.element required_element)) ;;
        if Py.opt_eqb req_seg_id (Segment.segment_id trigger_segment) then
          let elements := Segment.elements trigger_segment in
          missing <-
            (if req_elem_pos >=? Py.len elements then ret true
             else
               e <- lift (item elements req_elem_pos) ;;
               ret (negb (Py.truthy (Py.strip e)))) ;;
          when missing
            (let message :=
               message_or message_override
                 (Py.fmt_opt req_seg_id ++ Py.fmt02 req_elem_pos
                    ++ " is required") in
             rule_id <- key "rule_id" (Rule.rule_id rule) ;;
             severity <- key "severity" (Rule.severity rule) ;;
             add_error rule_id severity message req_seg_id
               (Some (Segment.line trigger_segment)) (Some req_elem_pos)
               None None [])
        else ret tt
      else ret tt
  | None => ret tt
  end.

(** The body of [for segment in segments]. *)
Definition validate_segment (rule : Rule.t) (segments : list Segment.t)
           (segment : Segment.t) : M unit :=
  let condition := Rule.condition rule in
  let then_clause := Rule.then_clause rule in
  let if_segment_id := Condition.if_segment condition in
  let if_element := Condition.if_element condition in
  let if_value := Condition.if_value condition in
  let if_value_exists := Condition.if_value_exists condition in
  if negb (Py.opt_eqb if_segment_id (Segment.segment_id segment)) then ret tt
  else
    let elements := Segment.elements segment in
    if_element_pos <-
      match if_element with
      | Some v =>
          if jnum_truthy v then
            p <- lift (py_int v) ;; ret (Some p)
          else ret None
      | None => ret None
      end ;;
    condition_met <-
      match if_element_pos with
      | Some if_element_pos =>
          if if_element_pos <? Py.len elements then
            e <- lift (item elements if_element_pos) ;;
            let element_value := Py.strip e in
            if Py.opt_truthy if_value && Py.opt_eqb if_value element_value
            then ret true
            else if ElementValidator.is_true if_value_exists
                    && Py.truthy element_value
            then ret true
            else ret false
          else ret false
      | None => ret false
      end ;;
    when condition_met
      (_check_then_clause rule segment segments then_clause).

Definition validate (parsed_edi : Document.t) (rules : list Rule.t)
  : M unit :=
  let segments := Document.segments parsed_edi in
  for_each rules
    (fun rule => for_each segments (validate_segment rule segments)).

End ConditionalRuleValidator.

Module CrossSegmentValidator.

(** The body of [for target_seg in target_segments] of
    [_validate_count_match]. Only [ValueError] is handled there, and
    nothing inside the [try] raises it but [int(declared_count)]. *)
Definition count_match_segment (rule : Rule.t) (logic : ValidationLogic.t)
           (source_count target_element : Z) (target_seg : Segment.t)
  : M unit :=
  let target_segment_id := ValidationLogic.target_segment logic in
  let elements := Segment.elements target_seg in
  if target_element <? Py.len elements then
    e <- lift (item elements target_element) ;;
    let declared_count := Py.strip e in
    match Py.int_str declared_count with
    | Some declared_count_int =>
        when (negb (declared_count_int =? source_count))
          (let message :=
             ConditionalRuleValidator.message_or
               (ValidationLogic.message logic)
               (Py.fmt_opt target_segment_id ++ Py.fmt02 target_element
                  ++ " count mismatch") in
           rule_id <- key "rule_id" (Rule.rule_id rule) ;;
           severity <- key "severity" (Rule.severity rule) ;;
           add_error rule_id severity message target_segment_id
             (Some (Segment.line target_seg)) (Some target_element)
             (Some (Py.str_Z source_count)) (Some declared_count) [])
    | None =>
        rule_id <- key "rule_id" (Rule.rule_id rule) ;;
        severity <- key "severity" (Rule.severity rule) ;;
        add_error rule_id severity
          (Py.fmt_opt target_segment_id ++ Py.fmt02 target_element
             ++ " contains invalid count value")
          target_segment_id (Some (Segment.line target_seg))
          (Some target_element) None (Some declared_count) []
    end
  else ret tt.

Definition _validate_count_match (rule : Rule.t)
           (segments : list Segment.t) (logic : ValidationLogic.t)
  : M unit :=
  let source_segment_id := ValidationLogic.source_segment logic in
  let target_segment_id := ValidationLogic.target_segment logic in
  target_element <-
    lift (py_int_default0 (ValidationLogic.target_element logic)) ;;
  let source_count := Py.len (segments_with_id segments source_segment_id) in
  let target_segments := segments_with_id segments target_segment_id in
  for_each target_segments
    (count_match_segment rule logic source_count target_element).

(** The body of [for seg1, seg2 in zip(seg1_list, seg2_list)]. *)
Definition element_match_step (rule : Rule.t)
           (seg1_id seg2_id : option string) (elem1_pos elem2_pos : Z)
           (seg12 : Segment.t * Segment.t) : M unit :=
  let (seg1, seg2) := seg12 in
  let elem1 := Segment.elements seg1 in
  let elem2 := Segment.elements seg2 in
  if (elem1_pos <? Py.len elem1) && (elem2_pos <? Py.len elem2) then
    e1 <- lift (item elem1 elem1_pos) ;;
    let val1 := Py.strip e1 in
    e2 <- lift (item elem2 elem2_pos) ;;
    let val2 := Py.strip e2 in
    when (negb (String.eqb val1 val2))
      (rule_id <- key "rule_id" (Rule.rule_id rule) ;;
       severity <- key "severity" (Rule.severity rule) ;;
       add_error rule_id severity
         (Py.fmt_opt seg1_id ++ Py.fmt02 elem1_pos ++ " and "
            ++ Py.fmt_opt seg2_id ++ Py.fmt02 elem2_pos ++ " must match")
         seg2_id (Some (Segment.line seg2)) (Some elem2_pos)
         (Some val1) (Some val2) [])
  else ret tt.

(** The body of [for pair in match_pairs]. *)
Definition element_match_pair (rule : Rule.t) (segments : list Segment.t)
           (pair : MatchPair.t) : M unit :=
  let seg1_id := MatchPair.segment_1 pair in
  elem1_pos <- lift (py_int_default0 (MatchPair.element_1 pair)) ;;
  let seg2_id := MatchPair.segment_2 pair in
  elem2_pos <- lift (py_int_default0 (MatchPair.element_2 pair)) ;;
  let seg1_list := segments_with_id segments seg1_id in
  let seg2_list := segments_with_id segments seg2_id in
  for_each (combine seg1_list seg2_list)
    (element_match_step rule seg1_id seg2_id elem1_pos elem2_pos).

Definition _validate_element_match (rule : Rule.t)
           (segments : list Segment.t) (logic : ValidationLogic.t)
  : M unit :=
  let match_pairs := ValidationLogic.match_pairs logic in
  for_each match_pairs (element_match_pair rule segments).

(** The search loop of [_validate_element_value_exists]: it stops at the
    first segment that carries the value. *)
Fixpoint value_exists (segments : list Segment.t)
         (segment_id : option string) (element_position : Z)
         (required_value : option string) : exn + bool :=
  match segments with
  | [] => inr false
  | segment :: rest =>
      if Py.opt_eqb segment_id (Segment.segment_id segment) then
        let elements := Segment.elements segment in
        if element_position <? Py.len elements then
          match item elements element_position with
          | inl e => inl e
          | inr x =>
              if Py.opt_eqb required_value (Py.strip x) then inr true
              else value_exists rest segment_id element_position
                                required_value
          end
        else value_exists rest segment_id element_position required_value
      else value_exists rest segment_id element_position required_value
  end.

Definition _validate_element_value_exists (rule : Rule.t)
           (segments : list Segment.t) (logic : ValidationLogic.t)
  : M unit :=
  let segment_id := ValidationLogic.segment_id logic in
  element_position <-
    lift (py_int_default0 (ValidationLogic.element_position logic)) ;;
  let required_value := ValidationLogic.required_value logic in
  found <-
    lift (value_exists segments segment_id element_position required_value) ;;
  when (negb found)
    (let message :=
       ConditionalRuleValidator.message_or
         (ValidationLogic.message logic)
         ("No " ++ Py.fmt_opt segment_id ++ " segment with "
            ++ Py.fmt_opt segment_id ++ Py.fmt02 element_position ++ "="
            ++ Py.fmt_opt required_value ++ " found") in
     rule_id <- key "rule_id" (Rule.rule_id rule) ;;
     severity <- key "severity" (Rule.severity rule) ;;
     add_error rule_id severity message segment_id None None
       required_value None []).

(** The body of [for rule in rules]. *)
Definition validate_rule (segments : list Segment.t) (rule : Rule.t)
  : M unit :=
  let validation_logic := Rule.validation_logic rule in
  let validation_type := ValidationLogic.type validation_logic in
  if Py.opt_eqb validation_type "count_match" then
    _validate_count_match rule segments validation_logic
  else if Py.opt_eqb validation_type "element_match" then
    _validate_element_match rule segments validation_logic
  else if Py.opt_eqb validation_type "element_value_exists" then
    _validate_element_value_exists rule segments validation_logic
  else ret tt.

Definition validate (parsed_edi : Document.t) (rules : list Rule.t)
  : M unit :=
  let segments := Document.segments parsed_edi in
  for_each rules (validate_rule segments).

End CrossSegmentValidator.

(* ===================================================================== *)
(** ** validator/validation_engine.py *)
(* ===================================================================== *)

(** [class ValidationResult]. The wall-clock duration is the difference of
    two clock readings handed to [validate]; the creation timestamp is left
    out. *)
Module ValidationResult.
Record t : Type := mk {
  error_collector : ErrorCollector.t;
  parsed_edi : Document.t;
  rules : RuleSet.t;
  validation_time : Z
}.

Definition is_compliant (self : t) : bool :=
  negb (ErrorCollector.has_errors (error_collector self)).

Definition error_count (self : t) : Z :=
  Py.len (ErrorCollector.errors (error_collector self)).

Definition warning_count (self : t) : Z :=
  Py.len (ErrorCollector.warnings (error_collector self)).

Definition total_issues (self : t) : Z :=
  ErrorCollector.len (error_collector self).

Definition get_all_issues (self : t) : list Issue.t :=
  ErrorCollector.get_all_errors (error_collector self).

Definition get_errors (self : t) : list Issue.t :=
  ErrorCollector.errors (error_collector self).

Definition get_warnings (self : t) : list Issue.t :=
  ErrorCollector.warnings (error_collector self).
End ValidationResult.

Module ValidationEngine.

(** What every evaluator offers: [validator.validate(parsed_edi, rules)]. *)
Definition validator : Type := Document.t -> list Rule.t -> M unit.

(** The issue recorded for an exception caught at a category boundary. *)
Definition system_error (self : ErrorCollector.t) (category_name : string)
           (e : exn) : ErrorCollector.t :=
  ErrorCollector.add_error self "SYSTEM_ERROR" "ERROR"
    ("System error during " ++ category_name ++ " validation: " ++ str_exn e)
    None None None None None [].

(** [_validate_category]: the collector after the category has run. The
    [try] block catches every exception of the evaluator. *)
Definition _validate_category (validate : validator)
           (parsed_edi : Document.t) (rules : list Rule.t)
           (category_name : string) (self : ErrorCollector.t)
  : ErrorCollector.t :=
  match rules with
  | [] => self
  | _ =>
      match validate parsed_edi rules self with
      | (collector, inr _) => collector
      | (collector, inl e) => system_error collector category_name e
      end
  end.

(** [validate]; [start_time] and [end_time] are the two readings of the
    clock. The [retailer] argument only feeds the log, which is left
    out. *)
Definition validate (re_match : regex_engine) (start_time end_time : Z)
           (parsed_edi : Document.t) (rules : RuleSet.t)
  : ValidationResult.t :=
  let error_collector := ErrorCollector.new in
  let error_collector :=
    _validate_category RequiredSegmentValidator.validate parsed_edi
      (RuleSet.required_segments rules) "Required Segments" error_collector in
  let error_collector :=
    _validate_category (ElementValidator.validate re_match) parsed_edi
      (RuleSet.element_rules rules) "Element Rules" error_collector in
  let error_collector :=
    _validate_category ConditionalRuleValidator.validate parsed_edi
      (RuleSet.conditional_rules rules) "Conditional Rules" error_collector in
  let error_collector :=
    _validate_category CrossSegmentValidator.validate parsed_edi
      (RuleSet.cross_segment_rules rules) "Cross-Segment Rules"
      error_collector in
  let validation_time := end_time - start_time in
  ValidationResult.mk error_collector parsed_edi rules validation_time.

End ValidationEngine.

(* ===================================================================== *)
(** ** parser/segment_utils.py: the functions on lists of segment strings *)
(* ===================================================================== *)

(** The dictionary built by [parse_segment_to_dict]; [find_segments_by_id]
    adds the key [index]. *)
Module SegmentDict.
Record t : Type := mk {
  segment_id : string;
  elements : list string;
  index : option Z
}.
End SegmentDict.

Definition parse_segment_to_dict (segment : string) : SegmentDict.t :=
  let elements := split_elements segment in
  SegmentDict.mk
    (match elements with e :: _ => e | [] => EmptyString end)
    elements None.

Definition count_segment_occurrences (segments : list string)
           (segment_id : string) : Z :=
  fold_left
    (fun count segment =>
       if String.eqb (get_segment_id segment) segment_id then count + 1
       else count)
    segments 0.

(** The loop of [find_segments_by_id] over [enumerate(segments)], from
    index [idx]. *)
Fixpoint find_segments_from (idx : Z) (segments : list string)
         (segment_id : string) : list SegmentDict.t :=
  match segments with
  | [] => []
  | segment :: rest =>
      if String.eqb (get_segment_id segment) segment_id then
        let parsed := parse_segment_to_dict segment in
        SegmentDict.mk (SegmentDict.segment_id parsed)
                       (SegmentDict.elements parsed) (Some idx)
          :: find_segments_from (idx + 1) rest segment_id
      else find_segments_from (idx + 1) rest segment_id
  end.

Definition find_segments_by_id (segments : list string) (segment_id : string)
  : list SegmentDict.t :=
  find_segments_from 0 segments segment_id.

(* ===================================================================== *)
(** ** parser/edi_parser.py: the queries on a parsed document *)
(* ===================================================================== *)

(** The queries read the attribute [parsed_data]: the empty dictionary
    ([None]) until a text has been parsed, the parsed document after. *)
Module EDIParser.

Definition get_segments_by_id (parsed_data : option Document.t)
           (segment_id : string) : list Segment.t :=
  match parsed_data with
  | None => []
  | Some d =>
      filter (fun seg => String.eqb (Segment.segment_id seg) segment_id)
             (Document.segments d)
  end.

(** [EDIParser.get_element_value]: the value, or the [IndexError] of a
    negative index out of range. *)
Definition get_element_value (parsed_data : option Document.t)
           (segment_id : string) (element_position occurrence : Z)
           (default : string) : exn + string :=
  let segments := get_segments_by_id parsed_data segment_id in
  if occurrence <? Py.len segments then
    match item segments occurrence with
    | inl e => inl e
    | inr segment =>
        let elements := Segment.elements segment in
        if element_position <? Py.len elements then
          match item elements element_position with
          | inl e => inl e
          | inr x =>
              let value := Py.strip x in
              inr (if Py.truthy value then value else default)
          end
        else inr default
    end
  else inr default.

End EDIParser.

(* ===================================================================== *)
(** ** rules/rule_loader.py: loading the tiers *)
(* ===================================================================== *)

(** The rule files of [config/settings.py]. *)
Inductive rule_file : Type :=
| X12_CORE_RULES
| DOC_850_RULES
| DOC_856_RULES
| DOC_810_RULES
| WALMART_RULES
| AMAZON_RULES
| TARGET_RULES.

(** What loading can raise: the two errors of [_load_json_file], or an
    exception of the loader's own code. *)
Inductive load_exn : Type :=
| FileNotFoundError (file : rule_file)
| JSONDecodeError (file : rule_file)
| Raised (e : exn).

(** [_load_json_file]: reading and decoding a rule file is the file
    system's and the JSON decoder's; the loader takes it as an argument. *)
Definition json_loader : Type := rule_file -> load_exn + Tier.t.

Module RuleLoader.

(** The attributes of a loader. [merged_rules] is the empty dictionary
    ([None]) until a merge has succeeded. *)
Record t : Type := mk {
  core_rules : Tier.t;
  document_rules : Tier.t;
  retailer_rules : Tier.t;
  merged_rules : option RuleSet.t
}.

(** [RuleLoader()] *)
Definition new : t := mk Tier.empty Tier.empty Tier.empty None.

Definition load_core_rules (_load_json_file : json_loader) (self : t)
  : t * (load_exn + Tier.t) :=
  match _load_json_file X12_CORE_RULES with
  | inl e => (self, inl e)
  | inr data =>
      (mk data (document_rules self) (retailer_rules self)
          (merged_rules self),
       inr data)
  end.

(** [rule_file_map] of [load_document_rules]. *)
Definition document_rule_file (doc_type : string) : option rule_file :=
  if String.eqb doc_type "850" then Some DOC_850_RULES
  else if String.eqb doc_type "856" then Some DOC_856_RULES
  else if String.eqb doc_type "810" then Some DOC_810_RULES
  else None.

Definition load_document_rules (_load_json_file : json_loader)
           (doc_type : string) (self : t) : t * (load_exn + Tier.t) :=
  let doc_type := Py.strip doc_type in
  match document_rule_file doc_type with
  | None =>
      (self,
       inl (Raised (ValueError
                      ("Unsupported document type: " ++ doc_type
                         ++ ". Supported types: "
                         ++ Py.repr_list ["850"; "856"; "810"]))))
  | Some rule_file =>
      match _load_json_file rule_file with
      | inl e => (self, inl e)
      | inr data =>
          (mk (core_rules self) data (retailer_rules self)
              (merged_rules self),
           inr data)
      end
  end.

(** [retailer_file_map] of [load_retailer_rules]. *)
Definition retailer_rule_file (retailer : string) : option rule_file :=
  if String.eqb retailer "walmart" then Some WALMART_RULES
  else if String.eqb retailer "amazon" then Some AMAZON_RULES
  else if String.eqb retailer "target" then Some TARGET_RULES
  else None.

Definition load_retailer_rules (_load_json_file : json_loader)
           (retailer : string) (self : t) : t * (load_exn + Tier.t) :=
  let retailer := Py.strip (Py.lower retailer) in
  match retailer_rule_file retailer with
  | None =>
      (self,
       inl (Raised (ValueError
                      ("Unsupported retailer: " ++ retailer
                         ++ ". Supported retailers: "
                         ++ Py.repr_list ["walmart"; "amazon"; "target"]))))
  | Some rule_file =>
      match _load_json_file rule_file with
      | inl e => (self, inl e)
      | inr data =>
          (mk (core_rules self) (document_rules self) data
              (merged_rules self),
           inr data)
      end
  end.

(** [load_rules]: the loader afterwards, and the merged ruleset or the
    exception raised. *)
Definition load_rules (_load_json_file : json_loader) (doc_type : string)
           (retailer : option string) (self : t)
  : t * (load_exn + RuleSet.t) :=
  match load_core_rules _load_json_file self with
  | (self, inl e) => (self, inl e)
  | (self, inr core) =>
      match load_document_rules _load_json_file doc_type self with
      | (self, inl e) => (self, inl e)
      | (self, inr doc) =>
          match
            (match retailer with
             | Some r =>
                 if Py.truthy r
                 then load_retailer_rules _load_json_file r self
                 else (self, inr Tier.empty)
             | None => (self, inr Tier.empty)
             end)
          with
          | (self, inl e) => (self, inl e)
          | (self, inr ret) =>
              match _merge_rulesets core doc ret doc_type retailer with
              | inl e => (self, inl (Raised e))
              | inr merged =>
                  (mk (core_rules self) (document_rules self)
                      (retailer_rules self) (Some merged),
                   inr merged)
              end
          end
      end
  end.

Definition get_rules_by_segment (self : t) (segment_id : string)
  : list Rule.t :=
  match merged_rules self with
  | None => []
  | Some merged =>
      (filter (fun rule => Py.opt_eqb (Rule.segment_id rule) segment_id)
              (RuleSet.required_segments merged)
       ++ filter (fun rule => Py.opt_eqb (Rule.segment_id rule) segment_id)
                 (RuleSet.element_rules merged)
       ++ filter (fun rule =>
                    Py.opt_eqb (Condition.if_segment (Rule.condition rule))
                               segment_id)
                 (RuleSet.conditional_rules merged))%list
  end.

End RuleLoader.

(* ===================================================================== *)
(** ** Vocabulary of the statements *)
(* ===================================================================== *)

(** Every character of the text is white space. *)
Definition whitespace_only (text : string) : Prop :=
  Forall (fun c => Py.is_space c = true) (list_ascii_of_string text).

(** The string does not hold the separator. *)
Definition separator_free (sep : ascii) (field : string) : Prop :=
  Py.contains_char sep field = false.

(** One call of [add_error] per entry of [issues], the entry giving the
    arguments of the call. *)
Definition add_issues (self : ErrorCollector.t) (issues : list Issue.t)
  : ErrorCollector.t :=
  fold_left
    (fun c i =>
       ErrorCollector.add_error c (Issue.rule_id i) (Issue.severity i)
         (Issue.message i) (Issue.segment_id i) (Issue.line_number i)
         (Issue.element_position i) (Issue.expected_value i)
         (Issue.actual_value i) (Issue.context i))
    issues self.

(** The same validation result around another collector. *)
Definition with_collector (r : ValidationResult.t) (c : ErrorCollector.t)
  : ValidationResult.t :=
  ValidationResult.mk c (ValidationResult.parsed_edi r)
                      (ValidationResult.rules r)
                      (ValidationResult.validation_time r).

(** The rule carries the id [k], and the id is one the merge accepts
    ([if rule_id:]). *)
Definition has_id (rule : Rule.t) (k : string) : bool :=
  match Rule.rule_id rule with
  | Some rule_id => Py.truthy rule_id && String.eqb rule_id k
  | None => false
  end.

(** The last rule of a tier's list that carries the id [k]. *)
Fixpoint last_rule (k : string) (rules : list Rule.t) : option Rule.t :=
  match rules with
  | [] => None
  | rule :: rest =>
      match last_rule k rest with
      | Some later => Some later
      | None => if has_id rule k then Some rule else None
      end
  end.

(** Every entry of the dictionary is stored under the id of its rule. *)
Definition well_keyed (d : list (string * Rule.t)) : Prop :=
  Forall (fun kv => has_id (snd kv) (fst kv) = true) d.

(** The tier with the list of one category replaced. *)
Definition tier_with (x : Tier.t) (c : category) (rules : list Rule.t)
  : Tier.t :=
  match c with
  | required_segments =>
      Tier.mk (Tier.ruleset_info x) (Some rules) (Tier.element_rules x)
        (Tier.conditional_rules x) (Tier.cross_segment_rules x)
        (Tier.overrides x) (Tier.segment_sequences x) (Tier.business_rules x)
  | element_rules =>
      Tier.mk (Tier.ruleset_info x) (Tier.required_segments x) (Some rules)
        (Tier.conditional_rules x) (Tier.cross_segment_rules x)
        (Tier.overrides x) (Tier.segment_sequences x) (Tier.business_rules x)
  | conditional_rules =>
      Tier.mk (Tier.ruleset_info x) (Tier.required_segments x)
        (Tier.element_rules x) (Some rules) (Tier.cross_segment_rules x)
        (Tier.overrides x) (Tier.segment_sequences x) (Tier.business_rules x)
  | cross_segment_rules =>
      Tier.mk (Tier.ruleset_info x) (Tier.required_segments x)
        (Tier.element_rules x) (Tier.conditional_rules x) (Some rules)
        (Tier.overrides x) (Tier.segment_sequences x) (Tier.business_rules x)
  end.

(** The parsed document of a text that parses; the document without
    segments for a text that is rejected. *)
Definition document_of (edi_text : string) : Document.t :=
  match parse_text edi_text with
  | inr d => d
  | inl _ =>
      Document.mk
        (Metadata.mk "" "" "" "" "" ""
           {| interchange_control := ""; group_control := "";
              transaction_control := "" |} "")
        [] (Statistics.mk 0 [] false)
  end.

(** A conditional rule: when an [N1] segment names a ship-to party, an [N3]
    segment is required within the [N1] loop. *)
Definition n1_requires_n3 : Rule.t :=
  Rule.mk (Some "COND_N1_N3") (Some "ERROR") (Some "N3 required for ship-to")
    [] None None None [] None Validations.empty Conditional.empty
    (Condition.mk (Some "N1") (Some (JInt 1)) (Some "ST") None)
    (ThenClause.mk ["N3"] (Some "N1") None None)
    ValidationLogic.empty.

(** An [N1] segment followed by ten [REF] segments and then, as the
    eleventh segment after it, the [N3] segment. *)
Definition n3_eleventh_after_n1 : string :=
  "N1*ST*ACME~REF*1~REF*2~REF*3~REF*4~REF*5~REF*6~REF*7~REF*8~REF*9~REF*10~N3*1 MAIN ST~".

(** The evaluator of a category and the name [validate] gives it. *)
Definition validator_of (re_match : regex_engine) (c : category)
  : ValidationEngine.validator :=
  match c with
  | required_segments => RequiredSegmentValidator.validate
  | element_rules => ElementValidator.validate re_match
  | conditional_rules => ConditionalRuleValidator.validate
  | cross_segment_rules => CrossSegmentValidator.validate
  end.

Definition category_name (c : category) : string :=
  match c with
  | required_segments => "Required Segments"
  | element_rules => "Element Rules"
  | conditional_rules => "Conditional Rules"
  | cross_segment_rules => "Cross-Segment Rules"
  end.

(** One of the four calls of [_validate_category] in [validate]. *)
Definition run_category (re_match : regex_engine) (parsed_edi : Document.t)
           (rules : RuleSet.t) (c : category) (self : ErrorCollector.t)
  : ErrorCollector.t :=
  ValidationEngine._validate_category (validator_of re_match c) parsed_edi
    (ruleset_get rules c) (category_name c) self.

(** The issue recorded for an exception caught at a category boundary. *)
Definition system_issue (category_name : string) (e : exn) : Issue.t :=
  Issue.mk "SYSTEM_ERROR" "ERROR"
    ("System error during " ++ category_name ++ " validation: " ++ str_exn e)
    None None None None None [].

(** A regular-expression engine for the examples: every value matches. *)
Definition match_all : regex_engine := fun _ _ => inr true.

(** A required-segment rule without a [rule_id]: reporting its violation
    raises [KeyError]. *)
Definition n1_required_no_id : Rule.t :=
  Rule.mk None (Some "ERROR") (Some "N1 segment is required") []
    (Some "N1") (Some 1) None [] None Validations.empty Conditional.empty
    Condition.empty ThenClause.empty ValidationLogic.empty.

(** An element rule: [BEG03] is required. *)
Definition beg03_required : Rule.t :=
  Rule.mk (Some "ELEM_BEG03") (Some "ERROR") (Some "PO number is required") []
    (Some "BEG") None None [] (Some (JInt 3))
    (Validations.mk (Some true) None None None None) Conditional.empty
    Condition.empty ThenClause.empty ValidationLogic.empty.

Definition ruleset_of (required element conditional cross : list Rule.t)
  : RuleSet.t :=
  RuleSet.mk (RulesetInfo.mk "Merged Ruleset: 850" "850" "none" [])
             required element conditional cross None None.

(** A count-match rule: [CTT01] declares the number of [PO1] segments. *)
Definition ctt_counts_po1 : Rule.t :=
  Rule.mk (Some "CROSS_CTT_PO1") (Some "ERROR")
    (Some "CTT01 must equal the number of PO1 segments") []
    None None None [] None Validations.empty Conditional.empty
    Condition.empty ThenClause.empty
    (ValidationLogic.mk (Some "count_match") (Some "PO1") (Some "CTT")
       (Some (JInt 1)) None [] None None None).

(** A required-segment rule: at least one [N1] segment. *)
Definition n1_required : Rule.t :=
  Rule.mk (Some "850_REQ_N1") (Some "ERROR") (Some "N1 segment is required")
    [] (Some "N1") (Some 1) None [] None Validations.empty Conditional.empty
    Condition.empty ThenClause.empty ValidationLogic.empty.

(** An element-match rule: [BEG03] and [REF02] must agree. *)
Definition beg03_matches_ref02 : Rule.t :=
  Rule.mk (Some "CROSS_BEG_REF") (Some "WARNING")
    (Some "BEG03 and REF02 must match") []
    None None None [] None Validations.empty Conditional.empty
    Condition.empty ThenClause.empty
    (ValidationLogic.mk (Some "element_match") None None None None
       [MatchPair.mk (Some "BEG") (Some (JInt 3)) (Some "REF") (Some (JInt 2))]
       None None None).

(** A retailer rule restricted to ship notices (document type 856). *)
Definition retailer_req_dtm_856 : Rule.t :=
  Rule.mk (Some "RET_REQ_DTM") (Some "ERROR") (Some "DTM segment is required")
    ["856"] (Some "DTM") (Some 1) None [] None Validations.empty
    Conditional.empty Condition.empty ThenClause.empty ValidationLogic.empty.

(** A document-tier rule with the same id, asking for less. *)
Definition doc_req_dtm : Rule.t :=
  Rule.mk (Some "RET_REQ_DTM") (Some "WARNING") (Some "DTM segment is advised")
    [] (Some "DTM") (Some 1) None [] None Validations.empty
    Conditional.empty Condition.empty ThenClause.empty ValidationLogic.empty.

Definition tier_of_required (rules : list Rule.t) : Tier.t :=
  Tier.mk true (Some rules) None None None None None None.

(** The characters of a string that are not white space, in order. *)
Fixpoint nonspace (s : string) : string :=
  match s with
  | EmptyString => EmptyString
  | String c s' =>
      if Py.is_space c then nonspace s' else String c (nonspace s')
  end.

(** Every character satisfies the test. *)
Fixpoint all_chars (p : ascii -> bool) (s : string) : bool :=
  match s with
  | EmptyString => true
  | String c s' => p c && all_chars p s'
  end.

(** White space or the segment terminator. *)
Definition space_or_terminator (c : ascii) : bool :=
  Py.is_space c || Ascii.eqb c SEGMENT_TERMINATOR.

(** [c'] holds the issues of [c], in order, and possibly more after
    them. *)
Definition extends (c c' : ErrorCollector.t) : Prop :=
  (exists more, ErrorCollector.errors c'
                = (ErrorCollector.errors c ++ more)%list)
  /\ (exists more, ErrorCollector.warnings c'
                   = (ErrorCollector.warnings c ++ more)%list)
  /\ (exists more, ErrorCollector.info c'
                   = (ErrorCollector.info c ++ more)%list).

(** The computation only appends to the collector, whether it returns or
    raises. *)
Definition appends_only {A : Type} (m : M A) : Prop :=
  forall c, extends c (fst (m c)).

(** The collector handed to the run of a category by [validate]. *)
Definition collector_before (re_match : regex_engine)
           (parsed_edi : Document.t) (rules : RuleSet.t) (c : category)
  : ErrorCollector.t :=
  let run := run_category re_match parsed_edi rules in
  match c with
  | required_segments => ErrorCollector.new
  | element_rules => run required_segments ErrorCollector.new
  | conditional_rules =>
      run element_rules (run required_segments ErrorCollector.new)
  | cross_segment_rules =>
      run conditional_rules
          (run element_rules (run required_segments ErrorCollector.new))
  end.

(** The string is empty or begins with a character that is not white
    space. *)
Definition starts_nonspace (s : string) : bool :=
  match s with
  | EmptyString => true
  | String c _ => negb (Py.is_space c)
  end.

(** The string is empty or ends with a character that is not white
    space. *)
Fixpoint ends_nonspace (s : string) : bool :=
  match s with
  | EmptyString => true
  | String c s' =>
      match s' with
      | EmptyString => negb (Py.is_space c)
      | String _ _ => ends_nonspace s'
      end
  end.

(** A non-empty string without white space at either end and without the
    character [sep]: what a segment string is. *)
Definition tidy (sep : ascii) (s : string) : Prop :=
  s <> EmptyString /\ Py.strip s = s /\ separator_free sep s.

(** The sum of the values of a dictionary of counts. *)
Definition total (d : list (string * Z)) : Z :=
  fold_right Z.add 0 (od_values d).

(** How many items of [xs] are counted under the key [k], where [key]
    gives the key an item is counted under, if any. *)
Definition occurrences {A : Type} (key : A -> option string) (k : string)
           (xs : list A) : Z :=
  Py.len (filter (fun x => Py.opt_eqb (key x) k) xs).

(** The key an issue is counted under in [by_segment]: its segment
    identifier, when it has a non-empty one. *)
Definition segment_key (error : Issue.t) : option string :=
  match Issue.segment_id error with
  | Some s => if Py.truthy s then Some s else None
  | None => None
  end.

(** The identifiers of a complete envelope. *)
Definition envelope_ids : list string :=
  ["ISA"; "GS"; "ST"; "SE"; "GE"; "IEA"].

(** The last segment string of the list with the given identifier. *)
Definition last_segment (segment_id : string) (segments : list string)
  : option string :=
  match
    rev (filter (fun s => String.eqb (get_segment_id s) segment_id) segments)
  with
  | s :: _ => Some s
  | [] => None
  end.

(** An element of the last segment with the given identifier, the empty
    string when there is no such segment or the element is blank. *)
Definition last_value (segment_id : string) (position : nat)
           (segments : list string) : string :=
  match last_segment segment_id segments with
  | Some s => get_element_value s position ""
  | None => ""
  end.

(** The override names the rule: it has a rule id and a type, both
    non-empty, and the id is the rule's. *)
Definition names (override : Override.t) (rule : Rule.t) : bool :=
  match Override.rule_id override, Override.override_type override with
  | Some k, Some ty =>
      Py.truthy k && Py.truthy ty && Py.opt_eqb (Rule.rule_id rule) k
  | _, _ => false
  end.

(** The override names the rule and is a severity escalation. *)
Definition escalates (override : Override.t) (rule : Rule.t) : bool :=
  names override rule
  && Py.opt_eqb (Override.override_type override) "severity_escalation".

(** The override names the rule and adds allowed values. *)
Definition adds_values (override : Override.t) (rule : Rule.t) : bool :=
  names override rule
  && Py.opt_eqb (Override.override_type override) "add_allowed_value".

(** The severity of the last escalation that names the rule; the rule's
    own severity when none does. *)
Definition final_severity (overrides : list Override.t) (rule : Rule.t)
  : option string :=
  fold_left
    (fun s override =>
       if escalates override rule then Override.new_severity override else s)
    overrides (Rule.severity rule).

(** The values of all the overrides that add allowed values to the rule,
    in the order of the overrides. *)
Definition added_values (overrides : list Override.t) (rule : Rule.t)
  : list string :=
  flat_map
    (fun override =>
       if adds_values override rule
       then Override.new_allowed_values override else [])
    overrides.

(** The validations with [extra] appended to [allowed_values], when the
    key is there. *)
Definition with_values (extra : list string) (v : Validations.t)
  : Validations.t :=
  Validations.mk (Validations.required v) (Validations.min_length v)
    (Validations.max_length v)
    (option_map (fun values => values ++ extra)%list
                (Validations.allowed_values v))
    (Validations.regex v).

(** The rule with another severity and more allowed values, and nothing
    else changed. *)
Definition overridden_as (s : option string) (extra : list string)
           (rule : Rule.t) : Rule.t :=
  Rule.mk (Rule.rule_id rule) s (Rule.description rule)
    (Rule.applies_to_doc_types rule) (Rule.segment_id rule)
    (Rule.min_occurrences rule) (Rule.max_occurrences rule)
    (Rule.element_filters rule) (Rule.element_position rule)
    (with_values extra (Rule.validations rule))
    (Rule.conditional rule) (Rule.condition rule) (Rule.then_clause rule)
    (Rule.validation_logic rule).

(** What a list of overrides makes of a rule. *)
Definition override_result (overrides : list Override.t) (rule : Rule.t)
  : Rule.t :=
  overridden_as (final_severity overrides rule)
                (added_values overrides rule) rule.

(** The rule that wins the merge of one category for the id [k]: the last
    retailer rule with the id that applies to the document type, else the
    last document rule, else the last core rule. *)
Definition winner (core doc ret : list Rule.t) (doc_type : string)
           (k : string) : option Rule.t :=
  match last_rule k (filter (fun rule => applies_to rule doc_type) ret) with
  | Some rule => Some rule
  | None =>
      match last_rule k doc with
      | Some rule => Some rule
      | None => last_rule k core
      end
  end.

(** The ids the merge accepts, in the order of the rules. *)
Definition accepted_ids (rules : list Rule.t) : list string :=
  flat_map
    (fun rule =>
       match Rule.rule_id rule with
       | Some k => if Py.truthy k then [k] else []
       | None => []
       end)
    rules.

(** The list without the later occurrences of an item. *)
Definition first_occurrences (l : list string) : list string :=
  rev (nodup string_dec (rev l)).

(** What one override makes of a rule. *)
Definition override_step (override : Override.t) (rule : Rule.t) : Rule.t :=
  overridden_as
    (if escalates override rule then Override.new_severity override
     else Rule.severity rule)
    (if adds_values override rule then Override.new_allowed_values override
     else [])
    rule.

(** The override escalates the rule's severity but has no
    [new_severity]. *)
Definition lacks_severity (override : Override.t) (rule : Rule.t) : bool :=
  escalates override rule
  && negb (Tier.is_some (Override.new_severity override)).

(** The rules of the four categories. *)
Definition all_rules (ruleset : RuleSet.t) : list Rule.t :=
  (RuleSet.required_segments ruleset ++ RuleSet.element_rules ruleset
   ++ RuleSet.conditional_rules ruleset
   ++ RuleSet.cross_segment_rules ruleset)%list.

(** The ruleset with [f] applied to every rule of the four categories. *)
Definition map_rules (f : Rule.t -> Rule.t) (ruleset : RuleSet.t)
  : RuleSet.t :=
  RuleSet.mk (RuleSet.ruleset_info ruleset)
    (map f (RuleSet.required_segments ruleset))
    (map f (RuleSet.element_rules ruleset))
    (map f (RuleSet.conditional_rules ruleset))
    (map f (RuleSet.cross_segment_rules ruleset))
    (RuleSet.segment_sequences ruleset) (RuleSet.business_rules ruleset).

(** [tier.get("overrides", [])] *)
Definition tier_overrides (x : Tier.t) : list Override.t :=
  match Tier.overrides x with Some l => l | None => [] end.

(** The rules a merged category is made from: the core rules, the document
    rules, and the retailer rules that apply to the document type. *)
Definition merge_input (core doc ret : Tier.t) (doc_type : string)
           (c : category) : list Rule.t :=
  (tier_get core c ++ tier_get doc c
   ++ filter (fun rule => applies_to rule doc_type) (tier_get ret c))%list.

(** An override that escalates the document rule [doc_req_dtm]. *)
Definition escalate_dtm : Override.t :=
  Override.mk (Some "RET_REQ_DTM") (Some "severity_escalation")
              (Some "ERROR") [].

(** The same override without its [new_severity]. *)
Definition escalate_dtm_unfinished : Override.t :=
  Override.mk (Some "RET_REQ_DTM") (Some "severity_escalation") None [].

(** A retailer tier made of overrides only. *)
Definition tier_of_overrides (overrides : list Override.t) : Tier.t :=
  Tier.mk true None None None None (Some overrides) None None.

(** A file system for the examples: the core file holds [n1_required], the
    file of document type 850 holds [doc_req_dtm], the Walmart file holds
    [retailer_req_dtm_856], and every other file is missing. *)
Definition three_files : json_loader :=
  fun file =>
    match file with
    | X12_CORE_RULES => inr (tier_of_required [n1_required])
    | DOC_850_RULES => inr (tier_of_required [doc_req_dtm])
    | WALMART_RULES => inr (tier_of_required [retailer_req_dtm_856])
    | _ => inl (FileNotFoundError file)
    end.

(** [c'] holds the issues of [c] and, after them, issues that satisfy [P],
    each in the list of its severity: ERROR in [errors], WARNING in
    [warnings], any other in [info]. *)
Definition grows (P : Issue.t -> Prop) (c c' : ErrorCollector.t) : Prop :=
  exists es ws others,
    ErrorCollector.errors c' = (ErrorCollector.errors c ++ es)%list
    /\ ErrorCollector.warnings c' = (ErrorCollector.warnings c ++ ws)%list
    /\ ErrorCollector.info c' = (ErrorCollector.info c ++ others)%list
    /\ Forall (fun i => P i /\ Issue.severity i = "ERROR") es
    /\ Forall (fun i => P i /\ Issue.severity i = "WARNING") ws
    /\ Forall (fun i => P i /\ Issue.severity i <> "ERROR"
                        /\ Issue.severity i <> "WARNING") others.

(** Whether it returns or raises, the computation only adds issues that
    satisfy [P], each to the list of its severity. *)
Definition reports {A : Type} (P : Issue.t -> Prop) (m : M A) : Prop :=
  forall c, grows P c (fst (m c)).

(** The issue bears the id of the rule and its severity in upper case. *)
Definition from_rule (rule : Rule.t) (i : Issue.t) : Prop :=
  Rule.rule_id rule = Some (Issue.rule_id i)
  /\ exists severity,
      Rule.severity rule = Some severity
      /\ Issue.severity i = Py.upper severity.

(** The issue comes from one of the rules of the list. *)
Definition from_rules (rules : list Rule.t) (i : Issue.t) : Prop :=
  exists rule, In rule rules /\ from_rule rule i.

(** Where an issue of a validation result comes from: an exception caught
    at a category boundary, or a rule of one of the four categories. *)
Definition issue_origin (rules : RuleSet.t) (i : Issue.t) : Prop :=
  (Issue.rule_id i = "SYSTEM_ERROR" /\ Issue.severity i = "ERROR")
  \/ exists c, from_rules (ruleset_get rules c) i.

(** The longest prefix of the list whose items all pass the test. *)
Fixpoint take_while {A : Type} (p : A -> bool) (l : list A) : list A :=
  match l with
  | [] => []
  | x :: rest => if p x then x :: take_while p rest else []
  end.

(** The segment has the given id and, at the position, the required value
    once stripped. *)
Definition carries (segment_id : option string) (element_position : Z)
           (required_value : option string) (segment : Segment.t) : bool :=
  Py.opt_eqb segment_id (Segment.segment_id segment)
  && match nth_error (Segment.elements segment) (Z.to_nat element_position)
     with
     | Some x => Py.opt_eqb required_value (Py.strip x)
     | None => false
     end.

(** The target segment does not contradict the count: it has no element
    at the position, or the element reads as the number [source_count]. *)
Definition declares (source_count element_position : Z)
           (segment : Segment.t) : Prop :=
  match nth_error (Segment.elements segment) (Z.to_nat element_position) with
  | Some x => Py.int_str (Py.strip x) = Some source_count
  | None => True
  end.

(** A required-segment rule: at most one [N1] segment. *)
Definition n1_at_most_one : Rule.t :=
  Rule.mk (Some "850_MAX_N1") (Some "ERROR") (Some "One N1 segment") []
    (Some "N1") (Some 1) (Some 1) [] None Validations.empty
    Conditional.empty Condition.empty ThenClause.empty ValidationLogic.empty.

(** The conditional rule [n1_requires_n3] with its condition put on
    element 0, the segment id. *)
Definition n1_requires_n3_on_id : Rule.t :=
  Rule.mk (Some "COND_N1_N3") (Some "ERROR") (Some "N3 required for N1")
    [] None None None [] None Validations.empty Conditional.empty
    (Condition.mk (Some "N1") (Some (JInt 0)) (Some "N1") None)
    (ThenClause.mk ["N3"] (Some "N1") None None)
    ValidationLogic.empty.

(** A cross-segment rule: some [N1] segment names a ship-to party. *)
Definition n1_st_exists : Rule.t :=
  Rule.mk (Some "CROSS_N1_ST") (Some "WARNING")
    (Some "A ship-to party is expected") []
    None None None [] None Validations.empty Conditional.empty
    Condition.empty ThenClause.empty
    (ValidationLogic.mk (Some "element_value_exists") None None None None []
       (Some "N1") (Some (JInt 1)) (Some "ST")).

(** A collector with two issues about [BEG] and one without segment. *)
Definition three_issues : ErrorCollector.t :=
  ErrorCollector.mk
    [Issue.mk "R1" "ERROR" "m1" (Some "BEG") (Some 2) None None None [];
     Issue.mk "R2" "ERROR" "m2" None None None None None []]
    [Issue.mk "R1" "WARNING" "m3" (Some "BEG") (Some 2) None None None []]
    [].

(** The arguments of the [add_error] call that one compared pair leads to:
    none when either segment has no element at its position or the two
    stripped values are equal, one otherwise. *)
Definition mismatch_issues (rule_id severity : string)
           (seg1_id seg2_id : option string) (elem1_pos elem2_pos : Z)
           (seg12 : Segment.t * Segment.t) : list Issue.t :=
  match nth_error (Segment.elements (fst seg12)) (Z.to_nat elem1_pos),
        nth_error (Segment.elements (snd seg12)) (Z.to_nat elem2_pos)
  with
  | Some e1, Some e2 =>
      if String.eqb (Py.strip e1) (Py.strip e2) then []
      else
        [Issue.mk rule_id severity
           (Py.fmt_opt seg1_id ++ Py.fmt02 elem1_pos ++ " and "
              ++ Py.fmt_opt seg2_id ++ Py.fmt02 elem2_pos ++ " must match")
           seg2_id (Some (Segment.line (snd seg12))) (Some elem2_pos)
           (Some (Py.strip e1)) (Some (Py.strip e2)) []]
  | _, _ => []
  end.

(* ===================================================================== *)
(** * Properties *)
(* ===================================================================== *)

(** ** Compliance and the error count *)

Lemma add_error_keeps_errors :
  forall c rule_id severity message segment_id line_number element_position
         expected_value actual_value context,
    Py.upper severity <> "ERROR" ->
    ErrorCollector.errors
      (ErrorCollector.add_error c rule_id severity message segment_id
         line_number element_position expected_value actual_value context)
    = ErrorCollector.errors c.
Proof.
  intros. unfold ErrorCollector.add_error.
  destruct (String.eqb_spec (Py.upper severity) "ERROR") as [E | _].
  - contradiction.
  - destruct (String.eqb (Py.upper severity) "WARNING"); reflexivity.
Qed.

Lemma add_issues_keeps_errors :
  forall issues c,
    Forall (fun i => Py.upper (Issue.severity i) <> "ERROR") issues ->
    ErrorCollector.errors (add_issues c issues) = ErrorCollector.errors c.
Proof.
  unfold add_issues.
  induction issues as [| i issues IH]; intros c Hall; simpl.
  - reflexivity.
  - inversion Hall as [| ? ? Hi Hrest]; subst.
    rewrite IH by assumption.
    now apply add_error_keeps_errors.
Qed.

(** C1. A validation result is compliant exactly when its count of
    ERROR-severity issues is zero, and adding any number of issues whose
    severity is not ERROR (WARNING, INFO or anything else) changes neither
    the compliance nor the error count. *)
Theorem compliance_iff_no_errors :
  forall (r : ValidationResult.t),
    (ValidationResult.is_compliant r = true
     <-> ValidationResult.error_count r = 0)
    /\ (forall issues,
           Forall (fun i => Py.upper (Issue.severity i) <> "ERROR") issues ->
           let r' :=
             with_collector r
               (add_issues (ValidationResult.error_collector r) issues) in
           ValidationResult.is_compliant r' = ValidationResult.is_compliant r
           /\ ValidationResult.error_count r' = ValidationResult.error_count r).
Proof.
  intros r. split.
  - unfold ValidationResult.is_compliant, ValidationResult.error_count,
      ErrorCollector.has_errors, Py.len.
    destruct (ErrorCollector.errors (ValidationResult.error_collector r))
      as [| e es]; simpl.
    + split; reflexivity.
    + split; intros H; [discriminate | lia].
  - intros issues Hall r'.
    unfold r', with_collector, ValidationResult.is_compliant,
      ValidationResult.error_count, ErrorCollector.has_errors; simpl.
    rewrite (add_issues_keeps_errors _ _ Hall). split; reflexivity.
Qed.

Lemma compliance_iff_no_errors_witness :
  let r :=
    ValidationResult.mk
      (ErrorCollector.mk [] [] [])
      (Document.mk
         (Metadata.mk "" "" "" "" "" "" (Build_ControlNumbers "" "" "") "")
         [] (Statistics.mk 0 [] false))
      (RuleSet.mk (RulesetInfo.mk "" "" "" []) [] [] [] [] None None) 0 in
  let issues :=
    [Issue.mk "R1" "warning" "m" None None None None None [];
     Issue.mk "R2" "INFO" "m" None None None None None []] in
  let r' :=
    with_collector r (add_issues (ValidationResult.error_collector r) issues) in
  ValidationResult.is_compliant r' = ValidationResult.is_compliant r
  /\ ValidationResult.error_count r' = ValidationResult.error_count r.
Proof.
  intros r issues.
  apply (proj2 (compliance_iff_no_errors r) issues).
  repeat constructor; simpl; discriminate.
Defined.

(** ** Element splitting *)

Lemma split_not_nil : forall sep s, Py.split sep s <> [].
Proof.
  intros sep s. destruct s as [| c s']; simpl.
  - discriminate.
  - destruct (Ascii.eqb c sep); [discriminate |].
    destruct (Py.split sep s'); discriminate.
Qed.

Lemma separator_free_cons :
  forall sep c f,
    separator_free sep (String c f) ->
    Ascii.eqb c sep = false /\ separator_free sep f.
Proof.
  unfold separator_free, Py.contains_char. simpl.
  intros sep c f H. apply orb_false_iff in H as [Hc Hf].
  rewrite Ascii.eqb_sym. now split.
Qed.

Lemma split_field :
  forall sep f, separator_free sep f -> Py.split sep f = [f].
Proof.
  induction f as [| c f IH]; intros Hf; simpl.
  - reflexivity.
  - apply separator_free_cons in Hf as [Hc Hf].
    rewrite Hc, (IH Hf). reflexivity.
Qed.

Lemma split_field_then :
  forall sep f rest,
    separator_free sep f ->
    Py.split sep (f ++ String sep rest) = f :: Py.split sep rest.
Proof.
  induction f as [| c f IH]; intros rest Hf; simpl.
  - now rewrite Ascii.eqb_refl.
  - apply separator_free_cons in Hf as [Hc Hf].
    rewrite Hc, (IH rest Hf). reflexivity.
Qed.

Lemma split_join :
  forall sep fields,
    fields <> [] ->
    Forall (separator_free sep) fields ->
    Py.split sep (Py.join (String sep EmptyString) fields) = fields.
Proof.
  unfold Py.join.
  induction fields as [| f fields IH]; intros Hne Hall.
  - contradiction.
  - inversion Hall as [| ? ? Hf Hrest]; subst.
    destruct fields as [| g fields'].
    + simpl. now apply split_field.
    + change (String.concat (String sep EmptyString) (f :: g :: fields'))
        with (f ++ String sep (String.concat (String sep EmptyString)
                                             (g :: fields'))).
      rewrite split_field_then by assumption.
      rewrite IH; [reflexivity | discriminate | assumption].
Qed.

Lemma join_split :
  forall sep s, Py.join (String sep EmptyString) (Py.split sep s) = s.
Proof.
  unfold Py.join.
  induction s as [| c s IH]; simpl.
  - reflexivity.
  - destruct (Ascii.eqb_spec c sep) as [-> | Hne].
    + pose proof (split_not_nil sep s) as Hnil.
      destruct (Py.split sep s) as [| f fs] eqn:E; [contradiction |].
      simpl in *. now rewrite IH.
    + pose proof (split_not_nil sep s) as Hnil.
      destruct (Py.split sep s) as [| f fs] eqn:E; [contradiction |].
      destruct fs as [| g fs']; simpl in *; now rewrite <- IH.
Qed.

Lemma split_separator_free :
  forall sep s, Forall (separator_free sep) (Py.split sep s).
Proof.
  induction s as [| c s IH]; simpl.
  - repeat constructor.
  - destruct (Ascii.eqb c sep) eqn:Hc.
    + constructor; [reflexivity | assumption].
    + destruct (Py.split sep s) as [| f fs].
      * constructor; [| constructor].
        unfold separator_free, Py.contains_char. simpl.
        now rewrite Ascii.eqb_sym, Hc.
      * inversion IH as [| ? ? Hf Hfs]; subst.
        constructor; [| assumption].
        unfold separator_free, Py.contains_char in *. simpl.
        now rewrite Ascii.eqb_sym, Hc.
Qed.

(** C5. Splitting keeps the number and the places of the elements, empty
    ones included: ["BEG*00*NE*PO1**20231215"] splits into six elements, the
    one at index 4 being empty; for every segment string the elements hold
    no separator and joined by the separator give the segment back; and
    the segment made of any fields [f0, ..., fn] (none holding the
    separator) splits into exactly these fields, so the i-th element is the
    i-th field. *)
Theorem split_elements_keeps_fields :
  (split_elements "BEG*00*NE*PO1**20231215"
   = ["BEG"; "00"; "NE"; "PO1"; ""; "20231215"]
   /\ List.length (split_elements "BEG*00*NE*PO1**20231215") = 6%nat
   /\ nth_error (split_elements "BEG*00*NE*PO1**20231215") 4 = Some "")
  /\ (forall sep segment,
         Py.join (String sep EmptyString) (split_elements_with sep segment)
         = segment
         /\ Forall (separator_free sep) (split_elements_with sep segment))
  /\ (forall sep fields,
         fields <> [] ->
         Forall (separator_free sep) fields ->
         let segment := Py.join (String sep EmptyString) fields in
         List.length (split_elements_with sep segment) = List.length fields
         /\ forall i,
             nth_error (split_elements_with sep segment) i
             = nth_error fields i).
Proof.
  split; [repeat split; reflexivity |]. split.
  - intros sep segment. unfold split_elements_with.
    split; [apply join_split | apply split_separator_free].
  - intros sep fields Hne Hall segment. unfold segment, split_elements_with.
    rewrite split_join by assumption. split; reflexivity.
Qed.

Lemma split_elements_keeps_fields_witness :
  List.length (split_elements "N1*ST**92") = 4%nat
  /\ nth_error (split_elements "N1*ST**92") 2 = Some "".
Proof.
  destruct (proj2 (proj2 split_elements_keeps_fields)
                  ELEMENT_SEPARATOR ["N1"; "ST"; ""; "92"])
    as [Hlen Hnth].
  - discriminate.
  - repeat constructor.
  - split; [exact Hlen | exact (Hnth 2%nat)].
Defined.

(** *** What normalization keeps: the characters that are not white space *)

Lemma lstrip_whitespace_only :
  forall text, whitespace_only text -> Py.lstrip text = EmptyString.
Proof.
  unfold whitespace_only.
  induction text as [| c text IH]; simpl; intros H.
  - reflexivity.
  - inversion H as [| ? ? Hc Hrest]; subst. rewrite Hc. now apply IH.
Qed.

Lemma strip_whitespace_only :
  forall text, whitespace_only text -> Py.strip text = EmptyString.
Proof.
  intros text H. unfold Py.strip. now rewrite lstrip_whitespace_only.
Qed.

Lemma no_segments_of_blank :
  forall text,
    Py.strip text = EmptyString ->
    split_segments (normalize_edi_text text) = [].
Proof.
  intros text H. unfold normalize_edi_text at 1. rewrite H. reflexivity.
Qed.

Lemma append_empty_r : forall s : string, s ++ EmptyString = s.
Proof.
  induction s as [| c s IH]; simpl; [reflexivity | now rewrite IH].
Qed.

Lemma nonspace_lstrip : forall s, nonspace (Py.lstrip s) = nonspace s.
Proof.
  induction s as [| c s IH]; simpl.
  - reflexivity.
  - destruct (Py.is_space c) eqn:Hc; simpl.
    + exact IH.
    + now rewrite Hc.
Qed.

Lemma nonspace_rstrip : forall s, nonspace (Py.rstrip s) = nonspace s.
Proof.
  induction s as [| c s IH]; simpl.
  - reflexivity.
  - destruct (Py.rstrip s) as [| d r] eqn:Hr.
    + simpl in IH. rewrite <- IH.
      destruct (Py.is_space c) eqn:Hc; simpl; now rewrite ?Hc.
    + change (nonspace (String c (String d r)))
        with (if Py.is_space c then nonspace (String d r)
              else String c (nonspace (String d r))).
      now rewrite IH.
Qed.

Lemma nonspace_strip : forall s, nonspace (Py.strip s) = nonspace s.
Proof.
  intros s. unfold Py.strip. now rewrite nonspace_rstrip, nonspace_lstrip.
Qed.

Lemma nonspace_replace_cr : forall s, nonspace (Py.replace_cr s) = nonspace s.
Proof.
  induction s as [| c s IH]; simpl.
  - reflexivity.
  - destruct (Ascii.eqb_spec c Py.CR) as [-> | Hne].
    + change (Py.is_space Py.LF) with true.
      change (Py.is_space Py.CR) with true. exact IH.
    + now rewrite IH.
Qed.

Lemma nonspace_cons :
  forall c s,
    nonspace (String c s)
    = if Py.is_space c then nonspace s else String c (nonspace s).
Proof. reflexivity. Qed.

Lemma replace_crlf_cons :
  forall c d s,
    Py.replace_crlf (String c (String d s))
    = if Ascii.eqb c Py.CR && Ascii.eqb d Py.LF
      then String Py.LF (Py.replace_crlf s)
      else String c (Py.replace_crlf (String d s)).
Proof. reflexivity. Qed.

Lemma nonspace_replace_crlf :
  forall s, nonspace (Py.replace_crlf s) = nonspace s.
Proof.
  assert (H : forall n s, (String.length s <= n)%nat ->
                          nonspace (Py.replace_crlf s) = nonspace s).
  { induction n as [| n IH]; intros s Hlen.
    - destruct s; [reflexivity | simpl in Hlen; lia].
    - destruct s as [| c [| d s'']]; [reflexivity | reflexivity |].
      simpl in Hlen. rewrite replace_crlf_cons.
      destruct (Ascii.eqb c Py.CR && Ascii.eqb d Py.LF) eqn:Hcrlf.
      + apply andb_true_iff in Hcrlf as [Hc Hd].
        apply Ascii.eqb_eq in Hc, Hd. subst c d.
        rewrite (nonspace_cons Py.LF (Py.replace_crlf s'')).
        rewrite (nonspace_cons Py.CR (String Py.LF s'')).
        rewrite (nonspace_cons Py.LF s'').
        change (Py.is_space Py.LF) with true.
        change (Py.is_space Py.CR) with true.
        apply IH. lia.
      + rewrite (nonspace_cons c (Py.replace_crlf (String d s''))).
        rewrite (nonspace_cons c (String d s'')).
        rewrite (IH (String d s'')) by (simpl; lia). reflexivity. }
  intros s. now apply (H (String.length s)).
Qed.

Lemma nonspace_app :
  forall a b, nonspace (a ++ b) = nonspace a ++ nonspace b.
Proof.
  induction a as [| c a IH]; intros b; simpl.
  - reflexivity.
  - destruct (Py.is_space c); simpl; now rewrite IH.
Qed.

(** The pieces of a split at a white-space separator, glued together. *)
Lemma nonspace_split :
  forall sep s,
    Py.is_space sep = true ->
    fold_right append EmptyString (map nonspace (Py.split sep s))
    = nonspace s.
Proof.
  intros sep s Hsep. induction s as [| c s IH]; simpl.
  - reflexivity.
  - destruct (Ascii.eqb_spec c sep) as [-> | Hne].
    + simpl. now rewrite Hsep.
    + pose proof (split_not_nil sep s) as Hnil.
      destruct (Py.split sep s) as [| f fs]; [contradiction |].
      simpl in *. destruct (Py.is_space c); simpl; now rewrite IH.
Qed.

Lemma nonspace_join :
  forall sep l,
    Py.is_space sep = true ->
    nonspace (Py.join (String sep EmptyString) l)
    = fold_right append EmptyString (map nonspace l).
Proof.
  intros sep l Hsep. unfold Py.join.
  induction l as [| h t IH].
  - reflexivity.
  - destruct t as [| g t'].
    + simpl. now rewrite append_empty_r.
    + change (String.concat (String sep EmptyString) (h :: g :: t'))
        with (h ++ String sep (String.concat (String sep EmptyString)
                                             (g :: t'))).
      rewrite nonspace_app, nonspace_cons, Hsep, IH. reflexivity.
Qed.

Lemma nonspace_blank_lines :
  forall lines,
    fold_right append EmptyString
      (map nonspace
           (map Py.strip
                (filter (fun line => Py.truthy (Py.strip line)) lines)))
    = fold_right append EmptyString (map nonspace lines).
Proof.
  induction lines as [| l lines IH]; simpl.
  - reflexivity.
  - destruct (Py.truthy (Py.strip l)) eqn:Ht; simpl.
    + now rewrite IH, nonspace_strip.
    + rewrite IH, <- (nonspace_strip l).
      destruct (Py.strip l); [reflexivity | discriminate].
Qed.

(** Normalization removes and rewrites white space only. *)
Lemma nonspace_normalize :
  forall text, nonspace (normalize_edi_text text) = nonspace text.
Proof.
  intros text. unfold normalize_edi_text.
  rewrite nonspace_join by reflexivity.
  rewrite nonspace_blank_lines, nonspace_split by reflexivity.
  now rewrite nonspace_replace_cr, nonspace_replace_crlf, nonspace_strip.
Qed.

Lemma all_chars_nonspace :
  forall p s,
    (forall c, Py.is_space c = true -> p c = true) ->
    all_chars p (nonspace s) = all_chars p s.
Proof.
  intros p s Hp. induction s as [| c s IH]; simpl.
  - reflexivity.
  - destruct (Py.is_space c) eqn:Hc; simpl.
    + now rewrite (Hp c Hc).
    + now rewrite IH.
Qed.

Lemma nonspace_empty :
  forall s, nonspace s = EmptyString -> all_chars Py.is_space s = true.
Proof.
  induction s as [| c s IH]; simpl; intros H.
  - reflexivity.
  - destruct (Py.is_space c); [now apply IH | discriminate].
Qed.

Lemma whitespace_only_all_chars :
  forall s, whitespace_only s <-> all_chars Py.is_space s = true.
Proof.
  unfold whitespace_only.
  induction s as [| c s IH]; simpl.
  - split; [reflexivity | constructor].
  - rewrite andb_true_iff, <- IH. split.
    + intros H. inversion H; subst. now split.
    + intros [Hc Hs]. now constructor.
Qed.

Lemma strip_empty_iff :
  forall s, Py.strip s = EmptyString <-> all_chars Py.is_space s = true.
Proof.
  intros s. split.
  - intros H. apply nonspace_empty. now rewrite <- nonspace_strip, H.
  - intros H. now apply strip_whitespace_only, whitespace_only_all_chars.
Qed.

Lemma truthy_strip :
  forall s, Py.truthy (Py.strip s) = negb (all_chars Py.is_space s).
Proof.
  intros s. destruct (all_chars Py.is_space s) eqn:Hs.
  - apply strip_empty_iff in Hs. now rewrite Hs.
  - destruct (Py.strip s) eqn:Hstrip; [| reflexivity].
    apply strip_empty_iff in Hstrip. congruence.
Qed.

Lemma blank_pieces :
  forall sep s,
    forallb (all_chars Py.is_space) (Py.split sep s)
    = all_chars (fun c => Py.is_space c || Ascii.eqb c sep) s.
Proof.
  intros sep s. induction s as [| c s IH]; simpl.
  - reflexivity.
  - destruct (Ascii.eqb c sep) eqn:Hc.
    + simpl. now rewrite orb_true_r, IH.
    + pose proof (split_not_nil sep s) as Hnil.
      destruct (Py.split sep s) as [| f fs]; [contradiction |].
      simpl in *. now rewrite orb_false_r, <- IH, andb_assoc.
Qed.

Lemma forallb_pointwise :
  forall (A : Type) (p q : A -> bool) (l : list A),
    (forall x, p x = q x) -> forallb p l = forallb q l.
Proof.
  intros A p q l H. induction l as [| x l IH]; simpl.
  - reflexivity.
  - now rewrite H, IH.
Qed.

Lemma filter_nil_iff :
  forall (A : Type) (p : A -> bool) (l : list A),
    filter p l = [] <-> forallb (fun x => negb (p x)) l = true.
Proof.
  intros A p l. induction l as [| x l IH]; simpl.
  - split; reflexivity.
  - destruct (p x); simpl; [split; discriminate | exact IH].
Qed.

(** The segments of a text are none exactly when the normalized text holds
    nothing but white space and terminators. *)
Lemma split_segments_nil_iff :
  forall text,
    split_segments text = []
    <-> all_chars space_or_terminator (normalize_edi_text text) = true.
Proof.
  intros text. unfold split_segments, split_segments_with.
  change space_or_terminator
    with (fun c => Py.is_space c || Ascii.eqb c SEGMENT_TERMINATOR).
  rewrite <- (blank_pieces SEGMENT_TERMINATOR).
  assert (Hsame :
            forallb (fun seg => negb (Py.truthy (Py.strip seg)))
                    (Py.split SEGMENT_TERMINATOR (normalize_edi_text text))
            = forallb (all_chars Py.is_space)
                      (Py.split SEGMENT_TERMINATOR (normalize_edi_text text))).
  { apply forallb_pointwise. intros p.
    now rewrite truthy_strip, negb_involutive. }
  rewrite <- Hsame, <- filter_nil_iff.
  split.
  - intros H. now apply map_eq_nil in H.
  - intros H. now rewrite H.
Qed.

Lemma all_chars_normalize :
  forall text,
    all_chars space_or_terminator (normalize_edi_text text)
    = all_chars space_or_terminator text.
Proof.
  intros text.
  assert (Hp : forall c, Py.is_space c = true -> space_or_terminator c = true).
  { intros c Hc. unfold space_or_terminator. now rewrite Hc. }
  rewrite <- (all_chars_nonspace space_or_terminator (normalize_edi_text text) Hp).
  rewrite nonspace_normalize. now apply all_chars_nonspace.
Qed.

(** ** Parsing: empty input *)

Lemma parse_text_fails_iff :
  forall text,
    (exists e, parse_text text = inl e)
    <-> split_segments (normalize_edi_text text) = [].
Proof.
  intros text. split.
  - intros [e He]. unfold parse_text in He.
    destruct (negb (Py.truthy text) || negb (Py.truthy (Py.strip text)))
             eqn:Hblank.
    + apply no_segments_of_blank.
      destruct text as [| c text']; [reflexivity |].
      simpl in Hblank.
      destruct (Py.strip (String c text')); [reflexivity | discriminate].
    + destruct (split_segments (normalize_edi_text text));
        [reflexivity | discriminate].
  - intros Hnone. unfold parse_text. rewrite Hnone.
    destruct (negb (Py.truthy text) || negb (Py.truthy (Py.strip text)));
      eexists; reflexivity.
Qed.

(** C4 (as amended). A text that holds only white space (the empty text
    included) makes [parse_text] raise the empty-input error; [parse_text]
    raises exactly when the normalized text yields zero segments, which is
    exactly when the text holds nothing but white space and segment
    terminators; the only errors it raises are its two [ValueError]s. A
    text without a segment terminator is therefore rejected only when it is
    white space only. *)
Theorem parse_text_fails_iff_no_segments :
  forall text,
    (whitespace_only text ->
     parse_text text = inl (ValueError "EDI text is empty"))
    /\ ((exists e, parse_text text = inl e)
        <-> split_segments (normalize_edi_text text) = [])
    /\ ((exists e, parse_text text = inl e)
        <-> all_chars space_or_terminator text = true)
    /\ (Py.contains_char SEGMENT_TERMINATOR text = false ->
        ((exists e, parse_text text = inl e) <-> whitespace_only text))
    /\ (forall e, parse_text text = inl e ->
                  e = ValueError "EDI text is empty"
                  \/ e = ValueError "No segments found in EDI text").
Proof.
  intros text.
  assert (Hchars : (exists e, parse_text text = inl e)
                   <-> all_chars space_or_terminator text = true).
  { rewrite parse_text_fails_iff, split_segments_nil_iff.
    now rewrite !all_chars_normalize. }
  split; [| split; [| split; [| split]]].
  - intros Hws. unfold parse_text.
    rewrite (strip_whitespace_only _ Hws). simpl.
    now rewrite orb_true_r.
  - apply parse_text_fails_iff.
  - exact Hchars.
  - intros Hfree. rewrite Hchars, whitespace_only_all_chars.
    clear Hchars. induction text as [| c text IH]; simpl.
    + split; reflexivity.
    + apply (separator_free_cons SEGMENT_TERMINATOR c text) in Hfree
        as [Hc Hrest].
      unfold space_or_terminator at 1. rewrite Hc, orb_false_r.
      rewrite !andb_true_iff. split.
      * intros [H1 H2]. split; [assumption |]. now apply IH.
      * intros [H1 H2]. split; [assumption |]. now apply IH.
  - intros e He. unfold parse_text in He.
    destruct (negb (Py.truthy text) || negb (Py.truthy (Py.strip text))).
    + left. congruence.
    + destruct (split_segments (normalize_edi_text text));
        [right; congruence | discriminate].
Qed.

Lemma parse_text_fails_iff_no_segments_witness :
  parse_text "   " = inl (ValueError "EDI text is empty")
  /\ ((exists e, parse_text "ISA*00" = inl e) <-> whitespace_only "ISA*00").
Proof.
  split.
  - apply (proj1 (parse_text_fails_iff_no_segments "   ")).
    unfold whitespace_only. simpl. repeat constructor.
  - apply (proj1 (proj2 (proj2 (proj2
             (parse_text_fails_iff_no_segments "ISA*00"))))).
    reflexivity.
Defined.

(** A text without any segment terminator is parsed: the claim that such a
    text is rejected fails at ["ISA*00"], whose parse is a document of one
    segment. *)
Lemma parse_text_without_terminator :
  Py.contains_char SEGMENT_TERMINATOR "ISA*00" = false
  /\ ~ whitespace_only "ISA*00"
  /\ (exists d,
         parse_text "ISA*00" = inr d
         /\ map Segment.elements (Document.segments d) = [["ISA"; "00"]])
  /\ ~ (forall text,
           whitespace_only text
           \/ Py.contains_char SEGMENT_TERMINATOR text = false ->
           exists e, parse_text text = inl e).
Proof.
  split; [reflexivity |]. split.
  { intros H. apply strip_whitespace_only in H. discriminate H. }
  split.
  { eexists. split; reflexivity. }
  intros H. destruct (H "ISA*00" (or_intror eq_refl)) as [e He].
  discriminate He.
Qed.

(** ** Insertion-ordered dictionaries *)

Section OrderedDict.
Context {V : Type}.
Implicit Types (d : list (string * V)) (k : string) (v : V).

Lemma od_get_set :
  forall d k v k',
    od_get k' (od_set k v d)
    = if String.eqb k k' then Some v else od_get k' d.
Proof.
  induction d as [| [k0 v0] d IH]; intros k v k'; simpl.
  - rewrite String.eqb_sym. reflexivity.
  - destruct (String.eqb_spec k0 k) as [-> | Hne]; simpl.
    + destruct (String.eqb k k'); reflexivity.
    + rewrite IH.
      destruct (String.eqb_spec k0 k') as [-> | Hne'].
      * destruct (String.eqb_spec k k'); [congruence | reflexivity].
      * reflexivity.
Qed.

Lemma od_get_None :
  forall d k, ~ In k (od_keys d) -> od_get k d = None.
Proof.
  induction d as [| [k0 v0] d IH]; intros k Hk; simpl in *.
  - reflexivity.
  - destruct (String.eqb_spec k0 k) as [-> | Hne].
    + exfalso. apply Hk. now left.
    + apply IH. intros Hin. apply Hk. now right.
Qed.

Lemma od_set_known :
  forall d k v, In k (od_keys d) -> od_keys (od_set k v d) = od_keys d.
Proof.
  induction d as [| [k0 v0] d IH]; intros k v Hk; simpl in *.
  - contradiction.
  - destruct (String.eqb_spec k0 k) as [-> | Hne]; simpl.
    + reflexivity.
    + f_equal. apply IH. destruct Hk as [Hk | Hk]; [congruence | assumption].
Qed.

Lemma od_set_new :
  forall d k v, ~ In k (od_keys d) -> od_set k v d = (d ++ [(k, v)])%list.
Proof.
  induction d as [| [k0 v0] d IH]; intros k v Hk; simpl in *.
  - reflexivity.
  - destruct (String.eqb_spec k0 k) as [-> | Hne].
    + exfalso. apply Hk. now left.
    + f_equal. apply IH. intros Hin. apply Hk. now right.
Qed.

Lemma od_set_keys_incl :
  forall d k v k', In k' (od_keys d) -> In k' (od_keys (od_set k v d)).
Proof.
  induction d as [| [k0 v0] d IH]; intros k v k' Hk; simpl in *.
  - contradiction.
  - destruct (String.eqb k0 k); simpl.
    + assumption.
    + destruct Hk as [Hk | Hk]; [now left | right; now apply IH].
Qed.

Lemma od_set_key_in :
  forall d k v, In k (od_keys (od_set k v d)).
Proof.
  induction d as [| [k0 v0] d IH]; intros k v; simpl.
  - now left.
  - destruct (String.eqb_spec k0 k) as [-> | Hne]; simpl.
    + now left.
    + right. apply IH.
Qed.

Lemma od_set_keys_inv :
  forall d k v k',
    In k' (od_keys (od_set k v d)) -> k' = k \/ In k' (od_keys d).
Proof.
  induction d as [| [k0 v0] d IH]; intros k v k' Hk; simpl in *.
  - destruct Hk as [Hk | []]. now left.
  - destruct (String.eqb k0 k); simpl in Hk.
    + now right.
    + destruct Hk as [Hk | Hk]; [right; now left |].
      apply IH in Hk as [Hk | Hk]; [now left | right; now right].
Qed.

Lemma od_set_NoDup :
  forall d k v, NoDup (od_keys d) -> NoDup (od_keys (od_set k v d)).
Proof.
  induction d as [| [k0 v0] d IH]; intros k v Hnd; simpl in *.
  - constructor; [intros [] | constructor].
  - inversion Hnd as [| ? ? Hnotin Hnd']; subst.
    destruct (String.eqb_spec k0 k) as [-> | Hne]; simpl.
    + now constructor.
    + constructor; [| now apply IH].
      intros Hin. apply od_set_keys_inv in Hin as [Hin | Hin];
        [congruence | contradiction].
Qed.

(** Two dictionaries with the same keys in the same order and the same
    value under every key are equal. *)
Lemma od_ext :
  forall d1 d2,
    NoDup (od_keys d1) ->
    od_keys d1 = od_keys d2 ->
    (forall k, od_get k d1 = od_get k d2) ->
    d1 = d2.
Proof.
  induction d1 as [| [k1 v1] d1 IH]; intros [| [k2 v2] d2] Hnd Hkeys Hget;
    simpl in *; try discriminate.
  - reflexivity.
  - injection Hkeys as -> Hkeys.
    inversion Hnd as [| ? ? Hnotin Hnd']; subst.
    pose proof (Hget k2) as Hhead. rewrite String.eqb_refl in Hhead.
    injection Hhead as ->.
    f_equal. apply IH; [assumption | assumption |].
    intros k. specialize (Hget k).
    destruct (String.eqb_spec k2 k) as [-> | Hne].
    + rewrite !od_get_None; [reflexivity | | assumption].
      now rewrite <- Hkeys.
    + assumption.
Qed.
End OrderedDict.

(** ** Merging the tiers *)

Lemma has_id_spec :
  forall rule k,
    has_id rule k = true
    <-> Rule.rule_id rule = Some k /\ Py.truthy k = true.
Proof.
  intros rule k. unfold has_id.
  destruct (Rule.rule_id rule) as [id |].
  - split.
    + intros H. apply andb_true_iff in H as [Ht He].
      apply String.eqb_eq in He. subst. now split.
    + intros [[= ->] Ht]. now rewrite Ht, String.eqb_refl.
  - split; [discriminate | intros [H _]; discriminate].
Qed.

Lemma add_rule_set :
  forall d rule k,
    has_id rule k = true -> add_rule d rule = od_set k rule d.
Proof.
  intros d rule k H. apply has_id_spec in H as [Hid Ht].
  unfold add_rule. now rewrite Hid, Ht.
Qed.

Lemma add_rule_skip :
  forall d rule,
    (forall k, has_id rule k = false) -> add_rule d rule = d.
Proof.
  intros d rule H. unfold add_rule.
  destruct (Rule.rule_id rule) as [id |] eqn:Hid; [| reflexivity].
  destruct (Py.truthy id) eqn:Ht; [| reflexivity].
  specialize (H id). unfold has_id in H.
  now rewrite Hid, Ht, String.eqb_refl in H.
Qed.

(** A rule either carries an id the merge accepts, or is skipped. *)
Lemma has_id_cases :
  forall rule,
    (exists k, has_id rule k = true) \/ (forall k, has_id rule k = false).
Proof.
  intros rule. unfold has_id.
  destruct (Rule.rule_id rule) as [id |]; [| now right].
  destruct (Py.truthy id) eqn:Ht; [| now right].
  left. exists id. now rewrite String.eqb_refl.
Qed.

Lemma has_id_unique :
  forall rule k k', has_id rule k = true -> has_id rule k' = true -> k = k'.
Proof.
  intros rule k k' H H'.
  apply has_id_spec in H as [H _]. apply has_id_spec in H' as [H' _].
  congruence.
Qed.

Lemma add_rule_get :
  forall d rule k,
    od_get k (add_rule d rule)
    = if has_id rule k then Some rule else od_get k d.
Proof.
  intros d rule k.
  destruct (has_id_cases rule) as [[k0 Hk0] | Hnone].
  - rewrite (add_rule_set d _ _ Hk0), od_get_set.
    destruct (String.eqb_spec k0 k) as [-> | Hne].
    + now rewrite Hk0.
    + destruct (has_id rule k) eqn:Hk; [| reflexivity].
      exfalso. apply Hne. eapply has_id_unique; eassumption.
  - now rewrite (add_rule_skip d _ Hnone), Hnone.
Qed.

Lemma fold_add_rule_get :
  forall rules d k,
    od_get k (fold_left add_rule rules d)
    = match last_rule k rules with
      | Some rule => Some rule
      | None => od_get k d
      end.
Proof.
  induction rules as [| rule rules IH]; intros d k; simpl.
  - reflexivity.
  - rewrite IH, add_rule_get.
    destruct (last_rule k rules); [reflexivity |].
    destruct (has_id rule k); reflexivity.
Qed.

Lemma add_rule_keys_incl :
  forall d rule k, In k (od_keys d) -> In k (od_keys (add_rule d rule)).
Proof.
  intros d rule k Hk.
  destruct (has_id_cases rule) as [[k0 Hk0] | Hnone].
  - rewrite (add_rule_set d _ _ Hk0). now apply od_set_keys_incl.
  - now rewrite (add_rule_skip d _ Hnone).
Qed.

Lemma fold_add_rule_keys_incl :
  forall rules d k,
    In k (od_keys d) -> In k (od_keys (fold_left add_rule rules d)).
Proof.
  induction rules as [| rule rules IH]; intros d k Hk; simpl.
  - assumption.
  - apply IH. now apply add_rule_keys_incl.
Qed.

Lemma fold_add_rule_key_in :
  forall rules d rule k,
    In rule rules -> has_id rule k = true ->
    In k (od_keys (fold_left add_rule rules d)).
Proof.
  induction rules as [| r rules IH]; intros d rule k Hin Hk; simpl.
  - contradiction.
  - destruct Hin as [-> | Hin].
    + apply fold_add_rule_keys_incl.
      rewrite (add_rule_set d _ _ Hk). apply od_set_key_in.
    + eapply IH; eassumption.
Qed.

Lemma fold_add_rule_keys_stable :
  forall rules d,
    (forall rule k, In rule rules -> has_id rule k = true -> In k (od_keys d)) ->
    od_keys (fold_left add_rule rules d) = od_keys d.
Proof.
  induction rules as [| r rules IH]; intros d Hknown; simpl.
  - reflexivity.
  - assert (Hstep : od_keys (add_rule d r) = od_keys d).
    { destruct (has_id_cases r) as [[k0 Hk0] | Hnone].
      - rewrite (add_rule_set d _ _ Hk0). apply od_set_known.
        apply (Hknown r k0); [now left | assumption].
      - now rewrite (add_rule_skip d _ Hnone). }
    rewrite IH; [assumption |].
    intros rule k Hin Hk. rewrite Hstep. apply (Hknown rule k); [now right | assumption].
Qed.

Lemma add_rule_NoDup :
  forall d rule, NoDup (od_keys d) -> NoDup (od_keys (add_rule d rule)).
Proof.
  intros d rule Hnd.
  destruct (has_id_cases rule) as [[k0 Hk0] | Hnone].
  - rewrite (add_rule_set d _ _ Hk0). now apply od_set_NoDup.
  - now rewrite (add_rule_skip d _ Hnone).
Qed.

Lemma fold_add_rule_NoDup :
  forall rules d,
    NoDup (od_keys d) -> NoDup (od_keys (fold_left add_rule rules d)).
Proof.
  induction rules as [| r rules IH]; intros d Hnd; simpl.
  - assumption.
  - apply IH. now apply add_rule_NoDup.
Qed.

Lemma od_set_well_keyed :
  forall d rule k,
    well_keyed d -> has_id rule k = true -> well_keyed (od_set k rule d).
Proof.
  unfold well_keyed.
  induction d as [| [k0 r0] d IH]; intros rule k Hwk Hk; simpl.
  - repeat constructor. assumption.
  - inversion Hwk as [| ? ? Hhead Htail]; subst.
    destruct (String.eqb_spec k0 k) as [-> | Hne].
    + constructor; assumption.
    + constructor; [assumption | now apply IH].
Qed.

Lemma add_rule_well_keyed :
  forall d rule, well_keyed d -> well_keyed (add_rule d rule).
Proof.
  intros d rule Hwk.
  destruct (has_id_cases rule) as [[k0 Hk0] | Hnone].
  - rewrite (add_rule_set d _ _ Hk0). now apply od_set_well_keyed.
  - now rewrite (add_rule_skip d _ Hnone).
Qed.

Lemma fold_add_rule_well_keyed :
  forall rules d, well_keyed d -> well_keyed (fold_left add_rule rules d).
Proof.
  induction rules as [| r rules IH]; intros d Hwk; simpl.
  - assumption.
  - apply IH. now apply add_rule_well_keyed.
Qed.

(** Merging the same tier a second time changes nothing. *)
Lemma fold_add_rule_idem :
  forall rules d,
    NoDup (od_keys d) ->
    fold_left add_rule rules (fold_left add_rule rules d)
    = fold_left add_rule rules d.
Proof.
  intros rules d Hnd. apply od_ext.
  - now apply fold_add_rule_NoDup, fold_add_rule_NoDup.
  - apply fold_add_rule_keys_stable.
    intros rule k Hin Hk. eapply fold_add_rule_key_in; eassumption.
  - intros k. rewrite fold_add_rule_get.
    rewrite (fold_add_rule_get rules d k).
    destruct (last_rule k rules); reflexivity.
Qed.

(** Reading the values of a dictionary back in rebuilds the dictionary. *)
Lemma fold_add_rule_values :
  forall d2 d1,
    well_keyed d2 ->
    NoDup (od_keys (d1 ++ d2)) ->
    fold_left add_rule (od_values d2) d1 = (d1 ++ d2)%list.
Proof.
  unfold od_values.
  induction d2 as [| [k r] d2 IH]; intros d1 Hwk Hnd; simpl.
  - now rewrite app_nil_r.
  - inversion Hwk as [| ? ? Hhead Htail]; subst. simpl in Hhead.
    rewrite (add_rule_set d1 _ _ Hhead).
    assert (Hfresh : ~ In k (od_keys d1)).
    { unfold od_keys in *. rewrite map_app in Hnd. simpl in Hnd.
      apply NoDup_remove_2 in Hnd. intros Hin. apply Hnd.
      apply in_or_app. now left. }
    rewrite (od_set_new _ _ _ Hfresh).
    rewrite IH; [now rewrite <- app_assoc | assumption |].
    now rewrite <- app_assoc.
Qed.

Lemma category_rules_no_retailer :
  forall core doc doc_type,
    category_rules core doc [] doc_type
    = fold_left add_rule doc (fold_left add_rule core []).
Proof. reflexivity. Qed.

Lemma merge_category_idem :
  forall core doc doc_type,
    merge_category (merge_category core doc [] doc_type) doc [] doc_type
    = merge_category core doc [] doc_type.
Proof.
  intros core doc doc_type. unfold merge_category.
  rewrite !category_rules_no_retailer.
  set (d := fold_left add_rule doc (fold_left add_rule core [])).
  assert (Hnd : NoDup (od_keys d)).
  { apply fold_add_rule_NoDup, fold_add_rule_NoDup. constructor. }
  assert (Hwk : well_keyed d).
  { apply fold_add_rule_well_keyed, fold_add_rule_well_keyed. constructor. }
  rewrite (fold_add_rule_values d [] Hwk Hnd). simpl.
  unfold d. rewrite fold_add_rule_idem; [reflexivity |].
  apply fold_add_rule_NoDup. constructor.
Qed.

Lemma merge_rulesets_without_retailer :
  forall (core doc : Tier.t) (doc_type : string) (retailer : option string),
  exists merged,
    _merge_rulesets core doc Tier.empty doc_type retailer = inr merged
    /\ forall c,
        ruleset_get merged c
        = merge_category (tier_get core c) (tier_get doc c) [] doc_type.
Proof.
  intros core doc doc_type retailer.
  eexists. split; [reflexivity |].
  intros c. destruct c; reflexivity.
Qed.

Lemma tier_get_of_ruleset :
  forall merged c, tier_get (tier_of_ruleset merged) c = ruleset_get merged c.
Proof. intros merged c. destruct c; reflexivity. Qed.

(** C2. Merging is override-idempotent: the ruleset merged from a core tier
    and a document tier, merged once more with the same document tier, has
    in every category the same rules in the same order, hence the same rule
    under every rule id. Both merges return a ruleset. *)
Theorem merge_override_idempotent :
  forall (core doc : Tier.t) (doc_type : string) (retailer : option string),
  exists merged remerged,
    _merge_rulesets core doc Tier.empty doc_type retailer = inr merged
    /\ _merge_rulesets (tier_of_ruleset merged) doc Tier.empty doc_type retailer
       = inr remerged
    /\ forall c,
        ruleset_get remerged c = ruleset_get merged c
        /\ forall rule_id,
            find_rule rule_id (ruleset_get remerged c)
            = find_rule rule_id (ruleset_get merged c).
Proof.
  intros core doc doc_type retailer.
  destruct (merge_rulesets_without_retailer core doc doc_type retailer)
    as [merged [Hmerged Hcat]].
  destruct (merge_rulesets_without_retailer (tier_of_ruleset merged) doc
                                            doc_type retailer)
    as [remerged [Hremerged Hrecat]].
  exists merged, remerged. split; [assumption |]. split; [assumption |].
  intros c.
  assert (Hsame : ruleset_get remerged c = ruleset_get merged c).
  { rewrite Hrecat, tier_get_of_ruleset, Hcat. apply merge_category_idem. }
  split; [assumption |].
  intros rule_id. now rewrite Hsame.
Qed.

(** ** Retailer rules restricted to document types *)

Lemma applies_to_excluded :
  forall rule doc_type,
    Rule.applies_to_doc_types rule <> [] ->
    ~ In doc_type (Rule.applies_to_doc_types rule) ->
    applies_to rule doc_type = false.
Proof.
  intros rule doc_type Hne Hnotin. unfold applies_to.
  destruct (Rule.applies_to_doc_types rule) as [| t ts] eqn:E;
    [contradiction |].
  destruct (existsb (String.eqb doc_type) (t :: ts)) eqn:Hex; [| reflexivity].
  apply existsb_exists in Hex as [x [Hin Heq]].
  apply String.eqb_eq in Heq. subst. contradiction.
Qed.

Lemma add_retailer_rule_cases :
  forall doc_type d rule,
    add_retailer_rule doc_type d rule
    = if applies_to rule doc_type then add_rule d rule else d.
Proof.
  intros doc_type d rule. unfold add_retailer_rule, add_rule.
  destruct (Rule.rule_id rule) as [id |].
  - destruct (Py.truthy id), (applies_to rule doc_type); reflexivity.
  - destruct (applies_to rule doc_type); reflexivity.
Qed.

Lemma fold_retailer_well_keyed :
  forall doc_type rules d,
    well_keyed d ->
    well_keyed (fold_left (add_retailer_rule doc_type) rules d).
Proof.
  induction rules as [| r rules IH]; intros d Hwk; simpl.
  - assumption.
  - apply IH. rewrite add_retailer_rule_cases.
    destruct (applies_to r doc_type);
      [now apply add_rule_well_keyed | assumption].
Qed.

Lemma fold_retailer_get_other :
  forall doc_type rules d k,
    (forall rule, In rule rules -> has_id rule k = true ->
                  applies_to rule doc_type = false) ->
    od_get k (fold_left (add_retailer_rule doc_type) rules d) = od_get k d.
Proof.
  induction rules as [| r rules IH]; intros d k Hother; simpl.
  - reflexivity.
  - rewrite IH by (intros rule Hin; apply Hother; now right).
    rewrite add_retailer_rule_cases.
    destruct (applies_to r doc_type) eqn:Happ; [| reflexivity].
    rewrite add_rule_get.
    destruct (has_id r k) eqn:Hk; [| reflexivity].
    rewrite (Hother r (or_introl eq_refl) Hk) in Happ. discriminate.
Qed.

Lemma category_rules_well_keyed :
  forall core doc ret doc_type,
    well_keyed (category_rules core doc ret doc_type).
Proof.
  intros. unfold category_rules.
  apply fold_retailer_well_keyed, fold_add_rule_well_keyed,
    fold_add_rule_well_keyed.
  constructor.
Qed.

(** Looking a rule up by id in the merged list is looking its id up in the
    dictionary the list was made from. *)
Lemma find_rule_values :
  forall d rule_id,
    well_keyed d ->
    find_rule rule_id (od_values d)
    = match rule_id with
      | Some k => od_get k d
      | None => None
      end.
Proof.
  unfold find_rule, od_values, well_keyed.
  induction d as [| [k0 r0] d IH]; intros rule_id Hwk; simpl.
  - now destruct rule_id.
  - inversion Hwk as [| ? ? Hhead Htail]; subst. simpl in Hhead.
    apply has_id_spec in Hhead as [Hid _]. rewrite Hid.
    destruct rule_id as [k |]; simpl.
    + destruct (String.eqb k0 k); [reflexivity | now apply IH].
    + now apply (IH None).
Qed.

Lemma merge_category_skips_excluded :
  forall core doc pre rule post doc_type,
    applies_to rule doc_type = false ->
    merge_category core doc (pre ++ rule :: post) doc_type
    = merge_category core doc (pre ++ post) doc_type.
Proof.
  intros core doc pre rule post doc_type Hex.
  unfold merge_category, category_rules.
  rewrite !fold_left_app. simpl.
  rewrite (add_retailer_rule_cases doc_type _ rule), Hex. reflexivity.
Qed.

Lemma merge_rulesets_congr :
  forall core doc ret ret' doc_type retailer,
    Tier.truthy ret = Tier.truthy ret' ->
    (forall c,
        merge_category (tier_get core c) (tier_get doc c) (tier_get ret c)
                       doc_type
        = merge_category (tier_get core c) (tier_get doc c) (tier_get ret' c)
                         doc_type) ->
    Tier.overrides ret = Tier.overrides ret' ->
    Tier.segment_sequences ret = Tier.segment_sequences ret' ->
    Tier.business_rules ret = Tier.business_rules ret' ->
    _merge_rulesets core doc ret doc_type retailer
    = _merge_rulesets core doc ret' doc_type retailer.
Proof.
  intros core doc ret ret' doc_type retailer Ht Hcat Hov Hss Hbr.
  unfold _merge_rulesets.
  now rewrite Ht, !Hcat, Hov, Hss, Hbr.
Qed.

Lemma tier_with_truthy :
  forall x c rules, Tier.truthy (tier_with x c rules) = true.
Proof.
  intros x c rules. unfold Tier.truthy.
  destruct c; simpl; rewrite ?orb_true_r; reflexivity.
Qed.

Lemma tier_get_truthy :
  forall x c, tier_get x c <> [] -> Tier.truthy x = true.
Proof.
  intros x c H. unfold Tier.truthy. unfold tier_get in H.
  destruct c;
    match type of H with
    | context [match ?o with _ => _ end] => destruct o; [| contradiction]
    end;
    simpl; rewrite ?orb_true_r; reflexivity.
Qed.

Lemma tier_get_with :
  forall x c rules c',
    tier_get (tier_with x c rules) c'
    = if match c, c' with
         | required_segments, required_segments
         | element_rules, element_rules
         | conditional_rules, conditional_rules
         | cross_segment_rules, cross_segment_rules => true
         | _, _ => false
         end
      then rules else tier_get x c'.
Proof. intros x c rules c'. destruct c, c'; reflexivity. Qed.

Lemma od_set_In :
  forall (V : Type) (d : list (string * V)) k v kv,
    In kv (od_set k v d) -> kv = (k, v) \/ In kv d.
Proof.
  induction d as [| [k0 v0] d IH]; intros k v kv Hin; simpl in *.
  - destruct Hin as [<- | []]. now left.
  - destruct (String.eqb_spec k0 k) as [-> | Hne]; simpl in Hin.
    + destruct Hin as [<- | Hin]; [now left | right; now right].
    + destruct Hin as [<- | Hin]; [right; now left |].
      apply IH in Hin as [-> | Hin]; [now left | right; now right].
Qed.

Lemma add_rule_In :
  forall d rule kv, In kv (add_rule d rule) -> snd kv = rule \/ In kv d.
Proof.
  intros d rule kv Hin. unfold add_rule in Hin.
  destruct (Rule.rule_id rule) as [id |]; [| now right].
  destruct (Py.truthy id); [| now right].
  apply od_set_In in Hin as [-> | Hin]; [now left | now right].
Qed.

(** Where the entries of a merged dictionary come from. *)
Lemma fold_add_rule_In :
  forall rules d kv,
    In kv (fold_left add_rule rules d) -> In (snd kv) rules \/ In kv d.
Proof.
  induction rules as [| r rules IH]; intros d kv Hin; simpl in *.
  - now right.
  - apply IH in Hin as [Hin | Hin]; [left; now right |].
    apply add_rule_In in Hin as [Hin | Hin]; [left; now left | now right].
Qed.

Lemma fold_retailer_In :
  forall doc_type rules d kv,
    In kv (fold_left (add_retailer_rule doc_type) rules d) ->
    (In (snd kv) rules /\ applies_to (snd kv) doc_type = true) \/ In kv d.
Proof.
  induction rules as [| r rules IH]; intros d kv Hin; simpl in *.
  - now right.
  - apply IH in Hin as [[Hin Happ] | Hin]; [left; split; [now right | assumption] |].
    rewrite add_retailer_rule_cases in Hin.
    destruct (applies_to r doc_type) eqn:Happ; [| now right].
    apply add_rule_In in Hin as [Hin | Hin]; [| now right].
    left. subst r. split; [now left | assumption].
Qed.

(** A rule of a merged category is a rule of the core tier, of the document
    tier, or a retailer rule that applies to the document type. *)
Lemma merge_category_In :
  forall core doc ret doc_type rule,
    In rule (merge_category core doc ret doc_type) ->
    In rule core \/ In rule doc
    \/ (In rule ret /\ applies_to rule doc_type = true).
Proof.
  intros core doc ret doc_type rule Hin.
  unfold merge_category, od_values in Hin.
  apply in_map_iff in Hin as [[k v] [Hv Hin]]. simpl in Hv. subst v.
  unfold category_rules in Hin.
  apply fold_retailer_In in Hin as [Hin | Hin]; [right; now right |].
  apply fold_add_rule_In in Hin as [Hin | Hin]; [right; now left |].
  apply fold_add_rule_In in Hin as [Hin | []]. now left.
Qed.

(** C3. A retailer rule whose non-empty list of document types leaves out
    the document type being merged takes no part in the merge: the merged
    category, and the whole merged ruleset, are what they are without the
    rule; the merged category holds the rule only if the core tier or the
    document tier holds that very rule; and, rule ids being unique within
    the retailer tier's category, the rule's id is looked up in the merged
    category as in the merge of the lower tiers alone: it is absent, or
    maps to the lower-tier rule of that id. *)
Theorem excluded_retailer_rule_never_merged :
  forall (core doc ret : Tier.t) (c : category) (pre post : list Rule.t)
         (rule : Rule.t) (doc_type : string) (retailer : option string),
    tier_get ret c = (pre ++ rule :: post)%list ->
    Rule.applies_to_doc_types rule <> [] ->
    ~ In doc_type (Rule.applies_to_doc_types rule) ->
    merge_category (tier_get core c) (tier_get doc c) (tier_get ret c) doc_type
    = merge_category (tier_get core c) (tier_get doc c) (pre ++ post) doc_type
    /\ _merge_rulesets core doc ret doc_type retailer
       = _merge_rulesets core doc (tier_with ret c (pre ++ post)) doc_type
                         retailer
    /\ (In rule
           (merge_category (tier_get core c) (tier_get doc c) (tier_get ret c)
                           doc_type) ->
        In rule (tier_get core c) \/ In rule (tier_get doc c))
    /\ ((forall other, In other (pre ++ post) ->
                       Rule.rule_id other <> Rule.rule_id rule) ->
        find_rule (Rule.rule_id rule)
          (merge_category (tier_get core c) (tier_get doc c) (tier_get ret c)
                          doc_type)
        = find_rule (Rule.rule_id rule)
            (merge_category (tier_get core c) (tier_get doc c) [] doc_type)).
Proof.
  intros core doc ret c pre post rule doc_type retailer Hret Hne Hnotin.
  pose proof (applies_to_excluded rule doc_type Hne Hnotin) as Hex.
  assert (Hskip :
            merge_category (tier_get core c) (tier_get doc c) (tier_get ret c)
                           doc_type
            = merge_category (tier_get core c) (tier_get doc c) (pre ++ post)
                             doc_type).
  { rewrite Hret. now apply merge_category_skips_excluded. }
  split; [exact Hskip |]. split; [| split].
  - apply merge_rulesets_congr.
    + rewrite tier_with_truthy. apply (tier_get_truthy ret c).
      rewrite Hret. now destruct pre.
    + intros c'. rewrite tier_get_with.
      destruct c, c'; try reflexivity; exact Hskip.
    + destruct c; reflexivity.
    + destruct c; reflexivity.
    + destruct c; reflexivity.
  - intros Hin. apply merge_category_In in Hin as [Hin | [Hin | [_ Happ]]].
    + now left.
    + now right.
    + rewrite Hex in Happ. discriminate.
  - intros Huniq. unfold merge_category.
    rewrite !find_rule_values by apply category_rules_well_keyed.
    destruct (Rule.rule_id rule) as [k |] eqn:Hid; [| reflexivity].
    unfold category_rules. simpl.
    apply fold_retailer_get_other.
    intros other Hin Hk. rewrite Hret in Hin.
    apply in_app_or in Hin as [Hin | [<- | Hin]].
    + exfalso. apply (Huniq other); [apply in_or_app; now left |].
      apply has_id_spec in Hk as [Hk _]. congruence.
    + exact Hex.
    + exfalso. apply (Huniq other); [apply in_or_app; now right |].
      apply has_id_spec in Hk as [Hk _]. congruence.
Qed.

Lemma excluded_retailer_rule_never_merged_witness :
  let core := Tier.empty in
  let doc := tier_of_required [doc_req_dtm] in
  let ret := tier_of_required [retailer_req_dtm_856] in
  merge_category (tier_get core required_segments)
    (tier_get doc required_segments) (tier_get ret required_segments) "850"
  = merge_category (tier_get core required_segments)
      (tier_get doc required_segments) [] "850"
  /\ _merge_rulesets core doc ret "850" (Some "acme")
     = _merge_rulesets core doc (tier_with ret required_segments []) "850"
                       (Some "acme")
  /\ find_rule (Some "RET_REQ_DTM")
       (merge_category (tier_get core required_segments)
          (tier_get doc required_segments) (tier_get ret required_segments)
          "850")
     = Some doc_req_dtm.
Proof.
  intros core doc ret.
  destruct (excluded_retailer_rule_never_merged core doc ret required_segments
              [] [] retailer_req_dtm_856 "850" (Some "acme"))
    as [Hcat [Hall [_ Hfind]]].
  - reflexivity.
  - discriminate.
  - simpl. intros [H | []]. discriminate H.
  - split; [exact Hcat | split; [exact Hall |]].
    etransitivity; [apply Hfind; intros other [] | reflexivity].
Defined.

(** The same retailer rule is merged for its own document type, where it
    replaces the document-tier rule of the same id. *)
Lemma retailer_rule_merged_for_its_type :
  find_rule (Some "RET_REQ_DTM")
    (merge_category [] [doc_req_dtm] [retailer_req_dtm_856] "856")
  = Some retailer_req_dtm_856.
Proof. reflexivity. Qed.

(** ** The document tier passed once more as the third tier *)






(** ** The look-ahead window of a conditional rule *)

Lemma loop_scan_length :
  forall within_loop trigger_line all_segments loop_segments,
    (List.length loop_segments <= 10)%nat ->
    (List.length
       (ConditionalRuleValidator.loop_scan within_loop trigger_line
                                           all_segments loop_segments)
     <= 11)%nat.
Proof.
  induction all_segments as [| seg rest IH]; intros loop_segments Hlen; simpl.
  - lia.
  - destruct (Segment.line seg >? trigger_line); [| now apply IH].
    destruct (String.eqb (Segment.segment_id seg) within_loop); [lia |].
    unfold Py.len.
    destruct (Z.gtb_spec (Z.of_nat (List.length (loop_segments ++ [seg]))) 10)
      as [Hcap | Hcap].
    + rewrite length_app. simpl. lia.
    + apply IH. lia.
Qed.

(** C6 (the code at the failing input). With the [N3] segment as the
    eleventh segment after the triggering [N1], the window scanned for the
    required segments holds eleven segments, the [N3] among them, and the
    rule reports nothing; in general the window holds at most eleven
    segments, not ten. *)
Theorem loop_window_takes_eleven :
  let document := document_of n3_eleventh_after_n1 in
  let segments := Document.segments document in
  (exists trigger,
      nth_error segments 0 = Some trigger
      /\ nth_error segments 11
         = Some (Segment.mk 12 "N3" ["N3"; "1 MAIN ST"] 2 "N3*1 MAIN ST")
      /\ ConditionalRuleValidator.loop_segments_of (Some "N1") trigger segments
         = skipn 1 segments
      /\ List.length
           (ConditionalRuleValidator.loop_segments_of (Some "N1") trigger
                                                      segments) = 11%nat)
  /\ ConditionalRuleValidator.validate document [n1_requires_n3]
                                       ErrorCollector.new
     = (ErrorCollector.new, inr tt)
  /\ (forall within_loop trigger all_segments,
         (List.length
            (ConditionalRuleValidator.loop_scan within_loop
               (Segment.line trigger) all_segments [])
          <= 11)%nat).
Proof.
  split; [| split].
  - eexists. repeat split; vm_compute; reflexivity.
  - vm_compute. reflexivity.
  - intros. apply loop_scan_length. simpl. lia.
Qed.

(** ** The evaluators only append to the collector *)

Lemma extends_refl : forall c, extends c c.
Proof.
  intros c. repeat split; exists []; now rewrite app_nil_r.
Qed.

Lemma extends_trans :
  forall c1 c2 c3, extends c1 c2 -> extends c2 c3 -> extends c1 c3.
Proof.
  intros c1 c2 c3 [[e1 He1] [[w1 Hw1] [i1 Hi1]]] [[e2 He2] [[w2 Hw2] [i2 Hi2]]].
  repeat split.
  - exists (e1 ++ e2)%list. now rewrite He2, He1, app_assoc.
  - exists (w1 ++ w2)%list. now rewrite Hw2, Hw1, app_assoc.
  - exists (i1 ++ i2)%list. now rewrite Hi2, Hi1, app_assoc.
Qed.

Lemma extends_add_error :
  forall c rule_id severity message segment_id line_number element_position
         expected_value actual_value context,
    extends c
      (ErrorCollector.add_error c rule_id severity message segment_id
         line_number element_position expected_value actual_value context).
Proof.
  intros. unfold ErrorCollector.add_error.
  destruct (String.eqb (Py.upper severity) "ERROR");
    [| destruct (String.eqb (Py.upper severity) "WARNING")];
    repeat split; simpl;
      first [eexists; reflexivity | exists []; now rewrite app_nil_r].
Qed.

Lemma appends_only_ret : forall (A : Type) (a : A), appends_only (ret a).
Proof. intros A a c. apply extends_refl. Qed.

Lemma appends_only_raise :
  forall (A : Type) (e : exn), appends_only (@raise A e).
Proof. intros A e c. apply extends_refl. Qed.

Lemma appends_only_lift :
  forall (A : Type) (r : exn + A), appends_only (lift r).
Proof. intros A r c. apply extends_refl. Qed.

Lemma appends_only_key :
  forall (A : Type) name (o : option A), appends_only (key name o).
Proof. intros A name [a |] c; apply extends_refl. Qed.

Lemma appends_only_add_error :
  forall rule_id severity message segment_id line_number element_position
         expected_value actual_value context,
    appends_only
      (add_error rule_id severity message segment_id line_number
                 element_position expected_value actual_value context).
Proof. intros. intros c. apply extends_add_error. Qed.

Lemma appends_only_bind :
  forall (A B : Type) (m : M A) (f : A -> M B),
    appends_only m -> (forall a, appends_only (f a)) ->
    appends_only (bind m f).
Proof.
  intros A B m f Hm Hf c. unfold bind.
  specialize (Hm c). destruct (m c) as [c' [e | a]]; simpl in *.
  - exact Hm.
  - eapply extends_trans; [exact Hm | apply Hf].
Qed.

Lemma appends_only_when :
  forall b (body : M unit), appends_only body -> appends_only (when b body).
Proof.
  intros [|] body Hbody; [exact Hbody | apply appends_only_ret].
Qed.

Lemma appends_only_for_each :
  forall (A : Type) (l : list A) (body : A -> M unit),
    (forall x, appends_only (body x)) -> appends_only (for_each l body).
Proof.
  intros A l body Hbody. induction l as [| x l IH]; simpl.
  - apply appends_only_ret.
  - apply appends_only_bind; [apply Hbody | intros _; exact IH].
Qed.

Create HintDb appends discriminated.
#[local] Hint Resolve appends_only_ret appends_only_raise appends_only_lift
  appends_only_key appends_only_add_error appends_only_bind
  appends_only_when appends_only_for_each : appends.

(** Splits the goal along the shape of the computation. *)
Ltac appends :=
  repeat
    (intros;
     match goal with
     | |- appends_only (bind _ _) => apply appends_only_bind
     | |- appends_only (when _ _) => apply appends_only_when
     | |- appends_only (for_each _ _) => apply appends_only_for_each
     | |- appends_only (if ?b then _ else _) => destruct b
     | |- appends_only (match ?x with _ => _ end) => destruct x
     | |- appends_only _ => solve [auto with appends]
     end).

Lemma required_appends_only :
  forall parsed_edi rules,
    appends_only (RequiredSegmentValidator.validate parsed_edi rules).
Proof.
  intros. unfold RequiredSegmentValidator.validate,
    RequiredSegmentValidator.validate_rule.
  appends.
Qed.

Lemma element_appends_only :
  forall re_match parsed_edi rules,
    appends_only (ElementValidator.validate re_match parsed_edi rules).
Proof.
  intros. unfold ElementValidator.validate, ElementValidator.validate_rule,
    ElementValidator.validate_segment,
    ElementValidator._validate_element_value.
  appends.
Qed.

Lemma conditional_appends_only :
  forall parsed_edi rules,
    appends_only (ConditionalRuleValidator.validate parsed_edi rules).
Proof.
  intros. unfold ConditionalRuleValidator.validate,
    ConditionalRuleValidator.validate_segment,
    ConditionalRuleValidator._check_then_clause.
  appends.
Qed.

Lemma cross_segment_appends_only :
  forall parsed_edi rules,
    appends_only (CrossSegmentValidator.validate parsed_edi rules).
Proof.
  intros. unfold CrossSegmentValidator.validate,
    CrossSegmentValidator.validate_rule,
    CrossSegmentValidator._validate_count_match,
    CrossSegmentValidator.count_match_segment,
    CrossSegmentValidator._validate_element_match,
    CrossSegmentValidator.element_match_pair,
    CrossSegmentValidator.element_match_step,
    CrossSegmentValidator._validate_element_value_exists.
  appends.
Qed.

Lemma validator_of_appends_only :
  forall re_match c parsed_edi rules,
    appends_only (validator_of re_match c parsed_edi rules).
Proof.
  intros re_match c parsed_edi rules. destruct c; simpl.
  - apply required_appends_only.
  - apply element_appends_only.
  - apply conditional_appends_only.
  - apply cross_segment_appends_only.
Qed.

Lemma run_category_extends :
  forall re_match parsed_edi rules c self,
    extends self (run_category re_match parsed_edi rules c self).
Proof.
  intros re_match parsed_edi rules c self.
  unfold run_category, ValidationEngine._validate_category.
  destruct (ruleset_get rules c) as [| r rs]; [apply extends_refl |].
  pose proof (validator_of_appends_only re_match c parsed_edi (r :: rs) self)
    as Hv.
  destruct (validator_of re_match c parsed_edi (r :: rs) self)
    as [collector [e | u]]; simpl in Hv.
  - eapply extends_trans; [exact Hv |].
    apply extends_add_error.
  - exact Hv.
Qed.

Lemma extends_errors_In :
  forall c c' issue,
    extends c c' ->
    In issue (ErrorCollector.errors c) -> In issue (ErrorCollector.errors c').
Proof.
  intros c c' issue [[more Hmore] _] Hin. rewrite Hmore.
  apply in_or_app. now left.
Qed.

(** ** Exceptions at the category boundary *)

Lemma add_error_ERROR :
  forall c rule_id message segment_id line_number element_position
         expected_value actual_value context,
    ErrorCollector.add_error c rule_id "ERROR" message segment_id line_number
      element_position expected_value actual_value context
    = ErrorCollector.mk
        (ErrorCollector.errors c
           ++ [Issue.mk rule_id "ERROR" message segment_id line_number
                        element_position expected_value actual_value context])
        (ErrorCollector.warnings c) (ErrorCollector.info c).
Proof. reflexivity. Qed.

Lemma validate_category_raise :
  forall (validate : ValidationEngine.validator) parsed_edi rules
         category_name self collector e,
    rules <> [] ->
    validate parsed_edi rules self = (collector, inl e) ->
    ValidationEngine._validate_category validate parsed_edi rules
                                        category_name self
    = ErrorCollector.mk
        (ErrorCollector.errors collector ++ [system_issue category_name e])
        (ErrorCollector.warnings collector) (ErrorCollector.info collector).
Proof.
  intros validate parsed_edi rules category_name self collector e Hne Hraise.
  unfold ValidationEngine._validate_category.
  destruct rules as [| r rs]; [contradiction |]. now rewrite Hraise.
Qed.

Lemma validate_collector :
  forall re_match start_time end_time document ruleset,
    ValidationResult.error_collector
      (ValidationEngine.validate re_match start_time end_time document ruleset)
    = run_category re_match document ruleset cross_segment_rules
        (collector_before re_match document ruleset cross_segment_rules).
Proof. reflexivity. Qed.

Lemma In_errors_not_compliant :
  forall (r : ValidationResult.t) issue,
    In issue (ErrorCollector.errors (ValidationResult.error_collector r)) ->
    ValidationResult.is_compliant r = false.
Proof.
  intros r issue Hin.
  unfold ValidationResult.is_compliant, ErrorCollector.has_errors, Py.len.
  destruct (ErrorCollector.errors (ValidationResult.error_collector r));
    [contradiction | reflexivity].
Qed.

(** C7. When the evaluator of a category raises, [_validate_category]
    returns: to what the evaluator had collected it adds exactly one
    ERROR-severity issue, of rule id SYSTEM_ERROR, whose message names the
    category, and nothing else. [validate] is the four category runs in a
    row, each on the collector the previous one returned; so when the
    evaluator of any category raises in a run, the categories after it
    still run, [validate] returns a result, and that result holds the
    system issue of the category and is not compliant. *)
Theorem category_exception_is_caught :
  (forall (validate : ValidationEngine.validator) (parsed_edi : Document.t)
          (rules : list Rule.t) (category_name : string)
          (self collector : ErrorCollector.t) (e : exn),
      rules <> [] ->
      validate parsed_edi rules self = (collector, inl e) ->
      let after :=
        ValidationEngine._validate_category validate parsed_edi rules
                                            category_name self in
      ErrorCollector.errors after
      = (ErrorCollector.errors collector
           ++ [Issue.mk "SYSTEM_ERROR" "ERROR"
                 ("System error during " ++ category_name ++ " validation: "
                    ++ str_exn e)
                 None None None None None []])%list
      /\ ErrorCollector.warnings after = ErrorCollector.warnings collector
      /\ ErrorCollector.info after = ErrorCollector.info collector)
  /\ (forall re_match start_time end_time document ruleset,
         ValidationResult.error_collector
           (ValidationEngine.validate re_match start_time end_time document
                                      ruleset)
         = run_category re_match document ruleset cross_segment_rules
             (run_category re_match document ruleset conditional_rules
                (run_category re_match document ruleset element_rules
                   (run_category re_match document ruleset required_segments
                      ErrorCollector.new))))
  /\ (forall re_match start_time end_time document ruleset c collector e,
         ruleset_get ruleset c <> [] ->
         validator_of re_match c document (ruleset_get ruleset c)
                      (collector_before re_match document ruleset c)
         = (collector, inl e) ->
         let result :=
           ValidationEngine.validate re_match start_time end_time document
                                     ruleset in
         In (system_issue (category_name c) e)
            (ErrorCollector.errors (ValidationResult.error_collector result))
         /\ ValidationResult.is_compliant result = false).
Proof.
  split; [| split].
  - intros validate parsed_edi rules category_name self collector e Hne
           Hraise after.
    unfold after.
    rewrite (validate_category_raise validate parsed_edi rules category_name
               self collector e Hne Hraise).
    repeat split; reflexivity.
  - reflexivity.
  - intros re_match start_time end_time document ruleset c collector e Hne
           Hraise result.
    assert (Hin : In (system_issue (category_name c) e)
                     (ErrorCollector.errors
                        (ValidationResult.error_collector result))).
    { assert (Hrun : In (system_issue (category_name c) e)
                        (ErrorCollector.errors
                           (run_category re_match document ruleset c
                              (collector_before re_match document ruleset c)))).
      { unfold run_category.
        rewrite (validate_category_raise _ _ _ _ _ collector e Hne Hraise).
        simpl. apply in_or_app. right. now left. }
      unfold result. rewrite validate_collector.
      destruct c; simpl collector_before in *.
      - do 3 (eapply extends_errors_In; [apply run_category_extends |]).
        exact Hrun.
      - do 2 (eapply extends_errors_In; [apply run_category_extends |]).
        exact Hrun.
      - eapply extends_errors_In; [apply run_category_extends |]. exact Hrun.
      - exact Hrun. }
    split; [exact Hin | exact (In_errors_not_compliant result _ Hin)].
Qed.

Lemma category_exception_is_caught_witness :
  let document := document_of "ST*850*0001~BEG*00*NE~SE*2*0001~" in
  let after :=
    ValidationEngine._validate_category RequiredSegmentValidator.validate
      document [n1_required_no_id] "Required Segments" ErrorCollector.new in
  let result :=
    ValidationEngine.validate match_all 0 0 document
      (ruleset_of [n1_required_no_id] [beg03_required] [] []) in
  (ErrorCollector.errors after
   = [Issue.mk "SYSTEM_ERROR" "ERROR"
        "System error during Required Segments validation: 'rule_id'"
        None None None None None []]
   /\ ErrorCollector.warnings after = []
   /\ ErrorCollector.info after = [])
  /\ In (Issue.mk "SYSTEM_ERROR" "ERROR"
           "System error during Required Segments validation: 'rule_id'"
           None None None None None [])
        (ErrorCollector.errors (ValidationResult.error_collector result))
  /\ ValidationResult.is_compliant result = false.
Proof.
  intros document after result. split.
  - apply (proj1 category_exception_is_caught
             RequiredSegmentValidator.validate document [n1_required_no_id]
             "Required Segments" ErrorCollector.new ErrorCollector.new
             (KeyError "rule_id")).
    + discriminate.
    + vm_compute. reflexivity.
  - apply (proj2 (proj2 category_exception_is_caught) match_all 0 0 document
             (ruleset_of [n1_required_no_id] [beg03_required] [] [])
             required_segments ErrorCollector.new (KeyError "rule_id")).
    + discriminate.
    + vm_compute. reflexivity.
Defined.

(** The category after the one that raised still reports its issues. *)
Lemma validate_runs_after_exception :
  ValidationResult.get_all_issues
    (ValidationEngine.validate match_all 0 0
       (document_of "ST*850*0001~BEG*00*NE~SE*2*0001~")
       (ruleset_of [n1_required_no_id] [beg03_required] [] []))
  = [Issue.mk "SYSTEM_ERROR" "ERROR"
       "System error during Required Segments validation: 'rule_id'"
       None None None None None [];
     Issue.mk "ELEM_BEG03" "ERROR" "BEG03 is required but missing"
       (Some "BEG") (Some 2) (Some 3) None None []].
Proof. vm_compute. reflexivity. Qed.

(** X2. Every category run only appends to the collector: what was collected
    before it is kept, in order, whether the evaluator returns or
    raises. *)
Theorem category_run_appends_only :
  forall re_match parsed_edi rules c self,
    extends self (run_category re_match parsed_edi rules c self).
Proof. exact run_category_extends. Qed.

(** ** Cross-segment count match *)

Lemma get_all_errors_add_new :
  forall rule_id severity message segment_id line_number element_position
         expected_value actual_value context,
    ErrorCollector.get_all_errors
      (ErrorCollector.add_error ErrorCollector.new rule_id severity message
         segment_id line_number element_position expected_value actual_value
         context)
    = [Issue.mk rule_id (Py.upper severity) message segment_id line_number
                element_position expected_value actual_value context].
Proof.
  intros. unfold ErrorCollector.add_error, ErrorCollector.get_all_errors.
  destruct (String.eqb (Py.upper severity) "ERROR"); [reflexivity |].
  destruct (String.eqb (Py.upper severity) "WARNING"); reflexivity.
Qed.

(** What the evaluators do once the rule's id and severity are read. *)
Lemma report_with_keys :
  forall rule rule_id severity message segment_id line_number
         element_position expected_value actual_value context c,
    Rule.rule_id rule = Some rule_id ->
    Rule.severity rule = Some severity ->
    (rule_id' <- key "rule_id" (Rule.rule_id rule) ;;
     severity' <- key "severity" (Rule.severity rule) ;;
     add_error rule_id' severity' message segment_id line_number
       element_position expected_value actual_value context) c
    = (ErrorCollector.add_error c rule_id severity message segment_id
         line_number element_position expected_value actual_value context,
       inr tt).
Proof.
  intros ? ? ? ? ? ? ? ? ? ? c Hid Hsev. rewrite Hid, Hsev. reflexivity.
Qed.

Lemma count_match_segment_invalid :
  forall rule logic source_count target_element target_seg e rule_id severity
         c,
    Rule.rule_id rule = Some rule_id ->
    Rule.severity rule = Some severity ->
    target_element < Py.len (Segment.elements target_seg) ->
    item (Segment.elements target_seg) target_element = inr e ->
    Py.int_str (Py.strip e) = None ->
    CrossSegmentValidator.count_match_segment rule logic source_count
      target_element target_seg c
    = (ErrorCollector.add_error c rule_id severity
         (Py.fmt_opt (ValidationLogic.target_segment logic)
            ++ Py.fmt02 target_element ++ " contains invalid count value")
         (ValidationLogic.target_segment logic)
         (Some (Segment.line target_seg)) (Some target_element) None
         (Some (Py.strip e)) [],
       inr tt).
Proof.
  intros rule logic source_count target_element target_seg e rule_id severity
         c Hid Hsev Hlt Hitem Hint.
  unfold CrossSegmentValidator.count_match_segment.
  apply Z.ltb_lt in Hlt. rewrite Hlt.
  unfold bind at 1. unfold lift. rewrite Hitem, Hint.
  now apply report_with_keys.
Qed.

Lemma count_match_segment_mismatch :
  forall rule logic source_count target_element target_seg e declared rule_id
         severity c,
    Rule.rule_id rule = Some rule_id ->
    Rule.severity rule = Some severity ->
    target_element < Py.len (Segment.elements target_seg) ->
    item (Segment.elements target_seg) target_element = inr e ->
    Py.int_str (Py.strip e) = Some declared ->
    declared <> source_count ->
    CrossSegmentValidator.count_match_segment rule logic source_count
      target_element target_seg c
    = (ErrorCollector.add_error c rule_id severity
         (ConditionalRuleValidator.message_or (ValidationLogic.message logic)
            (Py.fmt_opt (ValidationLogic.target_segment logic)
               ++ Py.fmt02 target_element ++ " count mismatch"))
         (ValidationLogic.target_segment logic)
         (Some (Segment.line target_seg)) (Some target_element)
         (Some (Py.str_Z source_count)) (Some (Py.strip e)) [],
       inr tt).
Proof.
  intros rule logic source_count target_element target_seg e declared rule_id
         severity c Hid Hsev Hlt Hitem Hint Hneq.
  unfold CrossSegmentValidator.count_match_segment.
  apply Z.ltb_lt in Hlt. rewrite Hlt.
  unfold bind at 1. unfold lift. rewrite Hitem, Hint.
  apply Z.eqb_neq in Hneq. rewrite Hneq. simpl negb. unfold when.
  now apply report_with_keys.
Qed.

(** C8. Count match: on a document with exactly two source segments and
    one target segment whose counted element reads ["3"], validating the
    rule returns having added exactly one issue, the mismatch, with
    expected value ["2"] and actual value ["3"]; and for a target segment
    whose counted element does not parse as an integer, the evaluator adds
    one invalid-value issue for that segment and raises nothing. *)
Theorem count_match_issues :
  (forall parsed_edi rule rule_id severity target_seg target_element e,
      let logic := Rule.validation_logic rule in
      let segments := Document.segments parsed_edi in
      ValidationLogic.type logic = Some "count_match" ->
      Rule.rule_id rule = Some rule_id ->
      Rule.severity rule = Some severity ->
      py_int_default0 (ValidationLogic.target_element logic)
      = inr target_element ->
      Py.len (segments_with_id segments (ValidationLogic.source_segment logic))
      = 2 ->
      segments_with_id segments (ValidationLogic.target_segment logic)
      = [target_seg] ->
      target_element < Py.len (Segment.elements target_seg) ->
      item (Segment.elements target_seg) target_element = inr e ->
      Py.strip e = "3" ->
      let message :=
        ConditionalRuleValidator.message_or (ValidationLogic.message logic)
          (Py.fmt_opt (ValidationLogic.target_segment logic)
             ++ Py.fmt02 target_element ++ " count mismatch") in
      exists collector,
        CrossSegmentValidator.validate parsed_edi [rule] ErrorCollector.new
        = (collector, inr tt)
        /\ CrossSegmentValidator._validate_count_match rule segments logic
                                                       ErrorCollector.new
           = (collector, inr tt)
        /\ ErrorCollector.get_all_errors collector
           = [Issue.mk rule_id (Py.upper severity) message
                (ValidationLogic.target_segment logic)
                (Some (Segment.line target_seg)) (Some target_element)
                (Some "2") (Some "3") []])
  /\ (forall rule logic source_count target_element target_seg e rule_id
             severity c,
         Rule.rule_id rule = Some rule_id ->
         Rule.severity rule = Some severity ->
         target_element < Py.len (Segment.elements target_seg) ->
         item (Segment.elements target_seg) target_element = inr e ->
         Py.int_str (Py.strip e) = None ->
         CrossSegmentValidator.count_match_segment rule logic source_count
           target_element target_seg c
         = (ErrorCollector.add_error c rule_id severity
              (Py.fmt_opt (ValidationLogic.target_segment logic)
                 ++ Py.fmt02 target_element ++ " contains invalid count value")
              (ValidationLogic.target_segment logic)
              (Some (Segment.line target_seg)) (Some target_element) None
              (Some (Py.strip e)) [],
            inr tt)).
Proof.
  split.
  - intros parsed_edi rule rule_id severity target_seg target_element e logic
           segments Htype Hid Hsev Hpos Hsrc Htgt Hlt Hitem Hthree message.
    assert (Hcount :
              CrossSegmentValidator._validate_count_match rule segments logic
                                                          ErrorCollector.new
              = (ErrorCollector.add_error ErrorCollector.new rule_id severity
                   message (ValidationLogic.target_segment logic)
                   (Some (Segment.line target_seg)) (Some target_element)
                   (Some (Py.str_Z 2)) (Some (Py.strip e)) [],
                 inr tt)).
    { unfold CrossSegmentValidator._validate_count_match.
      unfold bind at 1. unfold lift. rewrite Hpos, Hsrc, Htgt.
      unfold for_each. unfold bind at 1.
      rewrite (count_match_segment_mismatch rule logic 2 target_element
                 target_seg e 3 rule_id severity ErrorCollector.new
                 Hid Hsev Hlt Hitem);
        [reflexivity | now rewrite Hthree | discriminate]. }
    eexists. split; [| split; [exact Hcount |]].
    + unfold CrossSegmentValidator.validate, for_each,
        CrossSegmentValidator.validate_rule.
      fold logic. rewrite Htype. simpl Py.opt_eqb. cbv iota.
      fold segments. unfold bind at 1. rewrite Hcount. reflexivity.
    + rewrite get_all_errors_add_new, Hthree. reflexivity.
  - intros. now apply count_match_segment_invalid.
Qed.

Lemma count_match_issues_witness :
  (exists collector,
      CrossSegmentValidator.validate (document_of "PO1*1*10~PO1*2*5~CTT*3~")
                                     [ctt_counts_po1] ErrorCollector.new
      = (collector, inr tt)
      /\ ErrorCollector.get_all_errors collector
         = [Issue.mk "CROSS_CTT_PO1" "ERROR" "CTT01 count mismatch"
              (Some "CTT") (Some 3) (Some 1) (Some "2") (Some "3") []])
  /\ CrossSegmentValidator.count_match_segment ctt_counts_po1
       (Rule.validation_logic ctt_counts_po1) 2 1
       (Segment.mk 3 "CTT" ["CTT"; " two "] 2 "CTT* two ") ErrorCollector.new
     = (ErrorCollector.mk
          [Issue.mk "CROSS_CTT_PO1" "ERROR" "CTT01 contains invalid count value"
             (Some "CTT") (Some 3) (Some 1) None (Some "two") []] [] [],
        inr tt).
Proof.
  split.
  - destruct (proj1 count_match_issues
                (document_of "PO1*1*10~PO1*2*5~CTT*3~") ctt_counts_po1
                "CROSS_CTT_PO1" "ERROR"
                (Segment.mk 3 "CTT" ["CTT"; "3"] 2 "CTT*3") 1 "3")
      as [collector [Hrun [_ Hissues]]]; try reflexivity.
    exists collector. split; [exact Hrun | exact Hissues].
  - apply (proj2 count_match_issues ctt_counts_po1
             (Rule.validation_logic ctt_counts_po1) 2 1
             (Segment.mk 3 "CTT" ["CTT"; " two "] 2 "CTT* two ") " two "
             "CROSS_CTT_PO1" "ERROR" ErrorCollector.new);
      reflexivity.
Defined.

(** ** Required segments *)

Lemma find_matching_none :
  forall segments segment_id element_filters,
    segments_with_id segments segment_id = [] ->
    RequiredSegmentValidator._find_matching_segments segments segment_id
                                                     element_filters
    = inr [].
Proof.
  unfold segments_with_id.
  induction segments as [| s segments IH]; intros segment_id filters Hnone;
    simpl in *.
  - reflexivity.
  - destruct (Py.opt_eqb segment_id (Segment.segment_id s)); [discriminate |].
    simpl. now apply IH.
Qed.

(** C9. A required-segment rule of minimum 1 without a maximum, on a
    document in which no segment matches the rule's segment id and
    filters, adds exactly one issue: its actual value is ["0"], its
    expected value reports the minimum, and the evaluator returns. *)
Theorem missing_required_segment_reported :
  forall (parsed_edi : Document.t) (rule : Rule.t)
         (rule_id severity description : string),
    Rule.rule_id rule = Some rule_id ->
    Rule.severity rule = Some severity ->
    Rule.description rule = Some description ->
    Rule.min_occurrences rule = Some 1 ->
    Rule.max_occurrences rule = None ->
    RequiredSegmentValidator._find_matching_segments
      (Document.segments parsed_edi) (Rule.segment_id rule)
      (Rule.element_filters rule)
    = inr [] ->
    let message := description ++ " (found 0, expected at least 1)" in
    (forall c,
        RequiredSegmentValidator.validate_rule (Document.segments parsed_edi)
                                               rule c
        = (ErrorCollector.add_error c rule_id severity message
             (Rule.segment_id rule) None None (Some "min 1") (Some "0") [],
           inr tt))
    /\ exists collector,
        RequiredSegmentValidator.validate parsed_edi [rule] ErrorCollector.new
        = (collector, inr tt)
        /\ ErrorCollector.get_all_errors collector
           = [Issue.mk rule_id (Py.upper severity) message
                (Rule.segment_id rule) None None (Some "min 1") (Some "0") []].
Proof.
  intros parsed_edi rule rule_id severity description Hid Hsev Hdesc Hmin Hmax
         Hnone message.
  assert (Hrule :
            forall c,
              RequiredSegmentValidator.validate_rule
                (Document.segments parsed_edi) rule c
              = (ErrorCollector.add_error c rule_id severity message
                   (Rule.segment_id rule) None None (Some "min 1") (Some "0")
                   [],
                 inr tt)).
  { intros c. unfold RequiredSegmentValidator.validate_rule.
    rewrite Hmin, Hmax, Hid, Hsev, Hdesc.
    unfold bind at 1. unfold lift. rewrite Hnone. reflexivity. }
  split; [exact Hrule |].
  eexists. split.
  - unfold RequiredSegmentValidator.validate, for_each.
    unfold bind. rewrite Hrule. reflexivity.
  - apply get_all_errors_add_new.
Qed.

Lemma missing_required_segment_reported_witness :
  exists collector,
    RequiredSegmentValidator.validate
      (document_of "ST*850*0001~BEG*00*NE*PO123456**20231215~SE*1*0001~")
      [n1_required] ErrorCollector.new
    = (collector, inr tt)
    /\ ErrorCollector.get_all_errors collector
       = [Issue.mk "850_REQ_N1" "ERROR"
            "N1 segment is required (found 0, expected at least 1)"
            (Some "N1") None None (Some "min 1") (Some "0") []].
Proof.
  apply (missing_required_segment_reported
           (document_of "ST*850*0001~BEG*00*NE*PO123456**20231215~SE*1*0001~")
           n1_required "850_REQ_N1" "ERROR" "N1 segment is required");
    reflexivity.
Defined.

(** ** Cross-segment element match *)

Lemma combine_app_l :
  forall (A B : Type) (l1 extra : list A) (l2 : list B),
    (List.length l2 <= List.length l1)%nat ->
    combine (l1 ++ extra) l2 = combine l1 l2.
Proof.
  induction l1 as [| a l1 IH]; intros extra l2 Hlen; simpl in *.
  - destruct l2; [now destruct extra | simpl in Hlen; lia].
  - destruct l2 as [| b l2]; [reflexivity |].
    simpl in Hlen. f_equal. apply IH. lia.
Qed.

Lemma combine_app_r :
  forall (A B : Type) (l1 : list A) (l2 extra : list B),
    (List.length l1 <= List.length l2)%nat ->
    combine l1 (l2 ++ extra) = combine l1 l2.
Proof.
  induction l1 as [| a l1 IH]; intros l2 extra Hlen; simpl in *.
  - reflexivity.
  - destruct l2 as [| b l2]; [simpl in Hlen; lia |].
    simpl in *. f_equal. apply IH. lia.
Qed.

Lemma segments_with_id_app :
  forall segments extra segment_id,
    segments_with_id (segments ++ extra) segment_id
    = (segments_with_id segments segment_id
         ++ segments_with_id extra segment_id)%list.
Proof. intros. unfold segments_with_id. apply filter_app. Qed.

Lemma segments_with_id_all :
  forall extra segment_id,
    Forall (fun s => Py.opt_eqb segment_id (Segment.segment_id s) = true)
           extra ->
    segments_with_id extra segment_id = extra.
Proof.
  unfold segments_with_id.
  induction extra as [| s extra IH]; intros segment_id Hall; simpl.
  - reflexivity.
  - inversion Hall as [| ? ? Hs Hrest]; subst. rewrite Hs. f_equal.
    now apply IH.
Qed.

Lemma segments_with_id_none :
  forall extra segment_id,
    Forall (fun s => Py.opt_eqb segment_id (Segment.segment_id s) = false)
           extra ->
    segments_with_id extra segment_id = [].
Proof.
  unfold segments_with_id.
  induction extra as [| s extra IH]; intros segment_id Hall; simpl.
  - reflexivity.
  - inversion Hall as [| ? ? Hs Hrest]; subst. rewrite Hs. now apply IH.
Qed.

(** An unpaired trailing occurrence is not compared, a paired one is. *)
Lemma element_match_examples :
  CrossSegmentValidator.validate
    (document_of "BEG*00*NE*PO1~REF*ZZ*PO1~BEG*00*NE*PO2~")
    [beg03_matches_ref02] ErrorCollector.new
  = (ErrorCollector.new, inr tt)
  /\ CrossSegmentValidator.validate
       (document_of "BEG*00*NE*PO1~REF*ZZ*PO9~")
       [beg03_matches_ref02] ErrorCollector.new
     = (ErrorCollector.mk []
          [Issue.mk "CROSS_BEG_REF" "WARNING" "BEG03 and REF02 must match"
             (Some "REF") (Some 2) (Some 2) (Some "PO1") (Some "PO9") []] [],
        inr tt).
Proof. split; vm_compute; reflexivity. Qed.

(** ** The document builder *)

Lemma parse_segments_from_spec :
  forall segments line_number,
    map Segment.raw (parse_segments_from line_number segments) = segments
    /\ map Segment.line (parse_segments_from line_number segments)
       = map (fun i => line_number + Z.of_nat i)
             (seq 0 (List.length segments))
    /\ Forall (fun s =>
                 Segment.elements s = split_elements (Segment.raw s)
                 /\ nth_error (Segment.elements s) 0
                    = Some (Segment.segment_id s)
                 /\ Segment.element_count s = Py.len (Segment.elements s))
              (parse_segments_from line_number segments).
Proof.
  induction segments as [| segment_str rest IH]; intros line_number; simpl.
  - repeat split; constructor.
  - pose proof (split_not_nil ELEMENT_SEPARATOR segment_str) as Hnil.
    change (Py.split ELEMENT_SEPARATOR segment_str)
      with (split_elements segment_str) in Hnil.
    destruct (split_elements segment_str) as [| e0 es] eqn:Hsplit;
      [contradiction |].
    destruct (IH (line_number + 1)) as [Hraw [Hline Hall]].
    simpl. split; [| split].
    + now rewrite Hraw.
    + rewrite Hline, Z.add_0_r. f_equal.
      rewrite <- seq_shift, map_map. apply map_ext.
      intros i. lia.
    + constructor; [| exact Hall]. simpl. rewrite Hsplit. repeat split.
Qed.

(** X3. A parsed document numbers its segments 1, 2, ... in parse order, keeps
    the segment strings in order, and gives each segment the elements of
    its string, the first of them as its identifier. *)
Theorem parse_text_segments :
  forall text document,
    parse_text text = inr document ->
    let segments := split_segments (normalize_edi_text text) in
    map Segment.raw (Document.segments document) = segments
    /\ map Segment.line (Document.segments document)
       = map (fun i => 1 + Z.of_nat i) (seq 0 (List.length segments))
    /\ Forall (fun s =>
                 Segment.elements s = split_elements (Segment.raw s)
                 /\ nth_error (Segment.elements s) 0
                    = Some (Segment.segment_id s)
                 /\ Segment.element_count s = Py.len (Segment.elements s))
              (Document.segments document).
Proof.
  intros text document Hparse segments. unfold parse_text in Hparse.
  destruct (negb (Py.truthy text) || negb (Py.truthy (Py.strip text)));
    [discriminate |].
  fold segments in Hparse.
  destruct segments as [| s0 rest] eqn:Hsegs; [discriminate |].
  injection Hparse as <-. simpl Document.segments.
  apply parse_segments_from_spec.
Qed.

Lemma parse_text_segments_witness :
  exists document,
    parse_text "ST*850*0001~BEG*00*NE~SE*2*0001~" = inr document
    /\ map Segment.raw (Document.segments document)
       = ["ST*850*0001"; "BEG*00*NE"; "SE*2*0001"]
    /\ map Segment.line (Document.segments document) = [1; 2; 3].
Proof.
  eexists. split; [reflexivity |].
  destruct (parse_text_segments "ST*850*0001~BEG*00*NE~SE*2*0001~" _ eq_refl)
    as [Hraw [Hline _]].
  split; [exact Hraw | exact Hline].
Defined.

(** ** End to end *)

(** An instance: the interchange of the specification's scenario, validated against a
    ruleset that requires one [N1] segment: one ERROR issue, about [N1], no
    other issue, and a complete envelope. *)
Lemma end_to_end_scenario :
  let document :=
    document_of
      "ISA*00*...~GS*PO*...~ST*850*0001~BEG*00*NE*PO123456**20231215~SE*1*0001~GE*1*1~IEA*1*000000001~" in
  let result :=
    ValidationEngine.validate match_all 0 0 document
                              (ruleset_of [n1_required] [] [] []) in
  ValidationResult.get_all_issues result
  = [Issue.mk "850_REQ_N1" "ERROR"
       "N1 segment is required (found 0, expected at least 1)"
       (Some "N1") None None (Some "min 1") (Some "0") []]
  /\ ValidationResult.error_count result = 1
  /\ ValidationResult.is_compliant result = false
  /\ Statistics.has_envelope (Document.statistics document) = true
  /\ map Segment.line (Document.segments document) = [1; 2; 3; 4; 5; 6; 7].
Proof. vm_compute. repeat split; reflexivity. Qed.

(* ===================================================================== *)
(** * Further properties of the parser *)
(* ===================================================================== *)

(** ** Stripping *)

Lemma lstrip_starts : forall s, starts_nonspace (Py.lstrip s) = true.
Proof.
  induction s as [| c s IH]; simpl.
  - reflexivity.
  - destruct (Py.is_space c) eqn:Hc; [exact IH | simpl; now rewrite Hc].
Qed.

Lemma lstrip_id : forall s, starts_nonspace s = true -> Py.lstrip s = s.
Proof.
  intros [| c s] H; simpl in *; [reflexivity |].
  now destruct (Py.is_space c).
Qed.

Lemma rstrip_cons :
  forall c s,
    Py.rstrip (String c s)
    = match Py.rstrip s with
      | EmptyString =>
          if Py.is_space c then EmptyString else String c EmptyString
      | r => String c r
      end.
Proof. reflexivity. Qed.

Lemma ends_nonspace_cons :
  forall c d s,
    ends_nonspace (String c (String d s)) = ends_nonspace (String d s).
Proof. reflexivity. Qed.

Lemma rstrip_ends : forall s, ends_nonspace (Py.rstrip s) = true.
Proof.
  induction s as [| c s IH]; [reflexivity |].
  rewrite rstrip_cons.
  destruct (Py.rstrip s) as [| d r].
  - destruct (Py.is_space c) eqn:Hc; simpl; now rewrite ?Hc.
  - now rewrite ends_nonspace_cons.
Qed.

Lemma rstrip_id : forall s, ends_nonspace s = true -> Py.rstrip s = s.
Proof.
  induction s as [| c s IH]; intros H; [reflexivity |].
  rewrite rstrip_cons.
  destruct s as [| d r].
  - simpl in *. now destruct (Py.is_space c).
  - rewrite ends_nonspace_cons in H. now rewrite (IH H).
Qed.

Lemma rstrip_starts :
  forall s, starts_nonspace s = true -> starts_nonspace (Py.rstrip s) = true.
Proof.
  intros [| c s] H; [reflexivity |].
  rewrite rstrip_cons. simpl in H.
  destruct (Py.rstrip s); [| exact H].
  destruct (Py.is_space c) eqn:Hc; simpl; [reflexivity | now rewrite Hc].
Qed.

Lemma strip_starts : forall s, starts_nonspace (Py.strip s) = true.
Proof. intros s. apply rstrip_starts, lstrip_starts. Qed.

Lemma strip_ends : forall s, ends_nonspace (Py.strip s) = true.
Proof. intros s. apply rstrip_ends. Qed.

Lemma strip_id :
  forall s,
    starts_nonspace s = true -> ends_nonspace s = true -> Py.strip s = s.
Proof.
  intros s Hs He. unfold Py.strip. now rewrite (lstrip_id s Hs), rstrip_id.
Qed.

Lemma strip_idem : forall s, Py.strip (Py.strip s) = Py.strip s.
Proof. intros s. apply strip_id; [apply strip_starts | apply strip_ends]. Qed.

Lemma strip_fixed_shape :
  forall s,
    Py.strip s = s -> starts_nonspace s = true /\ ends_nonspace s = true.
Proof.
  intros s H. rewrite <- H. split; [apply strip_starts | apply strip_ends].
Qed.

(** Stripping brings in no character. *)
Lemma lstrip_free :
  forall c s, separator_free c s -> separator_free c (Py.lstrip s).
Proof.
  intros c. induction s as [| d s IH]; intros H; simpl.
  - exact H.
  - destruct (Py.is_space d); [| exact H].
    apply IH. now apply separator_free_cons in H as [_ H].
Qed.

Lemma separator_free_String :
  forall sep c s,
    Ascii.eqb c sep = false -> separator_free sep s ->
    separator_free sep (String c s).
Proof.
  intros sep c s Hc Hs. unfold separator_free, Py.contains_char in *. simpl.
  now rewrite Ascii.eqb_sym, Hc, Hs.
Qed.

Lemma rstrip_free :
  forall c s, separator_free c s -> separator_free c (Py.rstrip s).
Proof.
  intros c. induction s as [| d s IH]; intros H; [exact H |].
  apply separator_free_cons in H as [Hd Hs].
  rewrite rstrip_cons. specialize (IH Hs).
  destruct (Py.rstrip s) as [| e r].
  - destruct (Py.is_space d); [reflexivity |].
    now apply separator_free_String.
  - now apply separator_free_String.
Qed.

Lemma strip_free :
  forall c s, separator_free c s -> separator_free c (Py.strip s).
Proof. intros c s H. now apply rstrip_free, lstrip_free. Qed.

Lemma tidy_pieces :
  forall sep pieces,
    Forall (separator_free sep) pieces ->
    Forall (tidy sep)
           (map Py.strip
                (filter (fun p => Py.truthy (Py.strip p)) pieces)).
Proof.
  intros sep pieces Hall. induction Hall as [| p pieces Hp _ IH]; simpl.
  - constructor.
  - destruct (Py.truthy (Py.strip p)) eqn:Ht; [| exact IH].
    simpl. constructor; [| exact IH].
    repeat split.
    + intros E. rewrite E in Ht. discriminate.
    + apply strip_idem.
    + now apply strip_free.
Qed.

(** X4. A segment string returned by [split_segments] is never empty, has
    no white space at either end and holds no terminator, whatever the
    text. *)
Theorem split_segments_tidy :
  forall (segment_terminator : ascii) (edi_text : string),
    Forall (tidy segment_terminator)
           (split_segments_with segment_terminator edi_text).
Proof.
  intros sep text. unfold split_segments_with.
  apply tidy_pieces, split_separator_free.
Qed.

(** ** Normalisation *)

Lemma replace_cr_free : forall s, separator_free Py.CR (Py.replace_cr s).
Proof.
  induction s as [| c s IH]; [reflexivity |].
  simpl. apply separator_free_String; [| exact IH].
  destruct (Ascii.eqb c Py.CR) eqn:Hc; [reflexivity | exact Hc].
Qed.

Lemma replace_cr_id :
  forall s, separator_free Py.CR s -> Py.replace_cr s = s.
Proof.
  induction s as [| c s IH]; intros H; [reflexivity |].
  apply separator_free_cons in H as [Hc Hs].
  simpl. now rewrite Hc, (IH Hs).
Qed.

Lemma replace_crlf_id :
  forall s, separator_free Py.CR s -> Py.replace_crlf s = s.
Proof.
  induction s as [| c s IH]; intros H; [reflexivity |].
  apply separator_free_cons in H as [Hc Hs].
  destruct s as [| d s']; [reflexivity |].
  rewrite replace_crlf_cons, Hc. cbn [andb]. now rewrite (IH Hs).
Qed.

Lemma split_pieces_free :
  forall c sep s,
    separator_free c s -> Forall (separator_free c) (Py.split sep s).
Proof.
  intros c sep. induction s as [| d s IH]; intros H; simpl.
  - repeat constructor.
  - apply separator_free_cons in H as [Hd Hs]. specialize (IH Hs).
    destruct (Ascii.eqb d sep).
    + constructor; [reflexivity | exact IH].
    + destruct (Py.split sep s) as [| f fs].
      * constructor; [| constructor]. now apply separator_free_String.
      * inversion IH; subst. constructor; [| assumption].
        now apply separator_free_String.
Qed.

Lemma free_pieces :
  forall c (keep : string -> bool) pieces,
    Forall (separator_free c) pieces ->
    Forall (separator_free c) (map Py.strip (filter keep pieces)).
Proof.
  intros c keep pieces Hall. induction Hall as [| p pieces Hp _ IH]; simpl.
  - constructor.
  - destruct (keep p); [| exact IH].
    simpl. constructor; [now apply strip_free | exact IH].
Qed.

Lemma separator_free_app :
  forall c a b,
    separator_free c a -> separator_free c b -> separator_free c (a ++ b).
Proof.
  intros c. induction a as [| d a IH]; intros b Ha Hb; [exact Hb |].
  apply separator_free_cons in Ha as [Hd Ha].
  simpl. apply separator_free_String; [exact Hd | now apply IH].
Qed.

Lemma concat_cons2 :
  forall sep x y r,
    String.concat sep (x :: y :: r)
    = (x ++ sep ++ String.concat sep (y :: r))%string.
Proof. reflexivity. Qed.

Lemma join_free :
  forall c sep lines,
    Ascii.eqb sep c = false ->
    Forall (separator_free c) lines ->
    separator_free c (Py.join (String sep EmptyString) lines).
Proof.
  intros c sep lines Hsep Hall. unfold Py.join.
  induction Hall as [| x lines Hx Hall IH]; [reflexivity |].
  destruct lines as [| y r]; [exact Hx |].
  rewrite concat_cons2. apply separator_free_app; [exact Hx |].
  apply separator_free_String; [exact Hsep | exact IH].
Qed.

Lemma starts_nonspace_app :
  forall a b,
    a <> EmptyString -> starts_nonspace a = true ->
    starts_nonspace (a ++ b) = true.
Proof. intros [| c a] b Hne H; [contradiction | exact H]. Qed.

Lemma ends_nonspace_app :
  forall a b,
    b <> EmptyString -> ends_nonspace (a ++ b) = ends_nonspace b.
Proof.
  induction a as [| c a IH]; intros b Hne; [reflexivity |].
  simpl append. specialize (IH b Hne).
  destruct (a ++ b)%string as [| d r] eqn:E.
  - destruct a; [simpl in E; contradiction | discriminate].
  - now rewrite ends_nonspace_cons.
Qed.

Lemma join_tidy_nonempty :
  forall c sep x lines,
    tidy c x ->
    Py.join (String sep EmptyString) (x :: lines) <> EmptyString.
Proof.
  intros c sep [| d x] lines [Hne _]; [contradiction |].
  unfold Py.join. destruct lines; simpl; discriminate.
Qed.

Lemma join_tidy_shape :
  forall c sep lines,
    Forall (tidy c) lines ->
    starts_nonspace (Py.join (String sep EmptyString) lines) = true
    /\ ends_nonspace (Py.join (String sep EmptyString) lines) = true.
Proof.
  intros c sep lines Hall.
  induction Hall as [| x lines Hx Hall IH]; [split; reflexivity |].
  destruct Hx as [Hne [Hstrip Hfree]].
  destruct (strip_fixed_shape x Hstrip) as [Hs He].
  destruct lines as [| y r]; [split; assumption |].
  unfold Py.join in *. rewrite concat_cons2. split.
  - now apply starts_nonspace_app.
  - rewrite ends_nonspace_app.
    + cbn [append].
      inversion Hall as [| y' r' Hy _]; subst.
      pose proof (join_tidy_nonempty c sep y r Hy) as Hj.
      unfold Py.join in Hj.
      destruct (String.concat (String sep EmptyString) (y :: r)) eqn:E;
        [contradiction |].
      rewrite ends_nonspace_cons. exact (proj2 IH).
    + discriminate.
Qed.

Lemma tidy_lines_fixed :
  forall c lines,
    Forall (tidy c) lines ->
    map Py.strip (filter (fun p => Py.truthy (Py.strip p)) lines) = lines.
Proof.
  intros c lines Hall. induction Hall as [| x lines Hx _ IH]; [reflexivity |].
  destruct Hx as [Hne [Hstrip _]]. simpl. rewrite Hstrip.
  destruct x; [contradiction |]. simpl. rewrite Hstrip. now rewrite IH.
Qed.

(** The text returned by [normalize_edi_text] is a list of non-empty
    stripped lines, without carriage return, joined by line feeds. *)
Lemma normalize_shape :
  forall raw_text,
    exists lines,
      normalize_edi_text raw_text = Py.join (String Py.LF EmptyString) lines
      /\ Forall (tidy Py.LF) lines
      /\ Forall (separator_free Py.CR) lines.
Proof.
  intros raw_text. unfold normalize_edi_text. eexists. split; [reflexivity |].
  split.
  - apply tidy_pieces, split_separator_free.
  - apply free_pieces, split_pieces_free, replace_cr_free.
Qed.

Lemma normalize_lines :
  forall lines,
    Forall (tidy Py.LF) lines ->
    Forall (separator_free Py.CR) lines ->
    normalize_edi_text (Py.join (String Py.LF EmptyString) lines)
    = Py.join (String Py.LF EmptyString) lines.
Proof.
  intros lines Htidy Hcr.
  destruct lines as [| x lines]; [reflexivity |].
  unfold normalize_edi_text.
  destruct (join_tidy_shape Py.LF Py.LF (x :: lines) Htidy) as [Hs He].
  rewrite (strip_id _ Hs He).
  assert (Hfree : separator_free Py.CR
                    (Py.join (String Py.LF EmptyString) (x :: lines)))
    by (apply join_free; [reflexivity | exact Hcr]).
  rewrite (replace_crlf_id _ Hfree), (replace_cr_id _ Hfree).
  rewrite split_join.
  - now rewrite (tidy_lines_fixed Py.LF).
  - discriminate.
  - eapply Forall_impl; [| exact Htidy]. intros l Hl. apply Hl.
Qed.

Lemma normalize_idempotent :
  forall raw_text,
    normalize_edi_text (normalize_edi_text raw_text)
    = normalize_edi_text raw_text.
Proof.
  intros raw_text.
  destruct (normalize_shape raw_text) as [lines [-> [Htidy Hcr]]].
  now apply normalize_lines.
Qed.

(** X5. Normalising is idempotent, so the segments are the same whether the
    text is normalised beforehand or not; a parsed document's segment
    strings are those of [split_segments] on the text as given. *)
Theorem normalize_twice :
  forall (segment_terminator : ascii) (edi_text : string),
    normalize_edi_text (normalize_edi_text edi_text)
    = normalize_edi_text edi_text
    /\ split_segments_with segment_terminator (normalize_edi_text edi_text)
       = split_segments_with segment_terminator edi_text
    /\ (forall document,
           parse_text edi_text = inr document ->
           map Segment.raw (Document.segments document)
           = split_segments edi_text).
Proof.
  intros sep text. split; [apply normalize_idempotent |].
  split.
  - unfold split_segments_with. now rewrite normalize_idempotent.
  - intros document Hparse. unfold parse_text in Hparse.
    destruct (negb (Py.truthy text) || negb (Py.truthy (Py.strip text)));
      [discriminate |].
    assert (E : split_segments (normalize_edi_text text)
                = split_segments text)
      by (unfold split_segments, split_segments_with;
          now rewrite normalize_idempotent).
    rewrite E in Hparse.
    destruct (split_segments text) as [| s0 rest] eqn:Hsegs;
      [discriminate |].
    injection Hparse as <-. simpl Document.segments.
    apply (proj1 (parse_segments_from_spec (s0 :: rest) 1)).
Qed.

(** ** Dictionaries of counts *)

Lemma count_incr_od_set :
  forall k d,
    count_incr k d
    = od_set k (match od_get k d with Some n => n + 1 | None => 1 end) d.
Proof.
  intros k. induction d as [| [k' n] d IH]; [reflexivity |].
  simpl. destruct (String.eqb k' k); [reflexivity | now rewrite IH].
Qed.

Lemma count_incr_get :
  forall k k' d,
    od_get k' (count_incr k d)
    = if String.eqb k k'
      then Some (match od_get k d with Some n => n + 1 | None => 1 end)
      else od_get k' d.
Proof. intros k k' d. rewrite count_incr_od_set. apply od_get_set. Qed.

Lemma count_incr_total :
  forall k d, total (count_incr k d) = total d + 1.
Proof.
  intros k. unfold total, od_values.
  induction d as [| [k' n] d IH]; [reflexivity |].
  simpl. destruct (String.eqb k' k); simpl in *; lia.
Qed.

Lemma count_incr_NoDup :
  forall k d, NoDup (od_keys d) -> NoDup (od_keys (count_incr k d)).
Proof. intros k d H. rewrite count_incr_od_set. now apply od_set_NoDup. Qed.

Lemma count_incr_positive :
  forall k d,
    Forall (fun kv => 0 < snd kv) d ->
    Forall (fun kv => 0 < snd kv) (count_incr k d).
Proof.
  intros k d H. induction H as [| [k' n] d Hn Hd IH]; simpl.
  - repeat constructor.
  - destruct (String.eqb k' k); constructor; simpl in *;
      try assumption; lia.
Qed.

Section Tally.
Context {A : Type}.
Variable key : A -> option string.
Variable step : list (string * Z) -> A -> list (string * Z).
Hypothesis step_spec :
  forall d x,
    step d x = match key x with Some k => count_incr k d | None => d end.

Lemma occurrences_cons :
  forall k x xs,
    occurrences key k (x :: xs)
    = (if Py.opt_eqb (key x) k then 1 else 0) + occurrences key k xs.
Proof.
  intros k x xs. unfold occurrences, Py.len. cbn [filter].
  destruct (Py.opt_eqb (key x) k); cbn [length]; lia.
Qed.

Lemma occurrences_nonneg : forall k xs, 0 <= occurrences key k xs.
Proof. intros k xs. unfold occurrences, Py.len. lia. Qed.

Lemma tally_get :
  forall k xs d,
    od_get k (fold_left step xs d)
    = match od_get k d with
      | Some m => Some (m + occurrences key k xs)
      | None =>
          if occurrences key k xs =? 0 then None
          else Some (occurrences key k xs)
      end.
Proof.
  intros k. induction xs as [| x xs IH]; intros d.
  - simpl. destruct (od_get k d); [f_equal; unfold occurrences, Py.len;
                                   simpl; lia | reflexivity].
  - simpl fold_left. rewrite IH, step_spec, occurrences_cons.
    pose proof (occurrences_nonneg k xs) as Hpos.
    destruct (key x) as [k0 |]; simpl Py.opt_eqb.
    + rewrite count_incr_get.
      destruct (String.eqb_spec k0 k) as [-> | Hne].
      * destruct (od_get k d) as [m |].
        -- f_equal. lia.
        -- destruct (Z.eqb_spec (1 + occurrences key k xs) 0); [lia |].
           reflexivity.
      * destruct (od_get k d); reflexivity.
    + destruct (od_get k d); reflexivity.
Qed.

Lemma tally_total :
  forall xs d,
    total (fold_left step xs d)
    = total d
      + Py.len (filter (fun x => Tier.is_some (key x)) xs).
Proof.
  induction xs as [| x xs IH]; intros d.
  - unfold Py.len. simpl. lia.
  - simpl fold_left. rewrite IH, step_spec. simpl filter.
    destruct (key x); simpl Tier.is_some; cbv iota.
    + rewrite count_incr_total. unfold Py.len. simpl length. lia.
    + reflexivity.
Qed.

Lemma tally_NoDup :
  forall xs d,
    NoDup (od_keys d) -> NoDup (od_keys (fold_left step xs d)).
Proof.
  induction xs as [| x xs IH]; intros d H; [exact H |].
  simpl. apply IH. rewrite step_spec.
  destruct (key x); [now apply count_incr_NoDup | exact H].
Qed.

Lemma tally_positive :
  forall xs d,
    Forall (fun kv => 0 < snd kv) d ->
    Forall (fun kv => 0 < snd kv) (fold_left step xs d).
Proof.
  induction xs as [| x xs IH]; intros d H; [exact H |].
  simpl. apply IH. rewrite step_spec.
  destruct (key x); [now apply count_incr_positive | exact H].
Qed.

End Tally.

Lemma od_get_nil : forall (k : string), od_get (V := Z) k [] = None.
Proof. reflexivity. Qed.

(** ** The parsed document *)

Lemma parse_text_inr :
  forall text document,
    parse_text text = inr document ->
    split_segments text <> []
    /\ document = _build_parsed_structure (split_segments text).
Proof.
  intros text document Hparse. unfold parse_text in Hparse.
  destruct (negb (Py.truthy text) || negb (Py.truthy (Py.strip text)));
    [discriminate |].
  assert (E : split_segments (normalize_edi_text text) = split_segments text)
    by (unfold split_segments, split_segments_with;
        now rewrite normalize_idempotent).
  rewrite E in Hparse.
  destruct (split_segments text) as [| s0 rest]; [discriminate |].
  injection Hparse as <-. split; [discriminate | reflexivity].
Qed.

Lemma parse_segments_from_length :
  forall segments line_number,
    List.length (parse_segments_from line_number segments)
    = List.length segments.
Proof.
  intros segments line_number.
  destruct (parse_segments_from_spec segments line_number) as [Hraw _].
  rewrite <- Hraw at 2. now rewrite length_map.
Qed.

Lemma parse_segments_from_ids :
  forall segments line_number,
    map Segment.segment_id (parse_segments_from line_number segments)
    = map get_segment_id segments.
Proof.
  induction segments as [| s rest IH]; intros line_number; [reflexivity |].
  simpl. unfold get_segment_id at 1.
  pose proof (split_not_nil ELEMENT_SEPARATOR s) as Hnil.
  change (Py.split ELEMENT_SEPARATOR s) with (split_elements s) in Hnil.
  destruct (split_elements s) as [| e0 es]; [contradiction |].
  simpl. now rewrite IH.
Qed.

Lemma filter_all :
  forall {A} (l : list A), filter (fun _ => true) l = l.
Proof. induction l as [| x l IH]; [reflexivity | simpl; now rewrite IH]. Qed.

Lemma existsb_count :
  forall {A} (f : A -> string) (id : string) (l : list A),
    existsb (String.eqb id) (map f l) = true
    <-> 0 < Py.len (filter (fun x => String.eqb (f x) id) l).
Proof.
  intros A f id. unfold Py.len. induction l as [| x l IH]; simpl.
  - split; [discriminate | lia].
  - rewrite (String.eqb_sym id (f x)).
    destruct (String.eqb (f x) id); simpl.
    + split; [lia | reflexivity].
    + exact IH.
Qed.

Lemma calculate_statistics_spec :
  forall segments : list Segment.t,
    let stats := _calculate_statistics segments in
    let count id :=
      Py.len (filter (fun seg => String.eqb (Segment.segment_id seg) id)
                     segments) in
    Statistics.total_segments stats = Py.len segments
    /\ (forall id,
           od_get id (Statistics.segment_counts stats)
           = if count id =? 0 then None else Some (count id))
    /\ NoDup (od_keys (Statistics.segment_counts stats))
    /\ total (Statistics.segment_counts stats) = Py.len segments
    /\ (Statistics.has_envelope stats = true
        <-> forall id, In id envelope_ids -> 0 < count id).
Proof.
  intros segments stats count. subst stats. simpl.
  set (key := fun seg : Segment.t => Some (Segment.segment_id seg)).
  set (step := fun counts seg => count_incr (Segment.segment_id seg) counts).
  assert (Hstep : forall d x,
             step d x
             = match key x with Some k => count_incr k d | None => d end)
    by reflexivity.
  split; [reflexivity |]. split; [| split; [| split]].
  - intros id. exact (tally_get key step Hstep id segments []).
  - apply (tally_NoDup key step Hstep). constructor.
  - rewrite (tally_total key step Hstep).
    change (fun x : Segment.t => Tier.is_some (key x))
      with (fun _ : Segment.t => true).
    now rewrite filter_all.
  - unfold _has_complete_envelope. rewrite forallb_forall. unfold count.
    split; intros H id Hin.
    + apply existsb_count. now apply H.
    + apply existsb_count. now apply H.
Qed.

(** X6. The statistics of a parsed document: [total_segments] is the number of
    segments and is positive; [segment_counts] has one entry per identifier
    that occurs, holding the number of segments [get_segments_by_id]
    returns for it, and its values add up to [total_segments];
    [has_envelope] holds exactly when each of ISA, GS, ST, SE, GE and IEA
    occurs. *)
Theorem document_statistics :
  forall text document,
    parse_text text = inr document ->
    let stats := Document.statistics document in
    let count id :=
      Py.len (EDIParser.get_segments_by_id (Some document) id) in
    Statistics.total_segments stats = Py.len (Document.segments document)
    /\ 0 < Statistics.total_segments stats
    /\ (forall id,
           od_get id (Statistics.segment_counts stats)
           = if count id =? 0 then None else Some (count id))
    /\ NoDup (od_keys (Statistics.segment_counts stats))
    /\ total (Statistics.segment_counts stats)
       = Statistics.total_segments stats
    /\ (Statistics.has_envelope stats = true
        <-> forall id, In id envelope_ids -> 0 < count id).
Proof.
  intros text document Hparse stats count.
  destruct (parse_text_inr text document Hparse) as [Hne ->].
  destruct (calculate_statistics_spec
              (_parse_all_segments (split_segments text)))
    as [Htotal [Hget [Hdup [Hsum Henv]]]].
  subst stats count. simpl Document.statistics. simpl Document.segments.
  unfold EDIParser.get_segments_by_id. simpl Document.segments.
  split; [exact Htotal |]. split; [| split; [exact Hget |]].
  - rewrite Htotal. unfold Py.len, _parse_all_segments.
    rewrite parse_segments_from_length.
    destruct (split_segments text); [contradiction | simpl; lia].
  - split; [exact Hdup |]. split; [| exact Henv].
    now rewrite Hsum, Htotal.
Qed.

Lemma document_statistics_witness :
  let text := "ST*850*0001~BEG*00*NE~PO1*1~PO1*2~SE*4*0001~" in
  let counts :=
    Statistics.segment_counts (Document.statistics (document_of text)) in
  parse_text text = inr (document_of text)
  /\ od_get "PO1" counts = Some 2
  /\ od_get "N1" counts = None.
Proof.
  intros text counts.
  assert (Hparse : parse_text text = inr (document_of text))
    by (vm_compute; reflexivity).
  destruct (document_statistics text (document_of text) Hparse)
    as [_ [_ [Hget _]]].
  split; [exact Hparse |]. subst counts.
  split; [rewrite (Hget "PO1") | rewrite (Hget "N1")]; vm_compute;
    reflexivity.
Defined.

(** ** The functions on lists of segment strings *)

Lemma count_segment_occurrences_from :
  forall segments segment_id n,
    fold_left
      (fun count segment =>
         if String.eqb (get_segment_id segment) segment_id then count + 1
         else count)
      segments n
    = n + Py.len (filter (fun s => String.eqb (get_segment_id s) segment_id)
                         segments).
Proof.
  unfold Py.len.
  induction segments as [| s rest IH]; intros id n; simpl.
  - lia.
  - rewrite IH. destruct (String.eqb (get_segment_id s) id); simpl length; lia.
Qed.

Lemma find_segments_from_elements :
  forall segments segment_id idx,
    map SegmentDict.elements (find_segments_from idx segments segment_id)
    = map split_elements
          (filter (fun s => String.eqb (get_segment_id s) segment_id)
                  segments).
Proof.
  induction segments as [| s rest IH]; intros id idx; [reflexivity |].
  simpl. destruct (String.eqb (get_segment_id s) id); simpl;
    now rewrite IH.
Qed.

Lemma find_segments_from_index :
  forall segments segment_id idx,
    Forall (fun d =>
              SegmentDict.segment_id d = segment_id
              /\ exists i,
                  SegmentDict.index d = Some (idx + Z.of_nat i)
                  /\ option_map split_elements (nth_error segments i)
                     = Some (SegmentDict.elements d))
           (find_segments_from idx segments segment_id).
Proof.
  induction segments as [| s rest IH]; intros id idx; [constructor |].
  assert (Hrest :
           Forall (fun d =>
                     SegmentDict.segment_id d = id
                     /\ exists i,
                         SegmentDict.index d = Some (idx + Z.of_nat i)
                         /\ option_map split_elements
                                       (nth_error (s :: rest) i)
                            = Some (SegmentDict.elements d))
                  (find_segments_from (idx + 1) rest id)).
  { eapply Forall_impl; [| exact (IH id (idx + 1))].
    intros d [Hid [i [Hidx Hnth]]]. split; [exact Hid |].
    exists (S i). split; [| exact Hnth].
    rewrite Hidx. f_equal. lia. }
  simpl. destruct (String.eqb_spec (get_segment_id s) id) as [Hid | Hid];
    [| exact Hrest].
  constructor; [| exact Hrest]. split; [exact Hid |].
  exists 0%nat. split; [simpl; f_equal; lia | reflexivity].
Qed.

Lemma filter_map_length :
  forall {A B} (f : A -> B) (g : B -> bool) (l : list A),
    List.length (filter (fun x => g (f x)) l)
    = List.length (filter g (map f l)).
Proof.
  intros A B f g. induction l as [| x l IH]; [reflexivity |].
  simpl. destruct (g (f x)); simpl; now rewrite IH.
Qed.

(** X7. The two queries on a list of segment strings agree with each other
    and with the parsed document: [count_segment_occurrences] is the number
    of dictionaries [find_segments_by_id] returns, which are those of the
    segments with the identifier, in order, each with its position in the
    list as [index]; and it is the number of segments the parser gives the
    identifier. *)
Theorem segment_queries_agree :
  forall (segments : list string) (segment_id : string),
    let found := find_segments_by_id segments segment_id in
    let matching :=
      filter (fun s => String.eqb (get_segment_id s) segment_id) segments in
    count_segment_occurrences segments segment_id = Py.len found
    /\ map SegmentDict.elements found = map split_elements matching
    /\ Forall (fun d =>
                 SegmentDict.segment_id d = segment_id
                 /\ exists i,
                     SegmentDict.index d = Some (Z.of_nat i)
                     /\ option_map split_elements (nth_error segments i)
                        = Some (SegmentDict.elements d))
              found
    /\ Py.len found
       = Py.len (filter (fun seg =>
                           String.eqb (Segment.segment_id seg) segment_id)
                        (_parse_all_segments segments)).
Proof.
  intros segments id found matching. subst found matching.
  unfold find_segments_by_id, count_segment_occurrences.
  rewrite count_segment_occurrences_from.
  pose proof (find_segments_from_elements segments id 0) as Helems.
  assert (Hlen : Py.len (find_segments_from 0 segments id)
                 = Py.len (filter (fun s => String.eqb (get_segment_id s) id)
                                  segments)).
  { unfold Py.len. f_equal.
    rewrite <- (length_map SegmentDict.elements), Helems.
    now rewrite length_map. }
  split; [rewrite Hlen; lia |]. split; [exact Helems |]. split.
  - eapply Forall_impl; [| exact (find_segments_from_index segments id 0)].
    intros d [Hid [i [Hidx Hnth]]]. split; [exact Hid |].
    exists i. split; [exact Hidx | exact Hnth].
  - rewrite Hlen. unfold Py.len, _parse_all_segments. f_equal.
    rewrite (filter_map_length Segment.segment_id
                               (fun x => String.eqb x id)).
    rewrite parse_segments_from_ids.
    now rewrite <- (filter_map_length get_segment_id
                                      (fun x => String.eqb x id)).
Qed.

(** ** Queries on a parsed document *)

Lemma index_nonneg :
  forall {A} (l : list A) (i : Z),
    0 <= i -> Py.index l i = nth_error l (Z.to_nat i).
Proof.
  intros A l i Hi. unfold Py.index.
  destruct (Z.leb_spec 0 i); [reflexivity | lia].
Qed.

Lemma index_below :
  forall {A} (l : list A) (i : Z), i < - Py.len l -> Py.index l i = None.
Proof.
  intros A l i Hi. unfold Py.index, Py.len in *.
  destruct (Z.leb_spec 0 i); [lia |].
  destruct (Z.leb_spec 0 (Z.of_nat (List.length l) + i)); [lia | reflexivity].
Qed.

Lemma nth_error_beyond :
  forall {A} (l : list A) (i : Z),
    0 <= i -> (i <? Py.len l) = false -> nth_error l (Z.to_nat i) = None.
Proof.
  intros A l i Hi Hlt. apply nth_error_None.
  unfold Py.len in Hlt. destruct (Z.ltb_spec i (Z.of_nat (List.length l))); 
    [discriminate | lia].
Qed.

Lemma nth_error_within :
  forall {A} (l : list A) (i : Z),
    0 <= i -> (i <? Py.len l) = true ->
    exists x, nth_error l (Z.to_nat i) = Some x.
Proof.
  intros A l i Hi Hlt. apply Z.ltb_lt in Hlt. unfold Py.len in Hlt.
  destruct (nth_error l (Z.to_nat i)) as [x |] eqn:E; [now exists x |].
  apply nth_error_None in E. lia.
Qed.

Lemma filter_map_commute :
  forall {A B} (f : A -> B) (g : B -> bool) (h : A -> bool) (l : list A),
    Forall (fun x => h x = g (f x)) l ->
    map f (filter h l) = filter g (map f l).
Proof.
  intros A B f g h l Hall. induction Hall as [| x l Hx _ IH]; [reflexivity |].
  simpl. rewrite <- Hx. destruct (h x); simpl; now rewrite IH.
Qed.

Lemma parsed_segment_id :
  forall s : Segment.t,
    Segment.elements s = split_elements (Segment.raw s) ->
    nth_error (Segment.elements s) 0 = Some (Segment.segment_id s) ->
    get_segment_id (Segment.raw s) = Segment.segment_id s.
Proof.
  intros s Helems Hfirst. unfold get_segment_id. rewrite <- Helems.
  destruct (Segment.elements s); [discriminate |].
  simpl in Hfirst. congruence.
Qed.

Lemma parsed_with_id :
  forall segments line_number segment_id,
    let found :=
      filter (fun seg => String.eqb (Segment.segment_id seg) segment_id)
             (parse_segments_from line_number segments) in
    map Segment.raw found
    = filter (fun s => String.eqb (get_segment_id s) segment_id) segments
    /\ Forall (fun seg =>
                 Segment.elements seg = split_elements (Segment.raw seg))
              found.
Proof.
  intros segments line_number id found. subst found.
  destruct (parse_segments_from_spec segments line_number)
    as [Hraw [_ Hall]].
  split.
  - rewrite <- Hraw at 2.
    apply (filter_map_commute Segment.raw
             (fun s => String.eqb (get_segment_id s) id)).
    eapply Forall_impl; [| exact Hall].
    intros s [Helems [Hfirst _]]. simpl.
    now rewrite (parsed_segment_id s Helems Hfirst).
  - apply Forall_forall. intros seg Hin. apply filter_In in Hin as [Hin _].
    rewrite Forall_forall in Hall. now apply Hall.
Qed.

(** X8. [EDIParser.get_element_value] on a parsed document, for a position
    and an occurrence that are not negative: the value that
    [segment_utils.get_element_value] reads in the segment string of that
    occurrence among the segments with the identifier, and the default when
    there are fewer. An occurrence below minus the number of such segments
    raises [IndexError]; -1 does when the document has no such segment. *)
Theorem parsed_element_value :
  forall text document segment_id element_position default,
    parse_text text = inr document ->
    let strings :=
      filter (fun s => String.eqb (get_segment_id s) segment_id)
             (split_segments text) in
    (forall occurrence,
        0 <= element_position -> 0 <= occurrence ->
        EDIParser.get_element_value (Some document) segment_id
                                    element_position occurrence default
        = inr (match nth_error strings (Z.to_nat occurrence) with
               | Some s => get_element_value s (Z.to_nat element_position)
                                             default
               | None => default
               end))
    /\ (forall occurrence,
           occurrence < - Py.len strings ->
           EDIParser.get_element_value (Some document) segment_id
                                       element_position occurrence default
           = inl (IndexError "list index out of range")).
Proof.
  intros text document id pos default Hparse strings.
  destruct (parse_text_inr text document Hparse) as [_ ->].
  unfold EDIParser.get_element_value, EDIParser.get_segments_by_id.
  simpl Document.segments. unfold _parse_all_segments.
  destruct (parsed_with_id (split_segments text) 1 id) as [Hraw Helems].
  fold strings in Hraw.
  set (found := filter (fun seg => String.eqb (Segment.segment_id seg) id)
                       (parse_segments_from 1 (split_segments text))) in *.
  assert (Hlen : Py.len found = Py.len strings)
    by (unfold Py.len; now rewrite <- Hraw, length_map).
  split.
  - intros occ Hpos Hocc. rewrite <- Hraw, nth_error_map.
    destruct (occ <? Py.len found) eqn:Hlt.
    + unfold item. rewrite (index_nonneg found occ Hocc).
      destruct (nth_error_within found occ Hocc Hlt) as [seg Hseg].
      rewrite Hseg. simpl option_map. cbv iota.
      assert (Hsplit : Segment.elements seg
                       = split_elements (Segment.raw seg)).
      { rewrite Forall_forall in Helems. apply Helems.
        eapply nth_error_In. exact Hseg. }
      unfold get_element_value. rewrite <- Hsplit.
      destruct (pos <? Py.len (Segment.elements seg)) eqn:Hp.
      * rewrite (index_nonneg _ pos Hpos).
        destruct (nth_error_within _ pos Hpos Hp) as [x Hx].
        now rewrite Hx.
      * now rewrite (nth_error_beyond _ pos Hpos Hp).
    + now rewrite (nth_error_beyond found occ Hocc Hlt).
  - intros occ Hocc. rewrite <- Hlen in Hocc.
    assert (Hlt : (occ <? Py.len found) = true).
    { apply Z.ltb_lt. unfold Py.len in *. lia. }
    rewrite Hlt. unfold item. now rewrite (index_below found occ Hocc).
Qed.

Lemma parsed_element_value_witness :
  let text := "ST*850*0001~REF*DP* 42 ~REF*IA~" in
  let parsed_data := Some (document_of text) in
  parse_text text = inr (document_of text)
  /\ EDIParser.get_element_value parsed_data "REF" 2 0 "none" = inr "42"
  /\ EDIParser.get_element_value parsed_data "REF" 2 1 "none" = inr "none"
  /\ EDIParser.get_element_value parsed_data "N1" 1 (-1) "none"
     = inl (IndexError "list index out of range").
Proof.
  intros text parsed_data.
  assert (Hparse : parse_text text = inr (document_of text))
    by (vm_compute; reflexivity).
  split; [exact Hparse |]. subst parsed_data.
  split; [| split].
  - rewrite (proj1 (parsed_element_value text (document_of text) "REF" 2
                      "none" Hparse) 0) by lia.
    vm_compute. reflexivity.
  - rewrite (proj1 (parsed_element_value text (document_of text) "REF" 2
                      "none" Hparse) 1) by lia.
    vm_compute. reflexivity.
  - apply (proj2 (parsed_element_value text (document_of text) "N1" 1
                    "none" Hparse) (-1)).
    vm_compute. reflexivity.
Defined.

(** ** Metadata *)

Lemma last_segment_snoc :
  forall segment_id segments s,
    last_segment segment_id (segments ++ [s])
    = if String.eqb (get_segment_id s) segment_id then Some s
      else last_segment segment_id segments.
Proof.
  intros id segments s. unfold last_segment.
  rewrite filter_app. simpl.
  destruct (String.eqb (get_segment_id s) id).
  - now rewrite rev_app_distr.
  - now rewrite app_nil_r.
Qed.

Lemma last_value_snoc :
  forall segment_id position segments s,
    last_value segment_id position (segments ++ [s])
    = if String.eqb (get_segment_id s) segment_id
      then get_element_value s position ""
      else last_value segment_id position segments.
Proof.
  intros id position segments s. unfold last_value.
  rewrite last_segment_snoc.
  now destruct (String.eqb (get_segment_id s) id).
Qed.

Lemma get_element_value_stripped :
  forall segment position,
    Py.strip (get_element_value segment position "")
    = get_element_value segment position "".
Proof.
  intros segment position. unfold get_element_value.
  destruct (nth_error (split_elements segment) position) as [e |];
    [| reflexivity].
  destruct (Py.truthy (Py.strip e)); [apply strip_idem | reflexivity].
Qed.

Lemma last_value_stripped :
  forall segment_id position segments,
    Py.strip (last_value segment_id position segments)
    = last_value segment_id position segments.
Proof.
  intros id position segments. unfold last_value.
  destruct (last_segment id segments);
    [apply get_element_value_stripped | reflexivity].
Qed.

Lemma extract_control_numbers_spec :
  forall segments,
    extract_control_numbers segments
    = {| interchange_control := last_value "ISA" 13 segments;
         group_control := last_value "GS" 6 segments;
         transaction_control := last_value "ST" 2 segments |}.
Proof.
  intros segments. unfold extract_control_numbers.
  induction segments as [| s segments IH] using rev_ind; [reflexivity |].
  rewrite fold_left_app. simpl fold_left. rewrite IH. simpl.
  rewrite !last_value_snoc.
  destruct (String.eqb_spec (get_segment_id s) "ISA") as [-> | Hisa];
    [reflexivity |].
  destruct (String.eqb_spec (get_segment_id s) "GS") as [-> | Hgs];
    [reflexivity |].
  destruct (String.eqb_spec (get_segment_id s) "ST") as [Hst | Hst];
    reflexivity.
Qed.

Lemma extract_metadata_spec :
  forall segments,
    _extract_metadata segments
    = Metadata.mk (last_value "ST" 1 segments)
                  (last_value "ISA" 12 segments)
                  (last_value "ISA" 6 segments)
                  (last_value "ISA" 8 segments)
                  (last_value "ISA" 9 segments)
                  (last_value "ISA" 10 segments)
                  {| interchange_control := last_value "ISA" 13 segments;
                     group_control := last_value "GS" 6 segments;
                     transaction_control := last_value "ST" 2 segments |}
                  (last_value "GS" 1 segments).
Proof.
  intros segments. unfold _extract_metadata.
  rewrite extract_control_numbers_spec.
  match goal with
  | |- context [fold_left ?f segments ?init] =>
      assert (Hscan :
               fold_left f segments init
               = Metadata.mk (last_value "ST" 1 segments)
                   (last_value "ISA" 12 segments)
                   (last_value "ISA" 6 segments)
                   (last_value "ISA" 8 segments)
                   (last_value "ISA" 9 segments)
                   (last_value "ISA" 10 segments)
                   {| interchange_control := ""; group_control := "";
                      transaction_control := "" |}
                   (last_value "GS" 1 segments))
  end.
  { induction segments as [| s segments IH] using rev_ind; [reflexivity |].
    rewrite fold_left_app. simpl fold_left. rewrite IH. simpl.
    rewrite !last_value_snoc.
    destruct (String.eqb_spec (get_segment_id s) "ISA") as [-> | Hisa].
    - simpl. now rewrite !get_element_value_stripped.
    - destruct (String.eqb_spec (get_segment_id s) "GS") as [-> | Hgs];
        [reflexivity |].
      destruct (String.eqb_spec (get_segment_id s) "ST") as [Hst | Hst];
        reflexivity. }
  rewrite Hscan. reflexivity.
Qed.

(** X9. The metadata of a parsed document are read in the last ISA, the
    last GS and the last ST segment of the text: with several transaction
    sets, [doc_type] and the transaction control number are those of the
    last ST. A field whose segment is absent or whose element is blank is
    the empty string. *)
Theorem metadata_from_last_segments :
  forall text document,
    parse_text text = inr document ->
    let segments := split_segments text in
    let m := Document.metadata document in
    Metadata.doc_type m = last_value "ST" 1 segments
    /\ Metadata.functional_group m = last_value "GS" 1 segments
    /\ Metadata.sender_id m = last_value "ISA" 6 segments
    /\ Metadata.receiver_id m = last_value "ISA" 8 segments
    /\ Metadata.interchange_date m = last_value "ISA" 9 segments
    /\ Metadata.interchange_time m = last_value "ISA" 10 segments
    /\ Metadata.version m = last_value "ISA" 12 segments
    /\ interchange_control (Metadata.control_numbers m)
       = last_value "ISA" 13 segments
    /\ group_control (Metadata.control_numbers m)
       = last_value "GS" 6 segments
    /\ transaction_control (Metadata.control_numbers m)
       = last_value "ST" 2 segments.
Proof.
  intros text document Hparse segments m. subst m segments.
  destruct (parse_text_inr text document Hparse) as [_ ->].
  unfold _build_parsed_structure. simpl Document.metadata.
  rewrite extract_metadata_spec. simpl.
  repeat split; reflexivity.
Qed.

Lemma metadata_from_last_segments_witness :
  let text := "ST*850*0001~SE*1*0001~ST*810*0002~SE*1*0002~" in
  let metadata := Document.metadata (document_of text) in
  parse_text text = inr (document_of text)
  /\ Metadata.doc_type metadata = "810"
  /\ transaction_control (Metadata.control_numbers metadata) = "0002".
Proof.
  intros text metadata.
  assert (Hparse : parse_text text = inr (document_of text))
    by (vm_compute; reflexivity).
  pose proof (metadata_from_last_segments text (document_of text) Hparse)
    as H.
  split; [exact Hparse |]. subst metadata. split.
  - rewrite (proj1 H). vm_compute. reflexivity.
  - rewrite (proj2 (proj2 (proj2 (proj2 (proj2 (proj2 (proj2 (proj2
               (proj2 H))))))))).
    vm_compute. reflexivity.
Defined.

(* ===================================================================== *)
(** * Further properties of the rule loader *)
(* ===================================================================== *)

(** ** Which rule wins *)

Lemma fold_retailer_filter :
  forall doc_type rules d,
    fold_left (add_retailer_rule doc_type) rules d
    = fold_left add_rule (filter (fun rule => applies_to rule doc_type) rules)
                d.
Proof.
  induction rules as [| r rules IH]; intros d; [reflexivity |].
  simpl. rewrite add_retailer_rule_cases.
  destruct (applies_to r doc_type); simpl; apply IH.
Qed.

Lemma category_rules_concat :
  forall core doc ret doc_type,
    category_rules core doc ret doc_type
    = fold_left add_rule
        (core ++ doc ++ filter (fun rule => applies_to rule doc_type) ret)
        [].
Proof.
  intros. unfold category_rules.
  now rewrite fold_retailer_filter, !fold_left_app.
Qed.

Lemma merge_category_winner :
  forall core doc ret doc_type k,
    find_rule (Some k) (merge_category core doc ret doc_type)
    = winner core doc ret doc_type k.
Proof.
  intros core doc ret doc_type k. unfold merge_category, winner.
  rewrite find_rule_values by apply category_rules_well_keyed.
  unfold category_rules.
  rewrite fold_retailer_filter, !fold_add_rule_get.
  destruct (last_rule k (filter (fun rule => applies_to rule doc_type) ret));
    [reflexivity |].
  destruct (last_rule k doc); [reflexivity |].
  now destruct (last_rule k core).
Qed.

(** ** The ids of a merged category *)

Lemma od_set_keys :
  forall {V} (d : list (string * V)) k v,
    od_keys (od_set k v d)
    = if in_dec string_dec k (od_keys d) then od_keys d
      else (od_keys d ++ [k])%list.
Proof.
  intros V d k v. destruct (in_dec string_dec k (od_keys d)) as [Hin | Hout].
  - now apply od_set_known.
  - rewrite (od_set_new d k v Hout). unfold od_keys.
    now rewrite map_app.
Qed.

Lemma first_occurrences_snoc :
  forall l k,
    first_occurrences (l ++ [k])
    = if in_dec string_dec k (first_occurrences l) then first_occurrences l
      else (first_occurrences l ++ [k])%list.
Proof.
  intros l k. unfold first_occurrences. rewrite rev_app_distr. simpl.
  destruct (in_dec string_dec k (rev l)) as [Hin | Hout];
    destruct (in_dec string_dec k (rev (nodup string_dec (rev l))))
      as [Hin' | Hout']; try reflexivity.
  - exfalso. apply Hout'. apply -> in_rev. now apply nodup_In.
  - exfalso. apply Hout. apply in_rev in Hin'. now apply nodup_In in Hin'.
Qed.

Lemma accepted_ids_snoc :
  forall rules rule,
    accepted_ids (rules ++ [rule])
    = (accepted_ids rules
       ++ match Rule.rule_id rule with
          | Some k => if Py.truthy k then [k] else []
          | None => []
          end)%list.
Proof.
  intros rules rule. unfold accepted_ids.
  now rewrite flat_map_app; simpl; rewrite app_nil_r.
Qed.

Lemma fold_add_rule_keys :
  forall rules,
    od_keys (fold_left add_rule rules [])
    = first_occurrences (accepted_ids rules).
Proof.
  induction rules as [| rule rules IH] using rev_ind; [reflexivity |].
  rewrite fold_left_app, accepted_ids_snoc. simpl fold_left.
  unfold add_rule at 1.
  destruct (Rule.rule_id rule) as [k |];
    [| now rewrite app_nil_r].
  destruct (Py.truthy k); [| now rewrite app_nil_r].
  now rewrite od_set_keys, first_occurrences_snoc, IH.
Qed.

Lemma well_keyed_ids :
  forall d,
    well_keyed d -> map Rule.rule_id (od_values d) = map Some (od_keys d).
Proof.
  unfold od_values, od_keys.
  induction d as [| [k r] d IH]; intros Hwk; [reflexivity |].
  inversion Hwk as [| ? ? Hhead Htail]; subst. simpl in *.
  apply has_id_spec in Hhead as [-> _]. now rewrite IH.
Qed.

Lemma merge_category_ids :
  forall core doc ret doc_type,
    map Rule.rule_id (merge_category core doc ret doc_type)
    = map Some
          (first_occurrences
             (accepted_ids
                (core ++ doc
                 ++ filter (fun rule => applies_to rule doc_type) ret))).
Proof.
  intros. unfold merge_category.
  rewrite well_keyed_ids by apply category_rules_well_keyed.
  now rewrite category_rules_concat, fold_add_rule_keys.
Qed.

Lemma first_occurrences_NoDup : forall l, NoDup (first_occurrences l).
Proof.
  intros l. unfold first_occurrences. apply NoDup_rev, NoDup_nodup.
Qed.

Lemma accepted_ids_truthy :
  forall rules k, In k (accepted_ids rules) -> Py.truthy k = true.
Proof.
  intros rules k Hin. unfold accepted_ids in Hin.
  apply in_flat_map in Hin as [rule [_ Hin]].
  destruct (Rule.rule_id rule) as [k0 |]; [| contradiction].
  destruct (Py.truthy k0) eqn:Ht; [| contradiction].
  destruct Hin as [<- | []]. exact Ht.
Qed.

Lemma first_occurrences_In :
  forall l k, In k (first_occurrences l) <-> In k l.
Proof.
  intros l k. unfold first_occurrences.
  rewrite <- in_rev, nodup_In, <- in_rev. reflexivity.
Qed.

(** ** Overrides *)

Lemma with_values_nil : forall v, with_values [] v = v.
Proof.
  intros [r mn mx [values |] re]; unfold with_values; simpl;
    [now rewrite app_nil_r | reflexivity].
Qed.

Lemma with_values_compose :
  forall e1 e2 v,
    with_values e2 (with_values e1 v) = with_values (e1 ++ e2) v.
Proof.
  intros e1 e2 [r mn mx [values |] re]; unfold with_values; simpl;
    [now rewrite app_assoc | reflexivity].
Qed.

Lemma overridden_as_id :
  forall rule, overridden_as (Rule.severity rule) [] rule = rule.
Proof.
  intros rule. unfold overridden_as. rewrite with_values_nil.
  now destruct rule.
Qed.

Lemma overridden_as_compose :
  forall s1 e1 s2 e2 rule,
    overridden_as s2 e2 (overridden_as s1 e1 rule)
    = overridden_as s2 (e1 ++ e2) rule.
Proof.
  intros. unfold overridden_as. simpl. now rewrite with_values_compose.
Qed.

Lemma override_step_unnamed :
  forall override rule,
    names override rule = false -> override_step override rule = rule.
Proof.
  intros override rule H. unfold override_step, escalates, adds_values.
  rewrite H. apply overridden_as_id.
Qed.

Lemma extend_allowed_values_as :
  forall extra rule,
    Rule.extend_allowed_values extra rule
    = overridden_as (Rule.severity rule) extra rule.
Proof.
  intros extra rule. unfold Rule.extend_allowed_values, overridden_as.
  destruct rule as [id sev de ap sg mn mx fl ep [r mi ma [values |] re]
                       cl cn th lg]; reflexivity.
Qed.

Lemma set_severity_as :
  forall s rule, Rule.set_severity s rule = overridden_as s [] rule.
Proof.
  intros s rule. unfold Rule.set_severity, overridden_as.
  now rewrite with_values_nil.
Qed.

Section OneOverride.
Variable override : Override.t.
Variables rule_id override_type : string.
Hypothesis override_id : Override.rule_id override = Some rule_id.
Hypothesis override_ty : Override.override_type override = Some override_type.
Hypothesis id_truthy : Py.truthy rule_id = true.
Hypothesis ty_truthy : Py.truthy override_type = true.

Lemma names_eq :
  forall rule, names override rule = Py.opt_eqb (Rule.rule_id rule) rule_id.
Proof.
  intros rule. unfold names.
  now rewrite override_id, override_ty, id_truthy, ty_truthy.
Qed.

Lemma override_rule_spec :
  forall rule,
    Py.opt_eqb (Rule.rule_id rule) rule_id = true ->
    override_rule override override_type rule
    = if lacks_severity override rule then inl (KeyError "new_severity")
      else inr (override_step override rule).
Proof.
  intros rule Hid. unfold override_rule, lacks_severity, override_step,
                   escalates, adds_values.
  rewrite names_eq, Hid, override_ty. simpl Py.opt_eqb. cbn [andb].
  destruct (String.eqb_spec override_type "severity_escalation") as [-> | Hes].
  - simpl. destruct (Override.new_severity override) as [s |]; simpl;
      [now rewrite set_severity_as | reflexivity].
  - simpl.
    destruct (String.eqb override_type "add_allowed_value").
    + now rewrite extend_allowed_values_as.
    + now rewrite overridden_as_id.
Qed.

Lemma override_rules_spec :
  forall rules,
    override_rules override rule_id override_type rules
    = if existsb (lacks_severity override) rules
      then inl (KeyError "new_severity")
      else inr (map (override_step override) rules).
Proof.
  induction rules as [| rule rules IH]; [reflexivity |].
  simpl. destruct (Py.opt_eqb (Rule.rule_id rule) rule_id) eqn:Hid.
  - rewrite (override_rule_spec rule Hid).
    destruct (lacks_severity override rule); [reflexivity |].
    rewrite IH. simpl.
    now destruct (existsb (lacks_severity override) rules).
  - assert (Hn : names override rule = false) by now rewrite names_eq.
    assert (Hl : lacks_severity override rule = false)
      by (unfold lacks_severity, escalates; now rewrite Hn).
    rewrite Hl, IH, (override_step_unnamed _ _ Hn). simpl.
    now destruct (existsb (lacks_severity override) rules).
Qed.

End OneOverride.

Lemma map_rules_unnamed :
  forall override ruleset,
    (forall rule, names override rule = false) ->
    map_rules (override_step override) ruleset = ruleset.
Proof.
  intros override ruleset H. unfold map_rules.
  assert (E : forall l, map (override_step override) l = l).
  { intros l. rewrite <- (map_id l) at 2. apply map_ext.
    intros rule. now apply override_step_unnamed. }
  rewrite !E. now destruct ruleset.
Qed.

Lemma existsb_unnamed :
  forall override rules,
    (forall rule, names override rule = false) ->
    existsb (lacks_severity override) rules = false.
Proof.
  intros override rules H. induction rules as [| r rules IH]; [reflexivity |].
  simpl. unfold lacks_severity at 1, escalates. now rewrite H, IH.
Qed.

Lemma apply_override_spec :
  forall ruleset override,
    apply_override ruleset override
    = if existsb (lacks_severity override) (all_rules ruleset)
      then inl (KeyError "new_severity")
      else inr (map_rules (override_step override) ruleset).
Proof.
  intros ruleset override. unfold apply_override.
  destruct (Override.rule_id override) as [k |] eqn:Hk.
  - destruct (Override.override_type override) as [ty |] eqn:Hty.
    + destruct (Py.truthy k) eqn:Htk.
      * destruct (Py.truthy ty) eqn:Htty.
        -- simpl andb. cbv iota.
           rewrite !(override_rules_spec override k ty Hk Hty Htk Htty).
           unfold all_rules. rewrite !existsb_app.
           destruct (existsb (lacks_severity override)
                             (RuleSet.required_segments ruleset));
             [reflexivity |].
           destruct (existsb (lacks_severity override)
                             (RuleSet.element_rules ruleset));
             [reflexivity |].
           destruct (existsb (lacks_severity override)
                             (RuleSet.conditional_rules ruleset));
             [reflexivity |].
           destruct (existsb (lacks_severity override)
                             (RuleSet.cross_segment_rules ruleset));
             reflexivity.
        -- rewrite andb_false_r.
           assert (Hn : forall rule, names override rule = false).
           { intros rule. unfold names.
             now rewrite Hk, Hty, Htk, Htty. }
           now rewrite existsb_unnamed, map_rules_unnamed.
      * simpl andb. cbv iota.
        assert (Hn : forall rule, names override rule = false).
        { intros rule. unfold names. now rewrite Hk, Hty, Htk. }
        now rewrite existsb_unnamed, map_rules_unnamed.
    + assert (Hn : forall rule, names override rule = false).
      { intros rule. unfold names. now rewrite Hk, Hty. }
      now rewrite existsb_unnamed, map_rules_unnamed.
  - assert (Hn : forall rule, names override rule = false).
    { intros rule. unfold names. now rewrite Hk. }
    now rewrite existsb_unnamed, map_rules_unnamed.
Qed.

Lemma existsb_override_step :
  forall override override' rules,
    existsb (lacks_severity override') (map (override_step override) rules)
    = existsb (lacks_severity override') rules.
Proof.
  intros override override' rules.
  induction rules as [| r rules IH]; [reflexivity |].
  simpl. now rewrite IH.
Qed.

Lemma all_rules_map :
  forall f ruleset,
    all_rules (map_rules f ruleset) = map f (all_rules ruleset).
Proof.
  intros f ruleset. unfold all_rules, map_rules. simpl.
  now rewrite !map_app.
Qed.

Lemma override_result_cons :
  forall override overrides rule,
    override_result overrides (override_step override rule)
    = override_result (override :: overrides) rule.
Proof.
  intros override overrides rule. unfold override_result, override_step.
  rewrite overridden_as_compose. reflexivity.
Qed.

Lemma override_result_nil : forall rule, override_result [] rule = rule.
Proof. intros rule. apply overridden_as_id. Qed.

Lemma map_rules_compose :
  forall f g ruleset,
    map_rules g (map_rules f ruleset) = map_rules (fun r => g (f r)) ruleset.
Proof.
  intros f g ruleset. unfold map_rules. simpl. now rewrite !map_map.
Qed.

Lemma map_rules_ext :
  forall f g ruleset,
    (forall r, f r = g r) -> map_rules f ruleset = map_rules g ruleset.
Proof.
  intros f g ruleset H. unfold map_rules.
  now rewrite !(map_ext f g H).
Qed.

Lemma map_rules_id :
  forall f ruleset, (forall r, f r = r) -> map_rules f ruleset = ruleset.
Proof.
  intros f ruleset H. unfold map_rules.
  assert (E : forall l, map f l = l).
  { intros l. rewrite <- (map_id l) at 2. now apply map_ext. }
  rewrite !E. now destruct ruleset.
Qed.

(** [_apply_overrides], rule by rule. *)
Lemma apply_overrides_spec :
  forall overrides ruleset,
    _apply_overrides ruleset overrides
    = if existsb (fun override =>
                    existsb (lacks_severity override) (all_rules ruleset))
                 overrides
      then inl (KeyError "new_severity")
      else inr (map_rules (override_result overrides) ruleset).
Proof.
  induction overrides as [| override overrides IH]; intros ruleset.
  - simpl. now rewrite (map_rules_id _ _ override_result_nil).
  - simpl. rewrite apply_override_spec.
    destruct (existsb (lacks_severity override) (all_rules ruleset));
      [reflexivity |].
    rewrite IH. simpl orb.
    assert (E : existsb
                  (fun override' =>
                     existsb (lacks_severity override')
                       (all_rules (map_rules (override_step override)
                                             ruleset)))
                  overrides
                = existsb
                    (fun override' =>
                       existsb (lacks_severity override') (all_rules ruleset))
                    overrides).
    { clear IH. induction overrides as [| o os IHo]; [reflexivity |].
      cbn [existsb]. rewrite IHo.
      now rewrite all_rules_map, existsb_override_step. }
    rewrite E.
    destruct (existsb
                (fun override' =>
                   existsb (lacks_severity override') (all_rules ruleset))
                overrides); [reflexivity |].
    rewrite map_rules_compose. f_equal. apply map_rules_ext.
    intros r. apply override_result_cons.
Qed.

Lemma apply_overrides_info :
  forall ruleset overrides overridden,
    _apply_overrides ruleset overrides = inr overridden ->
    RuleSet.ruleset_info overridden = RuleSet.ruleset_info ruleset.
Proof.
  intros ruleset overrides overridden H.
  rewrite apply_overrides_spec in H.
  destruct (existsb _ overrides); [discriminate |].
  now injection H as <-.
Qed.

Lemma ruleset_get_map_rules :
  forall f ruleset c,
    ruleset_get (map_rules f ruleset) c = map f (ruleset_get ruleset c).
Proof. intros f ruleset c. now destruct c. Qed.

Lemma all_rules_In :
  forall ruleset rule,
    In rule (all_rules ruleset)
    <-> exists c, In rule (ruleset_get ruleset c).
Proof.
  intros ruleset rule. unfold all_rules. rewrite !in_app_iff. split.
  - intros [H | [H | [H | H]]];
      [exists required_segments | exists element_rules
       | exists conditional_rules | exists cross_segment_rules]; exact H.
  - intros [[] H]; simpl in H; tauto.
Qed.

(** X10. When [_apply_overrides] returns, each category holds the same rules in
    the same order, changed one by one: a rule has the severity of the last
    severity escalation that names its id (its own when none does), its
    allowed values, where it has the key, extended by the values of all
    the overrides of type add_allowed_value that name it, in order, and
    every other key as before. The ruleset information is untouched. *)
Theorem overrides_rule_by_rule :
  forall ruleset overrides overridden,
    _apply_overrides ruleset overrides = inr overridden ->
    RuleSet.ruleset_info overridden = RuleSet.ruleset_info ruleset
    /\ forall c,
        ruleset_get overridden c
        = map (fun rule =>
                 overridden_as (final_severity overrides rule)
                               (added_values overrides rule) rule)
              (ruleset_get ruleset c).
Proof.
  intros ruleset overrides overridden H.
  rewrite apply_overrides_spec in H.
  destruct (existsb _ overrides); [discriminate |].
  injection H as <-. split; [reflexivity |].
  intros c. apply ruleset_get_map_rules.
Qed.

(** X11. [_apply_overrides] raises exactly when an override of type
    severity_escalation without [new_severity] names the id of a rule that
    is in one of the categories, and then it raises the [KeyError] of that
    key; such an override that names no rule of the ruleset is passed
    over. *)
Theorem overrides_key_error :
  forall ruleset overrides e,
    _apply_overrides ruleset overrides = inl e
    <-> e = KeyError "new_severity"
        /\ exists override c rule,
            In override overrides
            /\ In rule (ruleset_get ruleset c)
            /\ escalates override rule = true
            /\ Override.new_severity override = None.
Proof.
  intros ruleset overrides e. rewrite apply_overrides_spec.
  destruct (existsb _ overrides) eqn:Hex.
  - apply existsb_exists in Hex as [override [Hin Hex]].
    apply existsb_exists in Hex as [rule [Hrule Hlacks]].
    apply all_rules_In in Hrule as [c Hrule].
    unfold lacks_severity in Hlacks.
    apply andb_true_iff in Hlacks as [Hesc Hnone].
    split.
    + intros [= <-]. split; [reflexivity |].
      exists override, c, rule. repeat split; try assumption.
      now destruct (Override.new_severity override).
    + intros [-> _]. reflexivity.
  - split; [discriminate |].
    intros [_ [override [c [rule [Hin [Hrule [Hesc Hnone]]]]]]].
    exfalso.
    assert (Htrue : existsb
                      (fun override =>
                         existsb (lacks_severity override)
                                 (all_rules ruleset)) overrides = true).
    { apply existsb_exists. exists override. split; [exact Hin |].
      apply existsb_exists. exists rule. split.
      - apply all_rules_In. now exists c.
      - unfold lacks_severity. now rewrite Hesc, Hnone. }
    congruence.
Qed.

Lemma overrides_rule_by_rule_witness :
  let ruleset := ruleset_of [doc_req_dtm; n1_required] [] [] [] in
  exists overridden,
    _apply_overrides ruleset [escalate_dtm] = inr overridden
    /\ ruleset_get overridden required_segments
       = [Rule.set_severity (Some "ERROR") doc_req_dtm; n1_required].
Proof.
  intros ruleset. eexists. split; [reflexivity |].
  exact (proj2 (overrides_rule_by_rule ruleset [escalate_dtm] _ eq_refl)
               required_segments).
Defined.

Lemma overrides_key_error_witness :
  _apply_overrides (ruleset_of [n1_required; doc_req_dtm] [] [] [])
                   [escalate_dtm_unfinished]
  = inl (KeyError "new_severity")
  /\ _apply_overrides (ruleset_of [n1_required] [] [] [])
                      [escalate_dtm_unfinished]
     = inr (ruleset_of [n1_required] [] [] []).
Proof.
  split; [| reflexivity].
  apply (proj2 (overrides_key_error
                  (ruleset_of [n1_required; doc_req_dtm] [] [] [])
                  [escalate_dtm_unfinished] (KeyError "new_severity"))).
  split; [reflexivity |].
  exists escalate_dtm_unfinished, required_segments, doc_req_dtm.
  split; [now left |]. split; [right; now left |].
  split; reflexivity.
Defined.

(** ** The merged ruleset *)

Lemma merge_rulesets_categories :
  forall core doc ret doc_type retailer merged,
    _merge_rulesets core doc ret doc_type retailer = inr merged ->
    forall c,
      ruleset_get merged c
      = map (override_result (tier_overrides ret))
            (merge_category (tier_get core c) (tier_get doc c)
                            (tier_get ret c) doc_type).
Proof.
  intros core doc ret doc_type retailer merged H c.
  unfold _merge_rulesets, tier_overrides in *.
  destruct (Tier.overrides ret) as [overrides |].
  - rewrite apply_overrides_spec in H.
    destruct (existsb _ overrides); [discriminate |].
    injection H as <-. now destruct c.
  - injection H as <-.
    assert (E : forall l, map (override_result []) l = l).
    { intros l. rewrite <- (map_id l) at 2. apply map_ext.
      apply override_result_nil. }
    rewrite E. now destruct c.
Qed.

Lemma find_rule_map :
  forall f rule_id rules,
    (forall rule, Rule.rule_id (f rule) = Rule.rule_id rule) ->
    find_rule rule_id (map f rules) = option_map f (find_rule rule_id rules).
Proof.
  intros f rule_id rules Hid. unfold find_rule.
  induction rules as [| r rules IH]; [reflexivity |].
  simpl. rewrite Hid.
  destruct (Py.opt_opt_eqb (Rule.rule_id r) rule_id); [reflexivity | exact IH].
Qed.

Lemma map_Some_NoDup :
  forall {A} (l : list A), NoDup l -> NoDup (map Some l).
Proof.
  intros A l H. induction H as [| x l Hx Hl IH]; simpl; constructor.
  - intros Hin. apply in_map_iff in Hin as [y [[= ->] Hy]]. contradiction.
  - exact IH.
Qed.

(** X12. Looking a rule id up in a category of the merged ruleset gives the
    rule that wins the merge: the last retailer rule with that id among
    those that apply to the document type, else the last document rule,
    else the last core rule; with the retailer tier's overrides applied to
    it. An id that no such rule carries is not found. *)
Theorem merged_rule_lookup :
  forall core doc ret doc_type retailer merged,
    _merge_rulesets core doc ret doc_type retailer = inr merged ->
    forall c k,
      find_rule (Some k) (ruleset_get merged c)
      = option_map
          (fun rule =>
             overridden_as (final_severity (tier_overrides ret) rule)
                           (added_values (tier_overrides ret) rule) rule)
          (winner (tier_get core c) (tier_get doc c) (tier_get ret c)
                  doc_type k).
Proof.
  intros core doc ret doc_type retailer merged H c k.
  rewrite (merge_rulesets_categories _ _ _ _ _ _ H c).
  rewrite find_rule_map by reflexivity.
  now rewrite merge_category_winner.
Qed.

Lemma merged_rule_lookup_witness :
  let core := tier_of_required [n1_required] in
  let doc := tier_of_required [doc_req_dtm] in
  let ret := tier_of_required [retailer_req_dtm_856] in
  exists for_856 for_850,
    _merge_rulesets core doc ret "856" (Some "walmart") = inr for_856
    /\ _merge_rulesets core doc ret "850" (Some "walmart") = inr for_850
    /\ find_rule (Some "RET_REQ_DTM") (ruleset_get for_856 required_segments)
       = Some retailer_req_dtm_856
    /\ find_rule (Some "RET_REQ_DTM") (ruleset_get for_850 required_segments)
       = Some doc_req_dtm.
Proof.
  intros core doc ret. eexists. eexists.
  split; [reflexivity |]. split; [reflexivity |]. split.
  - exact (merged_rule_lookup core doc ret "856" (Some "walmart") _ eq_refl
                              required_segments "RET_REQ_DTM").
  - exact (merged_rule_lookup core doc ret "850" (Some "walmart") _ eq_refl
                              required_segments "RET_REQ_DTM").
Defined.

(** X13. In every category of a merged ruleset the rule ids are non-empty and
    pairwise different, and they stand in the order in which the ids first
    appear in the core rules, then the document rules, then the retailer
    rules that apply to the document type: a rule that replaces another
    takes its place. *)
Theorem merged_ids :
  forall core doc ret doc_type retailer merged,
    _merge_rulesets core doc ret doc_type retailer = inr merged ->
    forall c,
      map Rule.rule_id (ruleset_get merged c)
      = map Some
            (first_occurrences
               (accepted_ids (merge_input core doc ret doc_type c)))
      /\ NoDup (map Rule.rule_id (ruleset_get merged c))
      /\ Forall (fun rule => Py.opt_truthy (Rule.rule_id rule) = true)
                (ruleset_get merged c).
Proof.
  intros core doc ret doc_type retailer merged H c.
  assert (Hids : map Rule.rule_id (ruleset_get merged c)
                 = map Some
                       (first_occurrences
                          (accepted_ids
                             (merge_input core doc ret doc_type c)))).
  { rewrite (merge_rulesets_categories _ _ _ _ _ _ H c), map_map.
    change (fun x => Rule.rule_id (override_result (tier_overrides ret) x))
      with Rule.rule_id.
    apply merge_category_ids. }
  split; [exact Hids |]. split.
  - rewrite Hids. apply map_Some_NoDup, first_occurrences_NoDup.
  - apply Forall_forall. intros rule Hin.
    apply (in_map Rule.rule_id) in Hin. rewrite Hids in Hin.
    apply in_map_iff in Hin as [k [Hk Hin]]. rewrite <- Hk. simpl.
    apply (proj1 (first_occurrences_In _ _)) in Hin.
    eapply accepted_ids_truthy. exact Hin.
Qed.

Lemma merged_ids_witness :
  let core := tier_of_required [doc_req_dtm; n1_required] in
  let ret := tier_of_required [retailer_req_dtm_856] in
  exists merged,
    _merge_rulesets core Tier.empty ret "856" (Some "walmart") = inr merged
    /\ map Rule.rule_id (ruleset_get merged required_segments)
       = [Some "RET_REQ_DTM"; Some "850_REQ_N1"].
Proof.
  intros core ret. eexists. split; [reflexivity |].
  exact (proj1 (merged_ids core Tier.empty ret "856" (Some "walmart") _
                           eq_refl required_segments)).
Defined.

(** ** Loading *)

Lemma load_rules_cases :
  forall (read : json_loader) doc_type retailer self,
    RuleLoader.load_rules read doc_type retailer self
    = match read X12_CORE_RULES with
      | inl e => (self, inl e)
      | inr core =>
          let self1 :=
            RuleLoader.mk core (RuleLoader.document_rules self)
              (RuleLoader.retailer_rules self)
              (RuleLoader.merged_rules self) in
          match RuleLoader.load_document_rules read doc_type self1 with
          | (self2, inl e) => (self2, inl e)
          | (self2, inr doc) =>
              match
                (if Py.opt_truthy retailer
                 then RuleLoader.load_retailer_rules
                        read (Py.fmt_opt retailer) self2
                 else (self2, inr Tier.empty))
              with
              | (self3, inl e) => (self3, inl e)
              | (self3, inr ret) =>
                  match _merge_rulesets core doc ret doc_type retailer with
                  | inl e => (self3, inl (Raised e))
                  | inr merged =>
                      (RuleLoader.mk (RuleLoader.core_rules self3)
                         (RuleLoader.document_rules self3)
                         (RuleLoader.retailer_rules self3) (Some merged),
                       inr merged)
                  end
              end
          end
      end.
Proof.
  intros read doc_type retailer self.
  unfold RuleLoader.load_rules, RuleLoader.load_core_rules.
  destruct (read X12_CORE_RULES) as [e | core]; [reflexivity |].
  cbv zeta.
  destruct (RuleLoader.load_document_rules read doc_type _) as [self2 [e | doc]];
    [reflexivity |].
  destruct retailer as [r |]; simpl Py.opt_truthy; [| reflexivity].
  destruct (Py.truthy r); reflexivity.
Qed.

Lemma load_document_rules_merged :
  forall (read : json_loader) doc_type self,
    RuleLoader.merged_rules
      (fst (RuleLoader.load_document_rules read doc_type self))
    = RuleLoader.merged_rules self.
Proof.
  intros read doc_type self. unfold RuleLoader.load_document_rules.
  destruct (RuleLoader.document_rule_file (Py.strip doc_type)) as [file |];
    [| reflexivity].
  destruct (read file); reflexivity.
Qed.

Lemma load_retailer_rules_merged :
  forall (read : json_loader) retailer self,
    RuleLoader.merged_rules
      (fst (RuleLoader.load_retailer_rules read retailer self))
    = RuleLoader.merged_rules self.
Proof.
  intros read retailer self. unfold RuleLoader.load_retailer_rules.
  destruct (RuleLoader.retailer_rule_file (Py.strip (Py.lower retailer)))
    as [file |]; [| reflexivity].
  destruct (read file); reflexivity.
Qed.

(** X14. A call of [load_rules] that raises leaves [merged_rules] as it was:
    the queries of the loader keep answering from the ruleset merged
    before, or from none when there was none. *)
Theorem failed_load_keeps_merged_rules :
  forall (read : json_loader) doc_type retailer self self' e,
    RuleLoader.load_rules read doc_type retailer self = (self', inl e) ->
    RuleLoader.merged_rules self' = RuleLoader.merged_rules self
    /\ forall segment_id,
        RuleLoader.get_rules_by_segment self' segment_id
        = RuleLoader.get_rules_by_segment self segment_id.
Proof.
  intros read doc_type retailer self self' e H.
  assert (Hm : RuleLoader.merged_rules self' = RuleLoader.merged_rules self).
  { rewrite load_rules_cases in H.
    destruct (read X12_CORE_RULES) as [e0 | core]; [now injection H as <- _ |].
    cbv zeta in H.
    pose proof (load_document_rules_merged read doc_type
                  (RuleLoader.mk core (RuleLoader.document_rules self)
                     (RuleLoader.retailer_rules self)
                     (RuleLoader.merged_rules self))) as Hdoc.
    destruct (RuleLoader.load_document_rules read doc_type _)
      as [self2 [e0 | doc]]; simpl in Hdoc.
    - now injection H as <- _.
    - assert (Hret :
               RuleLoader.merged_rules
                 (fst (if Py.opt_truthy retailer
                       then RuleLoader.load_retailer_rules
                              read (Py.fmt_opt retailer) self2
                       else (self2, inr Tier.empty)))
               = RuleLoader.merged_rules self2).
      { destruct (Py.opt_truthy retailer);
          [apply load_retailer_rules_merged | reflexivity]. }
      destruct (if Py.opt_truthy retailer
                then RuleLoader.load_retailer_rules
                       read (Py.fmt_opt retailer) self2
                else (self2, inr Tier.empty)) as [self3 [e0 | ret]];
        simpl in Hret.
      + injection H as <- _. congruence.
      + destruct (_merge_rulesets core doc ret doc_type retailer);
          [| discriminate].
        injection H as <- _. congruence. }
  split; [exact Hm |].
  intros segment_id. unfold RuleLoader.get_rules_by_segment. now rewrite Hm.
Qed.

Lemma failed_load_keeps_merged_rules_witness :
  exists loaded merged failed e,
    RuleLoader.load_rules three_files "850" None RuleLoader.new
    = (loaded, inr merged)
    /\ RuleLoader.load_rules three_files "856" None loaded = (failed, inl e)
    /\ RuleLoader.merged_rules failed = Some merged.
Proof.
  do 4 eexists. split; [reflexivity |]. split; [reflexivity |].
  exact (proj1 (failed_load_keeps_merged_rules three_files "856" None _ _ _
                  eq_refl)).
Defined.

(** X15. What [load_rules] returns is the merge of the three files it read:
    the core file, the file of the document type with the white space
    around it taken off, and, for a non-empty retailer, the file of the
    retailer name in lower case and stripped. The merge itself is made with
    the document type and the retailer as they were given, which are also
    the ones in the ruleset information; the result is stored in
    [merged_rules]. *)
Theorem load_rules_result :
  forall (read : json_loader) doc_type retailer self self' merged,
    RuleLoader.load_rules read doc_type retailer self = (self', inr merged) ->
    exists core doc ret file,
      read X12_CORE_RULES = inr core
      /\ RuleLoader.document_rule_file (Py.strip doc_type) = Some file
      /\ read file = inr doc
      /\ (if Py.opt_truthy retailer
          then exists retailer_file,
              RuleLoader.retailer_rule_file
                (Py.strip (Py.lower (Py.fmt_opt retailer)))
              = Some retailer_file
              /\ read retailer_file = inr ret
          else ret = Tier.empty)
      /\ _merge_rulesets core doc ret doc_type retailer = inr merged
      /\ RulesetInfo.doc_type (RuleSet.ruleset_info merged) = doc_type
      /\ RulesetInfo.retailer (RuleSet.ruleset_info merged)
         = (if Py.opt_truthy retailer then Py.fmt_opt retailer else "none")
      /\ RuleLoader.merged_rules self' = Some merged
      /\ RuleLoader.core_rules self' = core
      /\ RuleLoader.document_rules self' = doc.
Proof.
  intros read doc_type retailer self self' merged H.
  rewrite load_rules_cases in H.
  destruct (read X12_CORE_RULES) as [e | core]; [discriminate |].
  cbv zeta in H. unfold RuleLoader.load_document_rules in H.
  destruct (RuleLoader.document_rule_file (Py.strip doc_type)) as [file |];
    [| discriminate].
  destruct (read file) as [e | doc] eqn:Hdoc; [discriminate |].
  assert (Hinfo : forall ret m,
             _merge_rulesets core doc ret doc_type retailer = inr m ->
             RulesetInfo.doc_type (RuleSet.ruleset_info m) = doc_type
             /\ RulesetInfo.retailer (RuleSet.ruleset_info m)
                = (if Py.opt_truthy retailer then Py.fmt_opt retailer
                   else "none")).
  { intros ret m Hm. unfold _merge_rulesets in Hm.
    destruct (Tier.overrides ret) as [overrides |].
    - destruct (_apply_overrides _ overrides) as [e | m'] eqn:Hov;
        [discriminate |].
      apply apply_overrides_info in Hov.
      injection Hm as <-. simpl. rewrite Hov. split; reflexivity.
    - injection Hm as <-. split; reflexivity. }
  destruct (Py.opt_truthy retailer) eqn:Hret.
  - unfold RuleLoader.load_retailer_rules in H.
    destruct (RuleLoader.retailer_rule_file
                (Py.strip (Py.lower (Py.fmt_opt retailer))))
      as [retailer_file |] eqn:Hfile; [| discriminate].
    destruct (read retailer_file) as [e | ret] eqn:Hread; [discriminate |].
    destruct (_merge_rulesets core doc ret doc_type retailer) as [e | m]
      eqn:Hmerge; [discriminate |].
    injection H as <- <-.
    destruct (Hinfo ret m Hmerge) as [Hdt Hrt].
    exists core, doc, ret, file.
    repeat (split; [first [reflexivity | assumption | idtac] |]);
      try reflexivity.
    + now exists retailer_file.
  - destruct (_merge_rulesets core doc Tier.empty doc_type retailer)
      as [e | m] eqn:Hmerge; [discriminate |].
    injection H as <- <-.
    destruct (Hinfo Tier.empty m Hmerge) as [Hdt Hrt].
    exists core, doc, Tier.empty, file.
    repeat (split; [first [reflexivity | assumption] |]); reflexivity.
Qed.

Lemma load_rules_result_witness :
  exists loaded merged,
    RuleLoader.load_rules three_files " 850 " (Some "WalMart ")
                          RuleLoader.new
    = (loaded, inr merged)
    /\ RuleLoader.merged_rules loaded = Some merged
    /\ RulesetInfo.doc_type (RuleSet.ruleset_info merged) = " 850 "
    /\ RulesetInfo.retailer (RuleSet.ruleset_info merged) = "WalMart ".
Proof.
  do 2 eexists. split; [reflexivity |].
  destruct (load_rules_result three_files " 850 " (Some "WalMart ")
                              RuleLoader.new _ _ eq_refl)
    as [core [doc [ret [file [_ [_ [_ [_ [_ [Hdt [Hrt [Hm _]]]]]]]]]]]].
  split; [exact Hm |]. split; [exact Hdt | exact Hrt].
Defined.

Lemma document_rule_file_None :
  forall doc_type,
    ~ In doc_type ["850"; "856"; "810"] ->
    RuleLoader.document_rule_file doc_type = None.
Proof.
  intros doc_type H. unfold RuleLoader.document_rule_file.
  destruct (String.eqb_spec doc_type "850") as [-> | _];
    [exfalso; apply H; simpl; tauto |].
  destruct (String.eqb_spec doc_type "856") as [-> | _];
    [exfalso; apply H; simpl; tauto |].
  destruct (String.eqb_spec doc_type "810") as [-> | _];
    [exfalso; apply H; simpl; tauto |].
  reflexivity.
Qed.

Lemma retailer_rule_file_None :
  forall retailer,
    ~ In retailer ["walmart"; "amazon"; "target"] ->
    RuleLoader.retailer_rule_file retailer = None.
Proof.
  intros retailer H. unfold RuleLoader.retailer_rule_file.
  destruct (String.eqb_spec retailer "walmart") as [-> | _];
    [exfalso; apply H; simpl; tauto |].
  destruct (String.eqb_spec retailer "amazon") as [-> | _];
    [exfalso; apply H; simpl; tauto |].
  destruct (String.eqb_spec retailer "target") as [-> | _];
    [exfalso; apply H; simpl; tauto |].
  reflexivity.
Qed.

(** X16. With a readable core file, [load_rules] raises [ValueError] for a
    document type that, stripped, is none of 850, 856 and 810, and, the
    document file read, for a non-empty retailer that, in lower case and
    stripped, is none of walmart, amazon and target; the message names the
    normalised value and the supported ones. The tiers read before the
    error stay in the loader's attributes. *)
Theorem load_rules_unsupported :
  forall (read : json_loader) doc_type retailer self core,
    read X12_CORE_RULES = inr core ->
    (~ In (Py.strip doc_type) ["850"; "856"; "810"] ->
     RuleLoader.load_rules read doc_type retailer self
     = (RuleLoader.mk core (RuleLoader.document_rules self)
          (RuleLoader.retailer_rules self) (RuleLoader.merged_rules self),
        inl (Raised
               (ValueError
                  ("Unsupported document type: " ++ Py.strip doc_type
                     ++ ". Supported types: ['850', '856', '810']")))))
    /\ (forall file doc name,
           RuleLoader.document_rule_file (Py.strip doc_type) = Some file ->
           read file = inr doc ->
           retailer = Some name ->
           Py.truthy name = true ->
           ~ In (Py.strip (Py.lower name)) ["walmart"; "amazon"; "target"] ->
           RuleLoader.load_rules read doc_type retailer self
           = (RuleLoader.mk core doc (RuleLoader.retailer_rules self)
                (RuleLoader.merged_rules self),
              inl (Raised
                     (ValueError
                        ("Unsupported retailer: " ++ Py.strip (Py.lower name)
                           ++ ". Supported retailers: "
                           ++ "['walmart', 'amazon', 'target']"))))).
Proof.
  intros read doc_type retailer self core Hcore. split.
  - intros Hdt. rewrite load_rules_cases, Hcore. cbv zeta.
    unfold RuleLoader.load_document_rules.
    now rewrite (document_rule_file_None _ Hdt).
  - intros file doc name Hfile Hdoc -> Hname Hret.
    rewrite load_rules_cases, Hcore. cbv zeta.
    unfold RuleLoader.load_document_rules. rewrite Hfile, Hdoc.
    simpl Py.opt_truthy. rewrite Hname. simpl Py.fmt_opt.
    unfold RuleLoader.load_retailer_rules.
    now rewrite (retailer_rule_file_None _ Hret).
Qed.

Lemma load_rules_unsupported_witness :
  RuleLoader.load_rules three_files "997" None RuleLoader.new
  = (RuleLoader.mk (tier_of_required [n1_required]) Tier.empty Tier.empty
       None,
     inl (Raised
            (ValueError
               "Unsupported document type: 997. Supported types: ['850', '856', '810']")))
  /\ RuleLoader.load_rules three_files "850" (Some "Costco") RuleLoader.new
     = (RuleLoader.mk (tier_of_required [n1_required])
          (tier_of_required [doc_req_dtm]) Tier.empty None,
        inl (Raised
               (ValueError
                  "Unsupported retailer: costco. Supported retailers: ['walmart', 'amazon', 'target']"))).
Proof.
  split.
  - apply (proj1 (load_rules_unsupported three_files "997" None
                    RuleLoader.new _ eq_refl)).
    vm_compute. intuition discriminate.
  - apply (proj2 (load_rules_unsupported three_files "850" (Some "Costco")
                    RuleLoader.new _ eq_refl)
                 DOC_850_RULES (tier_of_required [doc_req_dtm]) "Costco");
      try reflexivity.
    vm_compute. intuition discriminate.
Defined.

(* ===================================================================== *)
(** * Further properties of the validators *)
(* ===================================================================== *)

(** ** Where the issues come from *)

Lemma grows_refl : forall P c, grows P c c.
Proof.
  intros P c. exists [], [], []. rewrite !app_nil_r.
  repeat split; constructor.
Qed.

Lemma grows_trans :
  forall P c1 c2 c3, grows P c1 c2 -> grows P c2 c3 -> grows P c1 c3.
Proof.
  intros P c1 c2 c3 [e1 [w1 [i1 [He1 [Hw1 [Hi1 [Fe1 [Fw1 Fi1]]]]]]]]
         [e2 [w2 [i2 [He2 [Hw2 [Hi2 [Fe2 [Fw2 Fi2]]]]]]]].
  exists (e1 ++ e2)%list, (w1 ++ w2)%list, (i1 ++ i2)%list.
  rewrite He2, He1, Hw2, Hw1, Hi2, Hi1, !app_assoc.
  repeat split; apply Forall_app; split; assumption.
Qed.

Lemma grows_impl :
  forall (P Q : Issue.t -> Prop) c c',
    (forall i, P i -> Q i) -> grows P c c' -> grows Q c c'.
Proof.
  intros P Q c c' HPQ [es [ws [others [He [Hw [Hi [Fe [Fw Fi]]]]]]]].
  exists es, ws, others. repeat split; try assumption.
  - eapply Forall_impl; [| exact Fe]. intros i [Hp Hs]. split; auto.
  - eapply Forall_impl; [| exact Fw]. intros i [Hp Hs]. split; auto.
  - eapply Forall_impl; [| exact Fi]. intros i [Hp Hs]. split; auto.
Qed.

Lemma grows_add_error :
  forall (P : Issue.t -> Prop) c rule_id severity message segment_id
         line_number element_position expected_value actual_value context,
    P (Issue.mk rule_id (Py.upper severity) message segment_id line_number
                element_position expected_value actual_value context) ->
    grows P c
      (ErrorCollector.add_error c rule_id severity message segment_id
         line_number element_position expected_value actual_value context).
Proof.
  intros P c rule_id severity message segment_id line_number
         element_position expected_value actual_value context HP.
  unfold ErrorCollector.add_error.
  set (error := Issue.mk rule_id (Py.upper severity) message segment_id
                         line_number element_position expected_value
                         actual_value context) in *.
  destruct (String.eqb_spec (Py.upper severity) "ERROR") as [He | He].
  - exists [error], [], []. simpl. rewrite !app_nil_r.
    split; [reflexivity |]. split; [reflexivity |]. split; [reflexivity |].
    split; [| split]; repeat constructor; assumption.
  - destruct (String.eqb_spec (Py.upper severity) "WARNING") as [Hw | Hw].
    + exists [], [error], []. simpl. rewrite !app_nil_r.
      split; [reflexivity |]. split; [reflexivity |]. split; [reflexivity |].
      split; [| split]; repeat constructor; assumption.
    + exists [], [], [error]. simpl. rewrite !app_nil_r.
      split; [reflexivity |]. split; [reflexivity |]. split; [reflexivity |].
      split; [| split]; repeat constructor; assumption.
Qed.

Lemma reports_ret :
  forall (P : Issue.t -> Prop) (A : Type) (a : A), reports P (ret a).
Proof. intros P A a c. apply grows_refl. Qed.

Lemma reports_raise :
  forall (P : Issue.t -> Prop) (A : Type) (e : exn), reports P (@raise A e).
Proof. intros P A e c. apply grows_refl. Qed.

Lemma reports_lift :
  forall (P : Issue.t -> Prop) (A : Type) (r : exn + A), reports P (lift r).
Proof. intros P A r c. apply grows_refl. Qed.

Lemma reports_bind :
  forall (P : Issue.t -> Prop) (A B : Type) (m : M A) (f : A -> M B),
    reports P m -> (forall a, reports P (f a)) -> reports P (bind m f).
Proof.
  intros P A B m f Hm Hf c. unfold bind.
  specialize (Hm c). destruct (m c) as [c' [e | a]]; simpl in *.
  - exact Hm.
  - eapply grows_trans; [exact Hm | apply Hf].
Qed.

(** What follows [d[name]] runs with the value of the key. *)
Lemma reports_bind_key :
  forall (P : Issue.t -> Prop) (A B : Type) name (o : option A)
         (f : A -> M B),
    (forall a, o = Some a -> reports P (f a)) ->
    reports P (bind (key name o) f).
Proof.
  intros P A B name [a |] f Hf c; unfold bind, key; simpl.
  - now apply Hf.
  - apply grows_refl.
Qed.

Lemma reports_when :
  forall (P : Issue.t -> Prop) b (body : M unit),
    reports P body -> reports P (when b body).
Proof. intros P [|] body Hbody; [exact Hbody | apply reports_ret]. Qed.

Lemma reports_for_each :
  forall (P : Issue.t -> Prop) (A : Type) (l : list A) (body : A -> M unit),
    (forall x, In x l -> reports P (body x)) -> reports P (for_each l body).
Proof.
  intros P A l body Hbody. induction l as [| x l IH]; simpl.
  - apply reports_ret.
  - apply reports_bind; [apply Hbody; now left |].
    intros _. apply IH. intros y Hy. apply Hbody. now right.
Qed.

Lemma reports_add_error :
  forall (P : Issue.t -> Prop) rule_id severity message segment_id
         line_number element_position expected_value actual_value context,
    P (Issue.mk rule_id (Py.upper severity) message segment_id line_number
                element_position expected_value actual_value context) ->
    reports P
      (add_error rule_id severity message segment_id line_number
                 element_position expected_value actual_value context).
Proof. intros. intros c. now apply grows_add_error. Qed.

Lemma reports_impl :
  forall (P Q : Issue.t -> Prop) (A : Type) (m : M A),
    (forall i, P i -> Q i) -> reports P m -> reports Q m.
Proof. intros P Q A m HPQ Hm c. eapply grows_impl; [exact HPQ | apply Hm]. Qed.

(** Splits the goal along the shape of the computation; an issue is
    reported with the id and the severity read in the rule. *)
Ltac reports :=
  repeat
    (intros;
     match goal with
     | |- reports _ (bind (key _ _) _) => apply reports_bind_key
     | |- reports _ (bind _ _) => apply reports_bind
     | |- reports _ (when _ _) => apply reports_when
     | |- reports _ (for_each _ _) => apply reports_for_each
     | |- reports _ (ret _) => apply reports_ret
     | |- reports _ (raise _) => apply reports_raise
     | |- reports _ (lift _) => apply reports_lift
     | |- reports _ (add_error _ _ _ _ _ _ _ _ _) =>
         apply reports_add_error; split;
         [simpl; congruence | eexists; split; [eassumption | reflexivity]]
     | |- reports _ (if ?b then _ else _) => destruct b
     | |- reports _ (match ?x with _ => _ end) => destruct x
     end).

Lemma required_rule_reports :
  forall segments rule,
    reports (from_rule rule)
            (RequiredSegmentValidator.validate_rule segments rule).
Proof.
  intros. unfold RequiredSegmentValidator.validate_rule. reports.
Qed.

Lemma element_rule_reports :
  forall re_match segments rule,
    reports (from_rule rule)
            (ElementValidator.validate_rule re_match segments rule).
Proof.
  intros. unfold ElementValidator.validate_rule,
    ElementValidator.validate_segment,
    ElementValidator._validate_element_value.
  reports.
Qed.

Lemma conditional_rule_reports :
  forall segments rule,
    reports (from_rule rule)
            (for_each segments
               (ConditionalRuleValidator.validate_segment rule segments)).
Proof.
  intros. unfold ConditionalRuleValidator.validate_segment,
    ConditionalRuleValidator._check_then_clause.
  reports.
Qed.

Lemma cross_segment_rule_reports :
  forall segments rule,
    reports (from_rule rule)
            (CrossSegmentValidator.validate_rule segments rule).
Proof.
  intros. unfold CrossSegmentValidator.validate_rule,
    CrossSegmentValidator._validate_count_match,
    CrossSegmentValidator.count_match_segment,
    CrossSegmentValidator._validate_element_match,
    CrossSegmentValidator.element_match_pair,
    CrossSegmentValidator.element_match_step,
    CrossSegmentValidator._validate_element_value_exists.
  reports.
Qed.

Lemma rules_report :
  forall (rules : list Rule.t) (body : Rule.t -> M unit),
    (forall rule, reports (from_rule rule) (body rule)) ->
    reports (from_rules rules) (for_each rules body).
Proof.
  intros rules body Hbody. apply reports_for_each. intros rule Hin.
  eapply reports_impl; [| apply Hbody].
  intros i Hi. now exists rule.
Qed.

Lemma validator_of_reports :
  forall re_match c parsed_edi rules,
    reports (from_rules rules) (validator_of re_match c parsed_edi rules).
Proof.
  intros re_match c parsed_edi rules. destruct c; simpl.
  - apply rules_report. intros rule. apply required_rule_reports.
  - apply rules_report. intros rule. apply element_rule_reports.
  - apply rules_report. intros rule. apply conditional_rule_reports.
  - apply rules_report. intros rule. apply cross_segment_rule_reports.
Qed.

Lemma run_category_grows :
  forall re_match parsed_edi rules c self,
    grows (issue_origin rules) self
          (run_category re_match parsed_edi rules c self).
Proof.
  intros re_match parsed_edi rules c self.
  unfold run_category, ValidationEngine._validate_category.
  destruct (ruleset_get rules c) as [| r rs] eqn:Hrules;
    [apply grows_refl |].
  pose proof (validator_of_reports re_match c parsed_edi (r :: rs) self)
    as Hv.
  assert (Hv' : grows (issue_origin rules) self
                      (fst (validator_of re_match c parsed_edi (r :: rs)
                                         self))).
  { eapply grows_impl; [| exact Hv]. intros i Hi. right. exists c.
    now rewrite Hrules. }
  destruct (validator_of re_match c parsed_edi (r :: rs) self)
    as [collector [e | u]]; simpl in Hv'.
  - eapply grows_trans; [exact Hv' |].
    apply grows_add_error. left. split; reflexivity.
  - exact Hv'.
Qed.

Lemma validate_grows :
  forall re_match start_time end_time parsed_edi rules,
    grows (issue_origin rules) ErrorCollector.new
          (ValidationResult.error_collector
             (ValidationEngine.validate re_match start_time end_time
                                        parsed_edi rules)).
Proof.
  intros re_match start_time end_time parsed_edi rules.
  change (ValidationResult.error_collector
            (ValidationEngine.validate re_match start_time end_time
                                       parsed_edi rules))
    with (run_category re_match parsed_edi rules cross_segment_rules
            (run_category re_match parsed_edi rules conditional_rules
               (run_category re_match parsed_edi rules element_rules
                  (run_category re_match parsed_edi rules required_segments
                     ErrorCollector.new)))).
  do 3 (eapply grows_trans; [| apply run_category_grows]).
  apply run_category_grows.
Qed.

(** X17. Every issue of a validation result is the record of an exception
    caught at a category boundary (id SYSTEM_ERROR, severity ERROR) or
    bears the id of a rule of the ruleset and that rule's severity in upper
    case; and it is in the list of its severity: ERROR in the errors,
    WARNING in the warnings, any other severity in the infos. *)
Theorem issues_come_from_rules :
  forall re_match start_time end_time parsed_edi rules,
    let result :=
      ValidationEngine.validate re_match start_time end_time parsed_edi
                                rules in
    Forall (fun i => issue_origin rules i /\ Issue.severity i = "ERROR")
           (ValidationResult.get_errors result)
    /\ Forall (fun i => issue_origin rules i /\ Issue.severity i = "WARNING")
              (ValidationResult.get_warnings result)
    /\ Forall (fun i => issue_origin rules i
                        /\ Issue.severity i <> "ERROR"
                        /\ Issue.severity i <> "WARNING")
              (ErrorCollector.info (ValidationResult.error_collector result)).
Proof.
  intros re_match start_time end_time parsed_edi rules result.
  destruct (validate_grows re_match start_time end_time parsed_edi rules)
    as [es [ws [others [He [Hw [Hi [Fe [Fw Fi]]]]]]]].
  unfold ValidationResult.get_errors, ValidationResult.get_warnings.
  subst result. rewrite He, Hw, Hi. simpl. auto.
Qed.

(** X18. A ruleset none of whose rules has the severity ERROR, in any
    case of the letters, can only fail compliance through an exception:
    every ERROR issue of the result is then the record of an exception
    caught at a category boundary. *)
Theorem only_exceptions_fail_lenient_rules :
  forall re_match start_time end_time parsed_edi rules,
    (forall c rule severity,
        In rule (ruleset_get rules c) ->
        Rule.severity rule = Some severity ->
        Py.upper severity <> "ERROR") ->
    let result :=
      ValidationEngine.validate re_match start_time end_time parsed_edi
                                rules in
    Forall (fun i => Issue.rule_id i = "SYSTEM_ERROR")
           (ValidationResult.get_errors result)
    /\ (ValidationResult.is_compliant result = false ->
        exists i, In i (ValidationResult.get_errors result)
                  /\ Issue.rule_id i = "SYSTEM_ERROR").
Proof.
  intros re_match start_time end_time parsed_edi rules Hlenient result.
  destruct (validate_grows re_match start_time end_time parsed_edi rules)
    as [es [ws [others [He [_ [_ [Fe _]]]]]]].
  assert (Hall : Forall (fun i => Issue.rule_id i = "SYSTEM_ERROR")
                        (ValidationResult.get_errors result)).
  { unfold ValidationResult.get_errors. subst result. rewrite He. simpl.
    eapply Forall_impl; [| exact Fe].
    intros i [[[Hid _] | [c [rule [Hin [_ [sev [Hsev Hup]]]]]]] Herr].
    - exact Hid.
    - exfalso. apply (Hlenient c rule sev Hin Hsev). congruence. }
  split; [exact Hall |].
  intros Hnot. unfold ValidationResult.is_compliant,
                 ErrorCollector.has_errors in Hnot.
  unfold ValidationResult.get_errors in *.
  destruct (ErrorCollector.errors (ValidationResult.error_collector result))
    as [| i rest]; [discriminate |].
  exists i. split; [now left |]. now inversion Hall.
Qed.

(* ===================================================================== *)
(** * Further properties of the error collector *)
(* ===================================================================== *)

Lemma filter_length_le :
  forall {A} (f : A -> bool) (l : list A),
    (List.length (filter f l) <= List.length l)%nat.
Proof.
  intros A f. induction l as [| x l IH]; simpl; [lia |].
  destruct (f x); simpl; lia.
Qed.

Lemma segment_key_eqb :
  forall error segment_id,
    Py.truthy segment_id = true ->
    Py.opt_eqb (segment_key error) segment_id
    = Py.opt_eqb (Issue.segment_id error) segment_id.
Proof.
  intros error segment_id Ht. unfold segment_key.
  destruct (Issue.segment_id error) as [s |]; [| reflexivity].
  destruct s as [| c s]; [| reflexivity].
  simpl. now destruct segment_id.
Qed.

Lemma segment_key_truthy :
  forall error k, segment_key error = Some k -> Py.truthy k = true.
Proof.
  intros error k. unfold segment_key.
  destruct (Issue.segment_id error) as [s |]; [| discriminate].
  destruct (Py.truthy s) eqn:Ht; [| discriminate].
  now intros [= <-].
Qed.

(** X19. The statistics of a collector agree with its queries:
    [total_errors] is its length and the sum of the three severity counts;
    [by_rule] holds, for each rule id that occurs, the number of issues
    with it, and its values add up to the total; [by_segment] holds, for
    each non-empty segment id that occurs, the number of issues
    [get_errors_by_segment] returns, never counts the empty id, and its
    values add up to the number of issues with a non-empty segment id;
    [is_compliant] is the negation of [has_errors]. *)
Theorem collector_statistics :
  forall self : ErrorCollector.t,
    let stats := ErrorCollector.get_statistics self in
    let all_errors := ErrorCollector.get_all_errors self in
    ErrorCollector.total_errors stats = ErrorCollector.len self
    /\ total (ErrorCollector.by_severity stats)
       = ErrorCollector.total_errors stats
    /\ (forall rule_id,
           let n :=
             Py.len (filter (fun e => String.eqb (Issue.rule_id e) rule_id)
                            all_errors) in
           od_get rule_id (ErrorCollector.by_rule stats)
           = if n =? 0 then None else Some n)
    /\ total (ErrorCollector.by_rule stats)
       = ErrorCollector.total_errors stats
    /\ (forall segment_id,
           Py.truthy segment_id = true ->
           let n :=
             Py.len (ErrorCollector.get_errors_by_segment self segment_id) in
           od_get segment_id (ErrorCollector.by_segment stats)
           = if n =? 0 then None else Some n)
    /\ od_get "" (ErrorCollector.by_segment stats) = None
    /\ total (ErrorCollector.by_segment stats)
       = Py.len (filter (fun e => Py.opt_truthy (Issue.segment_id e))
                        all_errors)
    /\ NoDup (od_keys (ErrorCollector.by_rule stats))
    /\ NoDup (od_keys (ErrorCollector.by_segment stats))
    /\ ErrorCollector.is_compliant stats
       = negb (ErrorCollector.has_errors self).
Proof.
  intros self stats all_errors. subst stats.
  unfold ErrorCollector.get_statistics. fold all_errors. simpl.
  set (rule_key := fun e : Issue.t => Some (Issue.rule_id e)).
  set (rule_step :=
         fun counts (error : Issue.t) =>
           count_incr (Issue.rule_id error) counts).
  set (segment_step :=
         fun counts (error : Issue.t) =>
           match Issue.segment_id error with
           | Some s => if Py.truthy s then count_incr s counts else counts
           | None => counts
           end).
  assert (Hrule : forall d x,
             rule_step d x
             = match rule_key x with
               | Some k => count_incr k d
               | None => d
               end) by reflexivity.
  assert (Hseg : forall d x,
             segment_step d x
             = match segment_key x with
               | Some k => count_incr k d
               | None => d
               end).
  { intros d x. unfold segment_step, segment_key.
    destruct (Issue.segment_id x) as [s |]; [| reflexivity].
    now destruct (Py.truthy s). }
  split; [reflexivity |]. split.
  { unfold total, all_errors, ErrorCollector.get_all_errors, Py.len. simpl.
    rewrite !length_app. lia. }
  split.
  { intros rule_id.
    exact (tally_get rule_key rule_step Hrule rule_id all_errors []). }
  split.
  { rewrite (tally_total rule_key rule_step Hrule).
    change (fun x : Issue.t => Tier.is_some (rule_key x))
      with (fun _ : Issue.t => true).
    now rewrite filter_all. }
  split.
  { intros segment_id Ht.
    rewrite (tally_get segment_key segment_step Hseg segment_id all_errors []).
    simpl od_get. unfold occurrences, ErrorCollector.get_errors_by_segment.
    fold all_errors.
    rewrite (filter_ext _ _ (fun e => segment_key_eqb e segment_id Ht)).
    reflexivity. }
  split.
  { rewrite (tally_get segment_key segment_step Hseg "" all_errors []).
    simpl od_get. unfold occurrences.
    assert (E : filter (fun x => Py.opt_eqb (segment_key x) "") all_errors
                = []).
    { apply filter_nil_iff. apply forallb_forall. intros e _.
      destruct (segment_key e) as [k |] eqn:Hk; [| reflexivity].
      apply segment_key_truthy in Hk. now destruct k. }
    now rewrite E. }
  split.
  { rewrite (tally_total segment_key segment_step Hseg).
    change (total []) with 0. rewrite Z.add_0_l.
    f_equal. apply filter_ext. intros e. unfold segment_key.
    destruct (Issue.segment_id e) as [s |]; [| reflexivity].
    simpl. now destruct (Py.truthy s). }
  split; [apply (tally_NoDup rule_key rule_step Hrule); constructor |].
  split; [apply (tally_NoDup segment_key segment_step Hseg); constructor |].
  unfold ErrorCollector.has_errors, Py.len.
  destruct (ErrorCollector.errors self); reflexivity.
Qed.

(* ===================================================================== *)
(** * Further properties of the evaluators *)
(* ===================================================================== *)

(** ** Required segments *)

Lemma find_matching_no_filters :
  forall segments segment_id,
    RequiredSegmentValidator._find_matching_segments segments segment_id []
    = inr (segments_with_id segments segment_id).
Proof.
  unfold segments_with_id.
  induction segments as [| s segments IH]; intros segment_id; [reflexivity |].
  simpl. destruct (Py.opt_eqb segment_id (Segment.segment_id s)); simpl;
    now rewrite IH.
Qed.

(** X20. A required-segment rule whose count of matching segments is within
    its bounds adds nothing and does not raise, even when the rule has no
    id, severity or description. A count above a maximum that is not
    negative (and not below the minimum) adds exactly one issue, at the
    line of the first matching segment in excess. Without element filters
    the matching segments are all the segments with the rule's segment
    id. *)
Theorem required_segment_bounds :
  forall (segments matching : list Segment.t) (rule : Rule.t),
    RequiredSegmentValidator._find_matching_segments
      segments (Rule.segment_id rule) (Rule.element_filters rule)
    = inr matching ->
    let count := Py.len matching in
    let min_occurrences :=
      match Rule.min_occurrences rule with Some n => n | None => 0 end in
    (Rule.element_filters rule = [] ->
     matching = segments_with_id segments (Rule.segment_id rule))
    /\ (min_occurrences <= count ->
        match Rule.max_occurrences rule with
        | Some m => count <= m
        | None => True
        end ->
        forall c,
          RequiredSegmentValidator.validate_rule segments rule c
          = (c, inr tt))
    /\ (forall max_occurrences rule_id severity excess,
           min_occurrences <= count ->
           Rule.max_occurrences rule = Some max_occurrences ->
           0 <= max_occurrences < count ->
           Rule.rule_id rule = Some rule_id ->
           Rule.severity rule = Some severity ->
           nth_error matching (Z.to_nat max_occurrences) = Some excess ->
           forall c,
             RequiredSegmentValidator.validate_rule segments rule c
             = (ErrorCollector.add_error c rule_id severity
                  (Py.fmt_opt (Rule.segment_id rule)
                     ++ " appears too many times (found " ++ Py.str_Z count
                     ++ ", max " ++ Py.str_Z max_occurrences ++ ")")
                  (Rule.segment_id rule) (Some (Segment.line excess)) None
                  (Some ("max " ++ Py.str_Z max_occurrences))
                  (Some (Py.str_Z count)) [],
                inr tt)).
Proof.
  intros segments matching rule Hfind count min_occurrences.
  split; [| split].
  - intros Hnone. rewrite Hnone, find_matching_no_filters in Hfind.
    now injection Hfind as <-.
  - intros Hmin Hmax c. unfold RequiredSegmentValidator.validate_rule.
    unfold bind at 1. unfold lift. rewrite Hfind.
    fold count. fold min_occurrences.
    assert (Hlt : (count <? min_occurrences) = false)
      by (apply Z.ltb_ge; lia).
    rewrite Hlt. unfold when at 1. unfold bind, ret.
    destruct (Rule.max_occurrences rule) as [m |]; [| reflexivity].
    assert (Hgt : (count >? m) = false).
    { destruct (Z.gtb_spec count m); [lia | reflexivity]. }
    now rewrite Hgt.
  - intros m rule_id severity excess Hmin Hmax Hm Hid Hsev Hnth c.
    unfold RequiredSegmentValidator.validate_rule.
    unfold bind at 1. unfold lift. rewrite Hfind.
    fold count. fold min_occurrences.
    assert (Hlt : (count <? min_occurrences) = false)
      by (apply Z.ltb_ge; lia).
    rewrite Hlt, Hmax, Hid, Hsev. unfold when at 1. unfold bind at 1.
    unfold ret at 1.
    assert (Hgt : (count >? m) = true).
    { destruct (Z.gtb_spec count m); [reflexivity | lia]. }
    assert (Hpos : (count >? 0) = true).
    { destruct (Z.gtb_spec count 0); [reflexivity | lia]. }
    rewrite Hgt, Hpos. unfold when.
    unfold item. rewrite (index_nonneg matching m (proj1 Hm)), Hnth.
    reflexivity.
Qed.

(** ** Element rules *)

Lemma nth_error_item :
  forall {A} (l : list A) (i : Z),
    0 <= i ->
    match nth_error l (Z.to_nat i) with
    | Some x => (i >=? Py.len l) = false /\ item l i = inr x
    | None => (i >=? Py.len l) = true
    end.
Proof.
  intros A l i Hi. unfold item. rewrite (index_nonneg l i Hi).
  destruct (nth_error l (Z.to_nat i)) as [x |] eqn:E.
  - split; [| reflexivity].
    assert (H : nth_error l (Z.to_nat i) <> None) by congruence.
    apply nth_error_Some in H. unfold Py.len.
    destruct (Z.geb_spec i (Z.of_nat (List.length l))); [lia | reflexivity].
  - apply nth_error_None in E. unfold Py.len.
    destruct (Z.geb_spec i (Z.of_nat (List.length l))); [reflexivity | lia].
Qed.

(** X21. An element that is absent or blank in a segment the rule applies
    to: when the rule does not require it, nothing is added and nothing is
    raised, whatever lengths, allowed values or pattern the rule asks for
    (the regular-expression engine is not consulted); when the rule
    requires it, exactly one issue is added, at the segment's line and the
    element's position. *)
Theorem blank_element :
  forall (re_match : regex_engine) (rule : Rule.t) (element_position : Z)
         (segment : Segment.t),
    Conditional.truthy (Rule.conditional rule) = false
    \/ ElementValidator._check_conditional segment (Rule.conditional rule)
       = inr true ->
    0 <= element_position ->
    match nth_error (Segment.elements segment) (Z.to_nat element_position) with
    | Some x => Py.strip x = ""
    | None => True
    end ->
    (ElementValidator.is_true (Validations.required (Rule.validations rule))
     = false ->
     forall c,
       ElementValidator.validate_segment re_match rule element_position
                                         segment c
       = (c, inr tt))
    /\ (forall rule_id severity,
           ElementValidator.is_true
             (Validations.required (Rule.validations rule)) = true ->
           Rule.rule_id rule = Some rule_id ->
           Rule.severity rule = Some severity ->
           exists message segment_id actual_value,
             forall c,
               ElementValidator.validate_segment re_match rule
                                                 element_position segment c
               = (ErrorCollector.add_error c rule_id severity message
                    segment_id (Some (Segment.line segment))
                    (Some element_position) None actual_value [],
                  inr tt)).
Proof.
  intros re_match rule pos segment Hcond Hpos Hblank.
  assert (Happlies :
            forall (k : bool -> M unit) c,
              bind (if Conditional.truthy (Rule.conditional rule)
                    then lift (ElementValidator._check_conditional
                                 segment (Rule.conditional rule))
                    else ret true) k c
              = k true c).
  { intros k c. destruct Hcond as [Hc | Hc].
    - now rewrite Hc.
    - destruct (Conditional.truthy (Rule.conditional rule));
        [| reflexivity].
      unfold bind, lift. now rewrite Hc. }
  pose proof (nth_error_item (Segment.elements segment) pos Hpos) as Hitem.
  split.
  - intros Hreq c. unfold ElementValidator.validate_segment.
    rewrite Happlies. cbn [negb].
    destruct (nth_error (Segment.elements segment) (Z.to_nat pos)) as [x |].
    + destruct Hitem as [Hge Hx]. rewrite Hge.
      unfold bind at 1. unfold lift. rewrite Hx.
      unfold ElementValidator._validate_element_value.
      rewrite Hreq, Hblank. reflexivity.
    + rewrite Hitem, Hreq. reflexivity.
  - intros rule_id severity Hreq Hid Hsev.
    destruct (nth_error (Segment.elements segment) (Z.to_nat pos)) as [x |].
    + destruct Hitem as [Hge Hx].
      eexists _, _, _. intros c.
      unfold ElementValidator.validate_segment.
      rewrite Happlies. cbn [negb]. rewrite Hge.
      unfold bind at 1. unfold lift. rewrite Hx.
      unfold ElementValidator._validate_element_value.
      rewrite Hreq, Hblank. cbn [Py.truthy negb andb].
      apply report_with_keys; assumption.
    + eexists _, _, _. intros c.
      unfold ElementValidator.validate_segment.
      rewrite Happlies. cbn [negb]. rewrite Hitem, Hreq.
      unfold when. apply report_with_keys; assumption.
Qed.

(** ** Conditional rules *)

Lemma firstn_exact :
  forall {A} (l more : list A) n,
    List.length l = n -> firstn n (l ++ more) = l.
Proof.
  intros A l more n <-. rewrite firstn_app, Nat.sub_diag, firstn_all. simpl.
  apply app_nil_r.
Qed.

Lemma firstn_short :
  forall {A} (l : list A) n, (List.length l <= n)%nat -> firstn n l = l.
Proof. intros A l n H. now apply firstn_all2. Qed.

Lemma loop_scan_capped :
  forall cap within_loop trigger_line all_segments loop_segments,
    cap = 11%nat ->
    (List.length loop_segments <= 10)%nat ->
    ConditionalRuleValidator.loop_scan within_loop trigger_line all_segments
                                       loop_segments
    = firstn cap
        (loop_segments
         ++ take_while
              (fun s => negb (String.eqb (Segment.segment_id s) within_loop))
              (filter (fun s => Segment.line s >? trigger_line)
                      all_segments)).
Proof.
  intros cap within_loop trigger_line all_segments.
  induction all_segments as [| seg rest IH]; intros acc Hcap Hlen; simpl.
  - rewrite app_nil_r. symmetry. apply firstn_short. lia.
  - destruct (Segment.line seg >? trigger_line); [| now apply IH].
    simpl. destruct (String.eqb (Segment.segment_id seg) within_loop); simpl.
    + rewrite app_nil_r. symmetry. apply firstn_short. lia.
    + unfold Py.len.
      destruct (Z.gtb_spec (Z.of_nat (List.length (acc ++ [seg]))) 10)
        as [Hfull | Hfull].
      * match goal with
        | |- _ = firstn cap (acc ++ seg :: ?l)%list =>
            replace (acc ++ seg :: l)%list with ((acc ++ [seg]) ++ l)%list
              by (now rewrite <- app_assoc)
        end.
        symmetry. apply firstn_exact.
        rewrite length_app in *. simpl in *. lia.
      * rewrite IH; [| exact Hcap | lia]. now rewrite <- app_assoc.
Qed.

Lemma loop_scan_spec :
  forall within_loop trigger_line all_segments,
    ConditionalRuleValidator.loop_scan within_loop trigger_line all_segments
                                       []
    = firstn 11
        (take_while
           (fun s => negb (String.eqb (Segment.segment_id s) within_loop))
           (filter (fun s => Segment.line s >? trigger_line) all_segments)).
Proof.
  intros. apply (loop_scan_capped 11); [reflexivity | simpl; lia].
Qed.

(** X22. The segments searched for the segments a conditional rule requires.
    With a non-empty [within_loop]: the segments after the trigger's line,
    up to the next segment with the loop's id, and no more than the first
    eleven of them. Without it: every segment of the document, those
    before the trigger as well. *)
Theorem loop_window :
  forall (within_loop : option string) (trigger_segment : Segment.t)
         (all_segments : list Segment.t),
    ConditionalRuleValidator.loop_segments_of within_loop trigger_segment
                                              all_segments
    = if Py.opt_truthy within_loop then
        firstn 11
          (take_while
             (fun s => negb (Py.opt_eqb within_loop (Segment.segment_id s)))
             (filter (fun s => Segment.line s
                               >? Segment.line trigger_segment)
                     all_segments))
      else all_segments.
Proof.
  intros [w |] trigger all_segments; [| reflexivity].
  unfold ConditionalRuleValidator.loop_segments_of. simpl Py.opt_truthy.
  destruct (Py.truthy w); [| reflexivity].
  rewrite loop_scan_spec. f_equal.
  generalize (filter (fun s => Segment.line s >? Segment.line trigger)
                     all_segments) as l.
  induction l as [| s l IH]; [reflexivity |].
  simpl. rewrite (String.eqb_sym w). now rewrite IH.
Qed.

(** X23. When a conditional rule fires on a segment with the rule's
    [if_segment]. It never does when [if_element] is absent or is 0 (or an
    empty string): a condition cannot bear on the segment id. When the
    element is there at a position 1 or more and not blank,
    [if_value_exists] makes the rule fire whatever [if_value] says. When
    the rule has neither an [if_value] nor [if_value_exists], it never
    fires. *)
Theorem conditional_trigger :
  forall (rule : Rule.t) (segments : list Segment.t) (segment : Segment.t),
    let condition := Rule.condition rule in
    (match Condition.if_element condition with
     | Some v => jnum_truthy v = false
     | None => True
     end ->
     forall c,
       ConditionalRuleValidator.validate_segment rule segments segment c
       = (c, inr tt))
    /\ (forall position x,
           Py.opt_eqb (Condition.if_segment condition)
                      (Segment.segment_id segment) = true ->
           Condition.if_element condition = Some (JInt position) ->
           0 < position ->
           nth_error (Segment.elements segment) (Z.to_nat position)
           = Some x ->
           Py.truthy (Py.strip x) = true ->
           Condition.if_value_exists condition = Some true ->
           forall c,
             ConditionalRuleValidator.validate_segment rule segments segment c
             = ConditionalRuleValidator._check_then_clause
                 rule segment segments (Rule.then_clause rule) c)
    /\ (forall position,
           Condition.if_element condition = Some (JInt position) ->
           0 <= position ->
           Py.opt_truthy (Condition.if_value condition) = false ->
           ElementValidator.is_true (Condition.if_value_exists condition)
           = false ->
           forall c,
             ConditionalRuleValidator.validate_segment rule segments segment c
             = (c, inr tt)).
Proof.
  intros rule segments segment condition. subst condition.
  split; [| split].
  - intros Hzero c. unfold ConditionalRuleValidator.validate_segment.
    destruct (Py.opt_eqb (Condition.if_segment (Rule.condition rule))
                         (Segment.segment_id segment)); [| reflexivity].
    cbn [negb].
    destruct (Condition.if_element (Rule.condition rule)) as [v |];
      [rewrite Hzero |]; reflexivity.
  - intros position x Hseg Hel Hpos Hnth Hx Hexists c.
    unfold ConditionalRuleValidator.validate_segment.
    rewrite Hseg, Hel, Hexists. cbn [negb].
    assert (Hnz : jnum_truthy (JInt position) = true).
    { simpl. destruct (Z.eqb_spec position 0); [lia | reflexivity]. }
    rewrite Hnz.
    pose proof (nth_error_item (Segment.elements segment) position
                               (Z.lt_le_incl _ _ Hpos)) as Hitem.
    rewrite Hnth in Hitem. destruct Hitem as [Hge Hitem].
    assert (Hlt : (position <? Py.len (Segment.elements segment)) = true).
    { destruct (Z.geb_spec position (Py.len (Segment.elements segment)));
        [discriminate |]. apply Z.ltb_lt. lia. }
    unfold bind, lift, ret. simpl py_int. cbv iota. rewrite Hlt, Hitem.
    simpl ElementValidator.is_true. rewrite Hx.
    destruct (Py.opt_truthy (Condition.if_value (Rule.condition rule))
              && Py.opt_eqb (Condition.if_value (Rule.condition rule))
                            (Py.strip x)); reflexivity.
  - intros position Hel Hpos Hval Hexists c.
    unfold ConditionalRuleValidator.validate_segment.
    destruct (Py.opt_eqb (Condition.if_segment (Rule.condition rule))
                         (Segment.segment_id segment)); [| reflexivity].
    cbn [negb]. rewrite Hel, Hval, Hexists.
    destruct (jnum_truthy (JInt position)); [| reflexivity].
    unfold bind, lift, ret. simpl py_int. cbv iota.
    destruct (position <? Py.len (Segment.elements segment)) eqn:Hlt;
      [| reflexivity].
    assert (Hwithin : exists x,
               nth_error (Segment.elements segment) (Z.to_nat position)
               = Some x) by (now apply nth_error_within).
    destruct Hwithin as [x Hx].
    pose proof (nth_error_item (Segment.elements segment) position Hpos)
      as Hitem.
    rewrite Hx in Hitem. destruct Hitem as [_ Hitem]. rewrite Hitem.
    reflexivity.
Qed.

(** ** Cross-segment rules *)

Lemma for_each_silent :
  forall {A} (l : list A) (body : A -> M unit),
    Forall (fun x => forall c, body x c = (c, inr tt)) l ->
    forall c, for_each l body c = (c, inr tt).
Proof.
  intros A l body Hall. induction Hall as [| x l Hx _ IH]; intros c.
  - reflexivity.
  - simpl. unfold bind. now rewrite Hx, IH.
Qed.

Lemma nth_error_lt :
  forall {A} (l : list A) (i : Z),
    0 <= i ->
    match nth_error l (Z.to_nat i) with
    | Some x => (i <? Py.len l) = true /\ item l i = inr x
    | None => (i <? Py.len l) = false
    end.
Proof.
  intros A l i Hi. pose proof (nth_error_item l i Hi) as H.
  destruct (nth_error l (Z.to_nat i)) as [x |].
  - destruct H as [Hge Hx]. split; [| exact Hx].
    destruct (Z.geb_spec i (Py.len l)); [discriminate |].
    apply Z.ltb_lt. lia.
  - destruct (Z.geb_spec i (Py.len l)); [| discriminate].
    apply Z.ltb_ge. lia.
Qed.

(** X24. A count-match rule adds nothing and raises nothing when every target
    segment either has no element at the counted position or holds there,
    read as Python reads an integer, the number of source segments; in
    particular when the document has no target segment at all. The rule's
    id and severity are not read in that case. *)
Theorem count_match_agreement :
  forall (rule : Rule.t) (segments : list Segment.t) (target_element : Z),
    let logic := Rule.validation_logic rule in
    py_int_default0 (ValidationLogic.target_element logic)
    = inr target_element ->
    0 <= target_element ->
    Forall (declares
              (Py.len (segments_with_id
                         segments (ValidationLogic.source_segment logic)))
              target_element)
           (segments_with_id segments
                             (ValidationLogic.target_segment logic)) ->
    forall c,
      CrossSegmentValidator._validate_count_match rule segments logic c
      = (c, inr tt).
Proof.
  intros rule segments target_element logic Hint Hpos Hall c.
  unfold CrossSegmentValidator._validate_count_match.
  unfold bind at 1. unfold lift. rewrite Hint.
  apply for_each_silent.
  eapply Forall_impl; [| exact Hall].
  intros target_seg Hdecl c'. unfold declares in Hdecl.
  unfold CrossSegmentValidator.count_match_segment.
  pose proof (nth_error_lt (Segment.elements target_seg) target_element Hpos)
    as Hitem.
  destruct (nth_error (Segment.elements target_seg)
                      (Z.to_nat target_element)) as [x |].
  - destruct Hitem as [Hlt Hx]. rewrite Hlt.
    unfold bind at 1. unfold lift. rewrite Hx, Hdecl, Z.eqb_refl.
    reflexivity.
  - now rewrite Hitem.
Qed.

Lemma value_exists_spec :
  forall segments segment_id element_position required_value,
    0 <= element_position ->
    CrossSegmentValidator.value_exists segments segment_id element_position
                                       required_value
    = inr (existsb (carries segment_id element_position required_value)
                   segments).
Proof.
  intros segments segment_id pos required_value Hpos.
  induction segments as [| s segments IH]; [reflexivity |].
  simpl. unfold carries at 1.
  destruct (Py.opt_eqb segment_id (Segment.segment_id s)); [| exact IH].
  pose proof (nth_error_lt (Segment.elements s) pos Hpos) as Hitem.
  destruct (nth_error (Segment.elements s) (Z.to_nat pos)) as [x |].
  - destruct Hitem as [Hlt Hx]. rewrite Hlt, Hx. cbn [andb].
    destruct (Py.opt_eqb required_value (Py.strip x)); [reflexivity |].
    exact IH.
  - rewrite Hitem. exact IH.
Qed.

(** X25. A rule of type element_value_exists, with a position that is not
    negative: nothing is added when some segment with the id holds the
    required value, stripped, at the position; otherwise exactly one issue
    is added, without a line number, whether the document has such
    segments or not. *)
Theorem element_value_exists_outcome :
  forall (rule : Rule.t) (segments : list Segment.t)
         (element_position : Z) (rule_id severity : string),
    let logic := Rule.validation_logic rule in
    let segment_id := ValidationLogic.segment_id logic in
    let required_value := ValidationLogic.required_value logic in
    py_int_default0 (ValidationLogic.element_position logic)
    = inr element_position ->
    0 <= element_position ->
    Rule.rule_id rule = Some rule_id ->
    Rule.severity rule = Some severity ->
    forall c,
      CrossSegmentValidator._validate_element_value_exists rule segments
                                                           logic c
      = if existsb (carries segment_id element_position required_value)
                   segments
        then (c, inr tt)
        else
          (ErrorCollector.add_error c rule_id severity
             (ConditionalRuleValidator.message_or
                (ValidationLogic.message logic)
                ("No " ++ Py.fmt_opt segment_id ++ " segment with "
                   ++ Py.fmt_opt segment_id ++ Py.fmt02 element_position
                   ++ "=" ++ Py.fmt_opt required_value ++ " found"))
             segment_id None None required_value None [],
           inr tt).
Proof.
  intros rule segments pos rule_id severity logic segment_id required_value
         Hint Hpos Hid Hsev c.
  unfold CrossSegmentValidator._validate_element_value_exists.
  unfold bind at 1. unfold lift at 1. fold logic. rewrite Hint.
  unfold bind at 1. unfold lift at 1.
  fold segment_id. fold required_value.
  rewrite (value_exists_spec segments segment_id pos required_value Hpos).
  destruct (existsb (carries segment_id pos required_value) segments).
  - reflexivity.
  - unfold when. cbn [negb]. now apply report_with_keys.
Qed.

(* ===================================================================== *)
(** * Instances *)
(* ===================================================================== *)

Lemma normalize_twice_witness :
  let text := " ST*850*0001~ BEG*00*NE ~ " in
  parse_text text = inr (document_of text)
  /\ map Segment.raw (Document.segments (document_of text))
     = ["ST*850*0001"; "BEG*00*NE"].
Proof.
  intros text.
  assert (Hparse : parse_text text = inr (document_of text))
    by (vm_compute; reflexivity).
  split; [exact Hparse |].
  rewrite (proj2 (proj2 (normalize_twice SEGMENT_TERMINATOR text))
                 (document_of text) Hparse).
  vm_compute. reflexivity.
Defined.

Lemma only_exceptions_fail_lenient_rules_witness :
  let result :=
    ValidationEngine.validate match_all 0 0
      (document_of "ST*850*0001~SE*1*0001~")
      (ruleset_of [doc_req_dtm] [] [] []) in
  Forall (fun i => Issue.rule_id i = "SYSTEM_ERROR")
         (ValidationResult.get_errors result).
Proof.
  intros result.
  apply (only_exceptions_fail_lenient_rules match_all 0 0
           (document_of "ST*850*0001~SE*1*0001~")
           (ruleset_of [doc_req_dtm] [] [] [])).
  intros c rule severity Hin Hsev.
  destruct c; simpl in Hin; try contradiction.
  destruct Hin as [<- | []]. injection Hsev as <-.
  vm_compute. discriminate.
Defined.

Lemma collector_statistics_witness :
  let stats := ErrorCollector.get_statistics three_issues in
  od_get "BEG" (ErrorCollector.by_segment stats) = Some 2
  /\ od_get "R1" (ErrorCollector.by_rule stats) = Some 2
  /\ ErrorCollector.total_errors stats = 3.
Proof.
  intros stats.
  destruct (collector_statistics three_issues)
    as [Htotal [_ [Hrule [_ [Hseg _]]]]].
  split; [| split].
  - exact (Hseg "BEG" eq_refl).
  - exact (Hrule "R1").
  - exact Htotal.
Defined.

Lemma required_segment_bounds_witness :
  let segments :=
    Document.segments (document_of "ST*850*0001~N1*ST~N1*BT~SE*1*0001~") in
  RequiredSegmentValidator.validate_rule segments n1_at_most_one
                                         ErrorCollector.new
  = (ErrorCollector.add_error ErrorCollector.new "850_MAX_N1" "ERROR"
       "N1 appears too many times (found 2, max 1)" (Some "N1") (Some 3)
       None (Some "max 1") (Some "2") [],
     inr tt).
Proof.
  intros segments.
  assert (Hfind :
            RequiredSegmentValidator._find_matching_segments
              segments (Rule.segment_id n1_at_most_one)
              (Rule.element_filters n1_at_most_one)
            = inr (segments_with_id segments (Some "N1")))
    by (vm_compute; reflexivity).
  apply (proj2 (proj2 (required_segment_bounds
                         segments (segments_with_id segments (Some "N1"))
                         n1_at_most_one Hfind))
               1 "850_MAX_N1" "ERROR"
               (Segment.mk 3 "N1" ["N1"; "BT"] 2 "N1*BT"));
    try reflexivity; vm_compute; intuition discriminate.
Defined.

Lemma blank_element_witness :
  let segment := Segment.mk 2 "BEG" ["BEG"; "00"; "NE"] 3 "BEG*00*NE" in
  exists message segment_id actual_value,
    forall c,
      ElementValidator.validate_segment match_all beg03_required 3 segment c
      = (ErrorCollector.add_error c "ELEM_BEG03" "ERROR" message segment_id
           (Some 2) (Some 3) None actual_value [],
         inr tt).
Proof.
  intros segment.
  apply (proj2 (blank_element match_all beg03_required 3 segment
                  (or_introl eq_refl) ltac:(lia) I)
               "ELEM_BEG03" "ERROR"); reflexivity.
Defined.

Lemma conditional_trigger_witness :
  let segment := Segment.mk 1 "N1" ["N1"; "ST"; "ACME"] 3 "N1*ST*ACME" in
  ConditionalRuleValidator.validate_segment n1_requires_n3_on_id [segment]
                                            segment ErrorCollector.new
  = (ErrorCollector.new, inr tt).
Proof.
  intros segment.
  apply (proj1 (conditional_trigger n1_requires_n3_on_id [segment] segment)).
  reflexivity.
Defined.

Lemma count_match_agreement_witness :
  let segments :=
    Document.segments (document_of "PO1*1~PO1*2~CTT* 2~SE*4*0001~") in
  CrossSegmentValidator._validate_count_match
    ctt_counts_po1 segments (Rule.validation_logic ctt_counts_po1)
    ErrorCollector.new
  = (ErrorCollector.new, inr tt).
Proof.
  intros segments.
  apply (count_match_agreement ctt_counts_po1 segments 1 eq_refl);
    [lia |].
  apply Forall_forall. intros s Hin. vm_compute in Hin.
  destruct Hin as [<- | []]. vm_compute. reflexivity.
Defined.

Lemma element_value_exists_outcome_witness :
  let segments :=
    Document.segments (document_of "N1*BT*ACME~N1*ST*DEPOT~") in
  CrossSegmentValidator._validate_element_value_exists
    n1_st_exists segments (Rule.validation_logic n1_st_exists)
    ErrorCollector.new
  = (ErrorCollector.new, inr tt).
Proof.
  intros segments.
  rewrite (element_value_exists_outcome n1_st_exists segments 1
             "CROSS_N1_ST" "WARNING" eq_refl ltac:(lia) eq_refl eq_refl).
  vm_compute. reflexivity.
Defined.

(** ** Cross-segment element match: which occurrences are compared *)

Lemma combine_nth_error :
  forall {A B} (l1 : list A) (l2 : list B) (i : nat),
    nth_error (combine l1 l2) i
    = match nth_error l1 i, nth_error l2 i with
      | Some a, Some b => Some (a, b)
      | _, _ => None
      end.
Proof.
  intros A B. induction l1 as [| a l1 IH]; intros l2 i.
  - simpl. now destruct i.
  - destruct l2 as [| b l2]; simpl.
    + destruct i as [| i]; simpl; [reflexivity |].
      now destruct (nth_error l1 i).
    + destruct i as [| i]; simpl; [reflexivity | apply IH].
Qed.

Lemma combine_shorter :
  forall {A B} (l1 : list A) (l2 : list B),
    combine l1 l2
    = combine (firstn (Nat.min (List.length l1) (List.length l2)) l1)
              (firstn (Nat.min (List.length l1) (List.length l2)) l2).
Proof.
  intros A B l1 l2.
  rewrite <- combine_firstn, <- length_combine. symmetry. apply firstn_all.
Qed.

Lemma add_issues_app :
  forall c l l',
    add_issues c (l ++ l') = add_issues (add_issues c l) l'.
Proof. intros c l l'. unfold add_issues. apply fold_left_app. Qed.

Lemma element_match_step_outcome :
  forall rule rule_id severity seg1_id seg2_id elem1_pos elem2_pos seg12 c,
    0 <= elem1_pos -> 0 <= elem2_pos ->
    Rule.rule_id rule = Some rule_id ->
    Rule.severity rule = Some severity ->
    CrossSegmentValidator.element_match_step rule seg1_id seg2_id
                                             elem1_pos elem2_pos seg12 c
    = (add_issues c (mismatch_issues rule_id severity seg1_id seg2_id
                                     elem1_pos elem2_pos seg12),
       inr tt).
Proof.
  intros rule rule_id severity seg1_id seg2_id p1 p2 [seg1 seg2] c
         Hp1 Hp2 Hid Hsev.
  unfold CrossSegmentValidator.element_match_step, mismatch_issues. simpl.
  pose proof (nth_error_lt (Segment.elements seg1) p1 Hp1) as H1.
  pose proof (nth_error_lt (Segment.elements seg2) p2 Hp2) as H2.
  destruct (nth_error (Segment.elements seg1) (Z.to_nat p1)) as [e1 |].
  - destruct H1 as [Hlt1 He1]. rewrite Hlt1.
    destruct (nth_error (Segment.elements seg2) (Z.to_nat p2)) as [e2 |].
    + destruct H2 as [Hlt2 He2]. rewrite Hlt2. cbn [andb].
      unfold bind at 1. unfold lift at 1. rewrite He1.
      unfold bind at 1. unfold lift at 1. rewrite He2.
      destruct (String.eqb (Py.strip e1) (Py.strip e2)); [reflexivity |].
      unfold when. cbn [negb]. now apply report_with_keys.
    + rewrite H2. reflexivity.
  - rewrite H1. reflexivity.
Qed.

Lemma for_each_step_outcome :
  forall rule rule_id severity seg1_id seg2_id elem1_pos elem2_pos pairs c,
    0 <= elem1_pos -> 0 <= elem2_pos ->
    Rule.rule_id rule = Some rule_id ->
    Rule.severity rule = Some severity ->
    for_each pairs
      (CrossSegmentValidator.element_match_step rule seg1_id seg2_id
                                                elem1_pos elem2_pos) c
    = (add_issues c
         (flat_map (mismatch_issues rule_id severity seg1_id seg2_id
                                    elem1_pos elem2_pos) pairs),
       inr tt).
Proof.
  intros rule rule_id severity seg1_id seg2_id p1 p2 pairs c Hp1 Hp2 Hid Hsev.
  revert c. induction pairs as [| seg12 pairs IH]; intros c; [reflexivity |].
  simpl for_each. unfold bind.
  rewrite (element_match_step_outcome rule rule_id severity seg1_id seg2_id
             p1 p2 seg12 c Hp1 Hp2 Hid Hsev).
  rewrite IH. simpl flat_map. now rewrite add_issues_app.
Qed.

(** C10. Element match compares the occurrences of the two segment ids
    strictly by position: the pairs the loop body runs on are, in order,
    the i-th segment with the first id and the i-th segment with the
    second id, for every i at which both exist, wherever these segments
    stand in the document. With a rule that has an id and a severity and
    positions that are not negative, the evaluator returns having added,
    pair after pair, one issue for each pair whose two elements are both
    there and differ once stripped, and nothing else. The occurrences after
    the shorter list has run out are not looked at: two documents with the
    same shorter count that agree on that many first occurrences of each
    id are treated alike. A pair in which either position is at or beyond
    the segment's element count adds no issue and raises nothing. A rule of
    type element_match runs its match pairs in order, each in this way. *)
Theorem element_match_pairs_by_position :
  (forall rule segments pair elem1_pos elem2_pos,
      let seg1_list := segments_with_id segments (MatchPair.segment_1 pair) in
      let seg2_list := segments_with_id segments (MatchPair.segment_2 pair) in
      py_int_default0 (MatchPair.element_1 pair) = inr elem1_pos ->
      py_int_default0 (MatchPair.element_2 pair) = inr elem2_pos ->
      exists pairs,
        (forall i,
            nth_error pairs i
            = match nth_error seg1_list i, nth_error seg2_list i with
              | Some seg1, Some seg2 => Some (seg1, seg2)
              | _, _ => None
              end)
        /\ List.length pairs
           = Nat.min (List.length seg1_list) (List.length seg2_list)
        /\ (forall c,
               CrossSegmentValidator.element_match_pair rule segments pair c
               = for_each pairs
                   (CrossSegmentValidator.element_match_step
                      rule (MatchPair.segment_1 pair)
                      (MatchPair.segment_2 pair) elem1_pos elem2_pos) c)
        /\ (forall rule_id severity,
               0 <= elem1_pos -> 0 <= elem2_pos ->
               Rule.rule_id rule = Some rule_id ->
               Rule.severity rule = Some severity ->
               forall c,
                 CrossSegmentValidator.element_match_pair rule segments pair c
                 = (add_issues c
                      (flat_map
                         (mismatch_issues rule_id severity
                            (MatchPair.segment_1 pair)
                            (MatchPair.segment_2 pair) elem1_pos elem2_pos)
                         pairs),
                    inr tt)))
  /\ (forall rule segments segments' pair,
         let seg1_list :=
           segments_with_id segments (MatchPair.segment_1 pair) in
         let seg2_list :=
           segments_with_id segments (MatchPair.segment_2 pair) in
         let seg1_list' :=
           segments_with_id segments' (MatchPair.segment_1 pair) in
         let seg2_list' :=
           segments_with_id segments' (MatchPair.segment_2 pair) in
         let shorter :=
           Nat.min (List.length seg1_list) (List.length seg2_list) in
         Nat.min (List.length seg1_list') (List.length seg2_list') = shorter ->
         firstn shorter seg1_list' = firstn shorter seg1_list ->
         firstn shorter seg2_list' = firstn shorter seg2_list ->
         forall c,
           CrossSegmentValidator.element_match_pair rule segments' pair c
           = CrossSegmentValidator.element_match_pair rule segments pair c)
  /\ (forall rule seg1_id seg2_id elem1_pos elem2_pos seg1 seg2 c,
         Py.len (Segment.elements seg1) <= elem1_pos
         \/ Py.len (Segment.elements seg2) <= elem2_pos ->
         CrossSegmentValidator.element_match_step rule seg1_id seg2_id
           elem1_pos elem2_pos (seg1, seg2) c
         = (c, inr tt))
  /\ (forall rule segments,
         ValidationLogic.type (Rule.validation_logic rule)
         = Some "element_match" ->
         forall c,
           CrossSegmentValidator.validate_rule segments rule c
           = for_each
               (ValidationLogic.match_pairs (Rule.validation_logic rule))
               (CrossSegmentValidator.element_match_pair rule segments) c).
Proof.
  split; [| split; [| split]].
  - intros rule segments pair p1 p2 l1 l2 Hp1 Hp2.
    exists (combine l1 l2).
    assert (Hrun :
              forall c,
                CrossSegmentValidator.element_match_pair rule segments pair c
                = for_each (combine l1 l2)
                    (CrossSegmentValidator.element_match_step
                       rule (MatchPair.segment_1 pair)
                       (MatchPair.segment_2 pair) p1 p2) c).
    { intros c. unfold CrossSegmentValidator.element_match_pair.
      unfold bind at 1. unfold lift at 1. rewrite Hp1.
      unfold bind at 1. unfold lift at 1. rewrite Hp2. reflexivity. }
    split; [apply combine_nth_error |].
    split; [apply length_combine |].
    split; [exact Hrun |].
    intros rule_id severity H1 H2 Hid Hsev c. rewrite Hrun.
    now apply for_each_step_outcome.
  - intros rule segments segments' pair l1 l2 l1' l2' shorter Hmin H1 H2 c.
    unfold CrossSegmentValidator.element_match_pair.
    fold l1 l2 l1' l2'.
    rewrite (combine_shorter l1' l2'), (combine_shorter l1 l2).
    fold shorter. rewrite Hmin, H1, H2. reflexivity.
  - intros rule seg1_id seg2_id elem1_pos elem2_pos seg1 seg2 c Hbeyond.
    unfold CrossSegmentValidator.element_match_step.
    destruct (Z.ltb_spec elem1_pos (Py.len (Segment.elements seg1)));
      destruct (Z.ltb_spec elem2_pos (Py.len (Segment.elements seg2)));
      simpl; try reflexivity.
    lia.
  - intros rule segments Htype c.
    unfold CrossSegmentValidator.validate_rule. rewrite Htype. reflexivity.
Qed.

Lemma element_match_pairs_by_position_witness :
  let segments :=
    Document.segments
      (document_of "BEG*00*NE*PO1~BEG*00*NE*PO2~REF*ZZ*PO9~SE*3*0001~") in
  let without_second_beg := (firstn 1 segments ++ skipn 2 segments)%list in
  let pair :=
    MatchPair.mk (Some "BEG") (Some (JInt 3)) (Some "REF") (Some (JInt 2)) in
  CrossSegmentValidator.element_match_pair beg03_matches_ref02 segments pair
                                           ErrorCollector.new
  = (ErrorCollector.mk []
       [Issue.mk "CROSS_BEG_REF" "WARNING" "BEG03 and REF02 must match"
          (Some "REF") (Some 3) (Some 2) (Some "PO1") (Some "PO9") []] [],
     inr tt)
  /\ CrossSegmentValidator.element_match_pair beg03_matches_ref02
       without_second_beg pair ErrorCollector.new
     = CrossSegmentValidator.element_match_pair beg03_matches_ref02 segments
         pair ErrorCollector.new
  /\ CrossSegmentValidator.element_match_step beg03_matches_ref02
       (Some "BEG") (Some "REF") 3 2
       (Segment.mk 1 "BEG" ["BEG"; "00"; "NE"] 3 "BEG*00*NE",
        Segment.mk 2 "REF" ["REF"; "ZZ"; "PO1"] 3 "REF*ZZ*PO1")
       ErrorCollector.new
     = (ErrorCollector.new, inr tt).
Proof.
  intros segments without_second_beg pair. split; [| split].
  - destruct (proj1 element_match_pairs_by_position beg03_matches_ref02
                    segments pair 3 2 eq_refl eq_refl)
      as [pairs [Hnth [Hlen [_ Houtcome]]]].
    rewrite (Houtcome "CROSS_BEG_REF" "WARNING" ltac:(lia) ltac:(lia)
                      eq_refl eq_refl).
    destruct pairs as [| seg12 [| another pairs]];
      [discriminate Hlen | | discriminate Hlen].
    specialize (Hnth 0%nat). vm_compute in Hnth. injection Hnth as ->.
    vm_compute. reflexivity.
  - apply (proj1 (proj2 element_match_pairs_by_position) beg03_matches_ref02
                 segments without_second_beg pair); vm_compute; reflexivity.
  - apply (proj1 (proj2 (proj2 element_match_pairs_by_position))).
    left. vm_compute. discriminate.
Defined.
